(** * ReactiveTwitter: a bounded, multi-indexed message board

    Shallow embedding of the contract [src/src/ReactiveTwitter.sol]
    (Solidity ^0.8.0) and the properties of its message store.

    Conventions of the embedding
    - [uint256] and [address] are carried by [N].  Solidity 0.8 arithmetic is
      checked: an overflow or an underflow aborts the call with [Panic].
      Every [++], [--], [+], [-] and [*] of the source on contract data is
      therefore written with [checked_add], [checked_sub], [checked_mul].
    - a [mapping] is a total function with the all-zero default, updated
      pointwise with [upd].
    - a storage array is a [list]; [push] appends at the end.  A [for] loop
      over an array is a recursion over the ids still to visit.
    - a call either commits a new state ([Ok]) or reverts ([Fail]): in the
      second case the EVM discards every write, which [exec] expresses.
    - [msg.sender] and [block.timestamp] are read from an [Env].
    - events are appended to the log [emitted].

    Contents: the contract; the vocabulary of the specification; the proofs:
    frame of the eviction (C4), immutable records (C8), the store invariant
    and its failure for parent 0 (C1), eviction order (C3), capacity (C2),
    the profile directory (C9), replies to the dummy message (C10), order of
    the preconditions (C7), and the padding of the two feed queries (C5,
    C6). *)

From Stdlib Require Import NArith PeanoNat List String Ascii Bool Lia Sorted FinFun.
Import ListNotations.
Open Scope string_scope.
Open Scope list_scope.
Open Scope N_scope.


(** ** Machine integers, failures *)

Abbreviation uint256 := N (only parsing).
Abbreviation address := N (only parsing).

Definition MAX_UINT256 : N := 2 ^ 256 - 1.

Arguments MAX_UINT256 : simpl never.

Inductive Failure : Type :=
| Revert (reason : string)
| Panic (code : N).

Inductive Result (A : Type) : Type :=
| Ok (a : A)
| Fail (f : Failure).

Arguments Ok {A} a.
Arguments Fail {A} f.

Definition bind {A B : Type} (r : Result A) (k : A -> Result B) : Result B :=
  match r with
  | Ok a => k a
  | Fail f => Fail f
  end.

Notation "x <- r ;; k" := (bind r (fun x => k))
  (at level 61, r at next level, right associativity).
Notation "r ;; k" := (bind r (fun _ => k))
  (at level 61, right associativity).

(** A local variable or an assignment.  [var x := v ;; k] is [let x := v in k]
    behind a constant, so that a long run of assignments to the state is
    unfolded one at a time in proofs; it is used where the source threads the
    state through more than a handful of writes. *)
Definition letin {A B : Type} (v : A) (k : A -> B) : B := k v.

Arguments letin : simpl never.

Notation "'var' x ':=' v ';;' k" := (letin v (fun x => k))
  (at level 61, x name, v at next level, right associativity).

Definition require (cond : bool) (reason : string) : Result unit :=
  if cond then Ok tt else Fail (Revert reason).

(** Arithmetic panic code of Solidity 0.8. *)
Definition ARITH : N := 17.

Definition checked_add (a b : uint256) : Result uint256 :=
  if a + b <=? MAX_UINT256 then Ok (a + b) else Fail (Panic ARITH).

Definition checked_sub (a b : uint256) : Result uint256 :=
  if b <=? a then Ok (a - b) else Fail (Panic ARITH).

Definition checked_mul (a b : uint256) : Result uint256 :=
  if a * b <=? MAX_UINT256 then Ok (a * b) else Fail (Panic ARITH).

(** ** Mappings *)

Class Key (K : Type) : Type := {
  keyb : K -> K -> bool;
  keyb_spec : forall x y, reflect (x = y) (keyb x y)
}.

#[export] Instance Key_N : Key N :=
  {| keyb := N.eqb; keyb_spec := N.eqb_spec |}.

#[export] Instance Key_string : Key string :=
  {| keyb := String.eqb; keyb_spec := String.eqb_spec |}.

Definition upd {K V : Type} `{Key K} (m : K -> V) (k : K) (v : V) : K -> V :=
  fun k' => if keyb k' k then v else m k'.

Arguments upd : simpl never.

(** [strlen] is [bytes(s).length]. *)
Definition strlen (s : string) : uint256 := N.of_nat (String.length s).

(** ** Data model *)

Module Message.
Record t : Type := mk {
  sender : address;
  content : string;
  timestamp : uint256;
  nickname : string;
  replyToMessageId : uint256;
  isDeleted : bool
}.
(** The value a mapping returns for a key never written, and the value of a
    fresh element of a memory array. *)
Definition zero : t := mk 0 "" 0 "" 0 false.
Definition markDeleted (m : t) : t :=
  mk (sender m) (content m) (timestamp m) (nickname m)
     (replyToMessageId m) true.
End Message.

Module UserProfile.
Record t : Type := mk {
  nickname : string;
  avatarCode : string;
  isActive : bool;
  lastNicknameUpdate : uint256
}.
Definition zero : t := mk "" "" false 0.
Definition setAvatarCode (v : string) (p : t) : t :=
  mk (nickname p) v (isActive p) (lastNicknameUpdate p).
Definition setIsActive (v : bool) (p : t) : t :=
  mk (nickname p) (avatarCode p) v (lastNicknameUpdate p).
End UserProfile.

Inductive Event : Type :=
| MessageSent (messageId : uint256) (sender : address) (content : string)
    (timestamp : uint256)
| ReplyMessageSent (messageId : uint256) (sender : address)
    (replyToMessageId : uint256) (timestamp : uint256)
| ProfileUpdated (user : address) (nickname avatarCode : string)
| ProfileDeactivated (user : address)
| MessageDeleted (messageId : uint256) (sender : address)
| OldMessagesDeleted (count : uint256)
| ParameterUpdated (paramName : string) (newValue : uint256).

Record Env : Type := mkEnv {
  msg_sender : address;
  block_timestamp : uint256
}.

Definition PERIOD_SIZE : uint256 := 100.
Definition MAX_QUEUE_SIZE : uint256 := 500.

Record State : Type := mkState {
  maxMessageLength : uint256;
  messageCooldown : uint256;
  maxReturnCount : uint256;
  maxActiveMessages : uint256;
  owner : address;
  messages : uint256 -> Message.t;
  messageCount : uint256;
  messageIdsByPeriod : uint256 -> list uint256;
  activeMessageCountByPeriod : uint256 -> uint256;
  periods : list uint256;
  periodExists : uint256 -> bool;
  senderToMessageIds : address -> list uint256;
  activeSenderMessageCount : address -> uint256;
  messageReplies : uint256 -> list uint256;
  activeReplyCount : uint256 -> uint256;
  nicknameToAddress : string -> address;
  addressToProfile : address -> UserProfile.t;
  lastMessageTime : address -> uint256;
  totalActiveMessages : uint256;
  chronologicalMessageIds : list uint256;
  messageIdToChronologicalIndex : uint256 -> uint256;
  emitted : list Event
}.

Definition set_maxMessageLength (v : uint256) (s : State) : State :=
  mkState v (messageCooldown s) (maxReturnCount s) (maxActiveMessages s)
    (owner s) (messages s) (messageCount s) (messageIdsByPeriod s)
    (activeMessageCountByPeriod s) (periods s) (periodExists s)
    (senderToMessageIds s) (activeSenderMessageCount s) (messageReplies s)
    (activeReplyCount s) (nicknameToAddress s) (addressToProfile s)
    (lastMessageTime s) (totalActiveMessages s) (chronologicalMessageIds s)
    (messageIdToChronologicalIndex s) (emitted s).

Definition set_messageCooldown (v : uint256) (s : State) : State :=
  mkState (maxMessageLength s) v (maxReturnCount s) (maxActiveMessages s)
    (owner s) (messages s) (messageCount s) (messageIdsByPeriod s)
    (activeMessageCountByPeriod s) (periods s) (periodExists s)
    (senderToMessageIds s) (activeSenderMessageCount s) (messageReplies s)
    (activeReplyCount s) (nicknameToAddress s) (addressToProfile s)
    (lastMessageTime s) (totalActiveMessages s) (chronologicalMessageIds s)
    (messageIdToChronologicalIndex s) (emitted s).

Definition set_maxReturnCount (v : uint256) (s : State) : State :=
  mkState (maxMessageLength s) (messageCooldown s) v (maxActiveMessages s)
    (owner s) (messages s) (messageCount s) (messageIdsByPeriod s)
    (activeMessageCountByPeriod s) (periods s) (periodExists s)
    (senderToMessageIds s) (activeSenderMessageCount s) (messageReplies s)
    (activeReplyCount s) (nicknameToAddress s) (addressToProfile s)
    (lastMessageTime s) (totalActiveMessages s) (chronologicalMessageIds s)
    (messageIdToChronologicalIndex s) (emitted s).

Definition set_maxActiveMessages (v : uint256) (s : State) : State :=
  mkState (maxMessageLength s) (messageCooldown s) (maxReturnCount s) v
    (owner s) (messages s) (messageCount s) (messageIdsByPeriod s)
    (activeMessageCountByPeriod s) (periods s) (periodExists s)
    (senderToMessageIds s) (activeSenderMessageCount s) (messageReplies s)
    (activeReplyCount s) (nicknameToAddress s) (addressToProfile s)
    (lastMessageTime s) (totalActiveMessages s) (chronologicalMessageIds s)
    (messageIdToChronologicalIndex s) (emitted s).

Definition set_owner (v : address) (s : State) : State :=
  mkState (maxMessageLength s) (messageCooldown s) (maxReturnCount s)
    (maxActiveMessages s) v (messages s) (messageCount s)
    (messageIdsByPeriod s) (activeMessageCountByPeriod s) (periods s)
    (periodExists s) (senderToMessageIds s) (activeSenderMessageCount s)
    (messageReplies s) (activeReplyCount s) (nicknameToAddress s)
    (addressToProfile s) (lastMessageTime s) (totalActiveMessages s)
    (chronologicalMessageIds s) (messageIdToChronologicalIndex s) (emitted s).

Definition set_messages (v : uint256 -> Message.t) (s : State) : State :=
  mkState (maxMessageLength s) (messageCooldown s) (maxReturnCount s)
    (maxActiveMessages s) (owner s) v (messageCount s) (messageIdsByPeriod s)
    (activeMessageCountByPeriod s) (periods s) (periodExists s)
    (senderToMessageIds s) (activeSenderMessageCount s) (messageReplies s)
    (activeReplyCount s) (nicknameToAddress s) (addressToProfile s)
    (lastMessageTime s) (totalActiveMessages s) (chronologicalMessageIds s)
    (messageIdToChronologicalIndex s) (emitted s).

Definition set_messageCount (v : uint256) (s : State) : State :=
  mkState (maxMessageLength s) (messageCooldown s) (maxReturnCount s)
    (maxActiveMessages s) (owner s) (messages s) v (messageIdsByPeriod s)
    (activeMessageCountByPeriod s) (periods s) (periodExists s)
    (senderToMessageIds s) (activeSenderMessageCount s) (messageReplies s)
    (activeReplyCount s) (nicknameToAddress s) (addressToProfile s)
    (lastMessageTime s) (totalActiveMessages s) (chronologicalMessageIds s)
    (messageIdToChronologicalIndex s) (emitted s).

Definition set_messageIdsByPeriod (v : uint256 -> list uint256) (s : State) : State :=
  mkState (maxMessageLength s) (messageCooldown s) (maxReturnCount s)
    (maxActiveMessages s) (owner s) (messages s) (messageCount s) v
    (activeMessageCountByPeriod s) (periods s) (periodExists s)
    (senderToMessageIds s) (activeSenderMessageCount s) (messageReplies s)
    (activeReplyCount s) (nicknameToAddress s) (addressToProfile s)
    (lastMessageTime s) (totalActiveMessages s) (chronologicalMessageIds s)
    (messageIdToChronologicalIndex s) (emitted s).

Definition set_activeMessageCountByPeriod (v : uint256 -> uint256) (s : State) : State :=
  mkState (maxMessageLength s) (messageCooldown s) (maxReturnCount s)
    (maxActiveMessages s) (owner s) (messages s) (messageCount s)
    (messageIdsByPeriod s) v (periods s) (periodExists s)
    (senderToMessageIds s) (activeSenderMessageCount s) (messageReplies s)
    (activeReplyCount s) (nicknameToAddress s) (addressToProfile s)
    (lastMessageTime s) (totalActiveMessages s) (chronologicalMessageIds s)
    (messageIdToChronologicalIndex s) (emitted s).

Definition set_periods (v : list uint256) (s : State) : State :=
  mkState (maxMessageLength s) (messageCooldown s) (maxReturnCount s)
    (maxActiveMessages s) (owner s) (messages s) (messageCount s)
    (messageIdsByPeriod s) (activeMessageCountByPeriod s) v (periodExists s)
    (senderToMessageIds s) (activeSenderMessageCount s) (messageReplies s)
    (activeReplyCount s) (nicknameToAddress s) (addressToProfile s)
    (lastMessageTime s) (totalActiveMessages s) (chronologicalMessageIds s)
    (messageIdToChronologicalIndex s) (emitted s).

Definition set_periodExists (v : uint256 -> bool) (s : State) : State :=
  mkState (maxMessageLength s) (messageCooldown s) (maxReturnCount s)
    (maxActiveMessages s) (owner s) (messages s) (messageCount s)
    (messageIdsByPeriod s) (activeMessageCountByPeriod s) (periods s) v
    (senderToMessageIds s) (activeSenderMessageCount s) (messageReplies s)
    (activeReplyCount s) (nicknameToAddress s) (addressToProfile s)
    (lastMessageTime s) (totalActiveMessages s) (chronologicalMessageIds s)
    (messageIdToChronologicalIndex s) (emitted s).

Definition set_senderToMessageIds (v : address -> list uint256) (s : State) : State :=
  mkState (maxMessageLength s) (messageCooldown s) (maxReturnCount s)
    (maxActiveMessages s) (owner s) (messages s) (messageCount s)
    (messageIdsByPeriod s) (activeMessageCountByPeriod s) (periods s)
    (periodExists s) v (activeSenderMessageCount s) (messageReplies s)
    (activeReplyCount s) (nicknameToAddress s) (addressToProfile s)
    (lastMessageTime s) (totalActiveMessages s) (chronologicalMessageIds s)
    (messageIdToChronologicalIndex s) (emitted s).

Definition set_activeSenderMessageCount (v : address -> uint256) (s : State) : State :=
  mkState (maxMessageLength s) (messageCooldown s) (maxReturnCount s)
    (maxActiveMessages s) (owner s) (messages s) (messageCount s)
    (messageIdsByPeriod s) (activeMessageCountByPeriod s) (periods s)
    (periodExists s) (senderToMessageIds s) v (messageReplies s)
    (activeReplyCount s) (nicknameToAddress s) (addressToProfile s)
    (lastMessageTime s) (totalActiveMessages s) (chronologicalMessageIds s)
    (messageIdToChronologicalIndex s) (emitted s).

Definition set_messageReplies (v : uint256 -> list uint256) (s : State) : State :=
  mkState (maxMessageLength s) (messageCooldown s) (maxReturnCount s)
    (maxActiveMessages s) (owner s) (messages s) (messageCount s)
    (messageIdsByPeriod s) (activeMessageCountByPeriod s) (periods s)
    (periodExists s) (senderToMessageIds s) (activeSenderMessageCount s) v
    (activeReplyCount s) (nicknameToAddress s) (addressToProfile s)
    (lastMessageTime s) (totalActiveMessages s) (chronologicalMessageIds s)
    (messageIdToChronologicalIndex s) (emitted s).

Definition set_activeReplyCount (v : uint256 -> uint256) (s : State) : State :=
  mkState (maxMessageLength s) (messageCooldown s) (maxReturnCount s)
    (maxActiveMessages s) (owner s) (messages s) (messageCount s)
    (messageIdsByPeriod s) (activeMessageCountByPeriod s) (periods s)
    (periodExists s) (senderToMessageIds s) (activeSenderMessageCount s)
    (messageReplies s) v (nicknameToAddress s) (addressToProfile s)
    (lastMessageTime s) (totalActiveMessages s) (chronologicalMessageIds s)
    (messageIdToChronologicalIndex s) (emitted s).

Definition set_nicknameToAddress (v : string -> address) (s : State) : State :=
  mkState (maxMessageLength s) (messageCooldown s) (maxReturnCount s)
    (maxActiveMessages s) (owner s) (messages s) (messageCount s)
    (messageIdsByPeriod s) (activeMessageCountByPeriod s) (periods s)
    (periodExists s) (senderToMessageIds s) (activeSenderMessageCount s)
    (messageReplies s) (activeReplyCount s) v (addressToProfile s)
    (lastMessageTime s) (totalActiveMessages s) (chronologicalMessageIds s)
    (messageIdToChronologicalIndex s) (emitted s).

Definition set_addressToProfile (v : address -> UserProfile.t) (s : State) : State :=
  mkState (maxMessageLength s) (messageCooldown s) (maxReturnCount s)
    (maxActiveMessages s) (owner s) (messages s) (messageCount s)
    (messageIdsByPeriod s) (activeMessageCountByPeriod s) (periods s)
    (periodExists s) (senderToMessageIds s) (activeSenderMessageCount s)
    (messageReplies s) (activeReplyCount s) (nicknameToAddress s) v
    (lastMessageTime s) (totalActiveMessages s) (chronologicalMessageIds s)
    (messageIdToChronologicalIndex s) (emitted s).

Definition set_lastMessageTime (v : address -> uint256) (s : State) : State :=
  mkState (maxMessageLength s) (messageCooldown s) (maxReturnCount s)
    (maxActiveMessages s) (owner s) (messages s) (messageCount s)
    (messageIdsByPeriod s) (activeMessageCountByPeriod s) (periods s)
    (periodExists s) (senderToMessageIds s) (activeSenderMessageCount s)
    (messageReplies s) (activeReplyCount s) (nicknameToAddress s)
    (addressToProfile s) v (totalActiveMessages s)
    (chronologicalMessageIds s) (messageIdToChronologicalIndex s) (emitted s).

Definition set_totalActiveMessages (v : uint256) (s : State) : State :=
  mkState (maxMessageLength s) (messageCooldown s) (maxReturnCount s)
    (maxActiveMessages s) (owner s) (messages s) (messageCount s)
    (messageIdsByPeriod s) (activeMessageCountByPeriod s) (periods s)
    (periodExists s) (senderToMessageIds s) (activeSenderMessageCount s)
    (messageReplies s) (activeReplyCount s) (nicknameToAddress s)
    (addressToProfile s) (lastMessageTime s) v (chronologicalMessageIds s)
    (messageIdToChronologicalIndex s) (emitted s).

Definition set_chronologicalMessageIds (v : list uint256) (s : State) : State :=
  mkState (maxMessageLength s) (messageCooldown s) (maxReturnCount s)
    (maxActiveMessages s) (owner s) (messages s) (messageCount s)
    (messageIdsByPeriod s) (activeMessageCountByPeriod s) (periods s)
    (periodExists s) (senderToMessageIds s) (activeSenderMessageCount s)
    (messageReplies s) (activeReplyCount s) (nicknameToAddress s)
    (addressToProfile s) (lastMessageTime s) (totalActiveMessages s) v
    (messageIdToChronologicalIndex s) (emitted s).

Definition set_messageIdToChronologicalIndex (v : uint256 -> uint256) (s : State) : State :=
  mkState (maxMessageLength s) (messageCooldown s) (maxReturnCount s)
    (maxActiveMessages s) (owner s) (messages s) (messageCount s)
    (messageIdsByPeriod s) (activeMessageCountByPeriod s) (periods s)
    (periodExists s) (senderToMessageIds s) (activeSenderMessageCount s)
    (messageReplies s) (activeReplyCount s) (nicknameToAddress s)
    (addressToProfile s) (lastMessageTime s) (totalActiveMessages s)
    (chronologicalMessageIds s) v (emitted s).

Definition set_emitted (v : list Event) (s : State) : State :=
  mkState (maxMessageLength s) (messageCooldown s) (maxReturnCount s)
    (maxActiveMessages s) (owner s) (messages s) (messageCount s)
    (messageIdsByPeriod s) (activeMessageCountByPeriod s) (periods s)
    (periodExists s) (senderToMessageIds s) (activeSenderMessageCount s)
    (messageReplies s) (activeReplyCount s) (nicknameToAddress s)
    (addressToProfile s) (lastMessageTime s) (totalActiveMessages s)
    (chronologicalMessageIds s) (messageIdToChronologicalIndex s) v.

Definition emit (ev : Event) (s : State) : State :=
  set_emitted (emitted s ++ [ev]) s.

(** ** The contract *)

Definition constructor (e : Env) : State :=
  {| maxMessageLength := 768;
     messageCooldown := 60;
     maxReturnCount := 50;
     maxActiveMessages := 500;
     owner := msg_sender e;
     messages :=
       upd (fun _ => Message.zero) 0
           (Message.mk 0 "" (block_timestamp e) "" 0 true);
     messageCount := 1;
     messageIdsByPeriod := upd (fun _ => []) 0 [0];
     activeMessageCountByPeriod := fun _ => 0;
     periods := [0];
     periodExists := upd (fun _ => false) 0 true;
     senderToMessageIds := fun _ => [];
     activeSenderMessageCount := fun _ => 0;
     messageReplies := fun _ => [];
     activeReplyCount := fun _ => 0;
     nicknameToAddress := fun _ => 0;
     addressToProfile := fun _ => UserProfile.zero;
     lastMessageTime := fun _ => 0;
     totalActiveMessages := 0;
     chronologicalMessageIds := [0];
     messageIdToChronologicalIndex := upd (fun _ => 0) 0 0;
     emitted := [] |}.

Definition getMessage (messageId : uint256) (s : State) : Result Message.t :=
  require (messageId <? messageCount s) "Message does not exist" ;;
  Ok (messages s messageId).

(** [_validateNickname]: letters, digits and underscore only.  The loop
    returns [false] at the first byte outside these ranges. *)
Fixpoint _validateNickname (nickname : string) : bool :=
  match nickname with
  | EmptyString => true
  | String b rest =>
      let char := N_of_ascii b in
      if negb ((0x30 <=? char) && (char <=? 0x39)) &&
         negb ((0x41 <=? char) && (char <=? 0x5A)) &&
         negb ((0x61 <=? char) && (char <=? 0x7A)) &&
         negb (char =? 0x5F)
      then false
      else _validateNickname rest
  end.

Definition updateProfile (e : Env) (nickname avatarCode : string) (s : State)
  : Result State :=
  require (0 <? strlen nickname) "Nickname cannot be empty" ;;
  require (strlen nickname <=? 32) "Nickname too long" ;;
  require (_validateNickname nickname)
    "Nickname contains invalid characters" ;;
  let existingAddress := nicknameToAddress s nickname in
  if negb (existingAddress =? 0) && negb (existingAddress =? msg_sender e)
  then Fail (Revert "Nickname already taken")
  else
    let userProfile := addressToProfile s (msg_sender e) in
    let old := UserProfile.nickname userProfile in
    let s :=
      if (0 <? strlen old) && (nicknameToAddress s old =? msg_sender e)
      then set_nicknameToAddress (upd (nicknameToAddress s) old 0) s
      else s in
    let s :=
      set_addressToProfile
        (upd (addressToProfile s) (msg_sender e)
             (UserProfile.mk nickname avatarCode true (block_timestamp e))) s in
    let s :=
      set_nicknameToAddress
        (upd (nicknameToAddress s) nickname (msg_sender e)) s in
    Ok (emit (ProfileUpdated (msg_sender e) nickname avatarCode) s).

Definition updateAvatar (e : Env) (avatarCode : string) (s : State)
  : Result State :=
  let profile := addressToProfile s (msg_sender e) in
  require (0 <? strlen (UserProfile.nickname profile)) "Set nickname first" ;;
  let s :=
    set_addressToProfile
      (upd (addressToProfile s) (msg_sender e)
           (UserProfile.setAvatarCode avatarCode profile)) s in
  Ok (emit (ProfileUpdated (msg_sender e)
              (UserProfile.nickname (addressToProfile s (msg_sender e)))
              avatarCode) s).

Definition deactivateProfile (e : Env) (s : State) : Result State :=
  require (0 <? strlen (UserProfile.nickname (addressToProfile s (msg_sender e))))
    "Profile not found" ;;
  let currentNickname :=
    UserProfile.nickname (addressToProfile s (msg_sender e)) in
  let s :=
    if nicknameToAddress s currentNickname =? msg_sender e
    then set_nicknameToAddress (upd (nicknameToAddress s) currentNickname 0) s
    else s in
  let s :=
    set_addressToProfile
      (upd (addressToProfile s) (msg_sender e)
           (UserProfile.setIsActive false (addressToProfile s (msg_sender e))))
      s in
  Ok (emit (ProfileDeactivated (msg_sender e)) s).

(** [_markMessageAsDeleted]: the single place where [isDeleted] is set. *)
Definition _markMessageAsDeleted (messageId : uint256) (s : State)
  : Result State :=
  if Message.isDeleted (messages s messageId) then Ok s
  else
    let s :=
      set_messages
        (upd (messages s) messageId
             (Message.markDeleted (messages s messageId))) s in
    let period := messageId / PERIOD_SIZE in
    s <- (if periodExists s period
          then c <- checked_sub (activeMessageCountByPeriod s period) 1 ;;
               Ok (set_activeMessageCountByPeriod
                     (upd (activeMessageCountByPeriod s) period c) s)
          else Ok s) ;;
    let sender := Message.sender (messages s messageId) in
    c <- checked_sub (activeSenderMessageCount s sender) 1 ;;
    let s :=
      set_activeSenderMessageCount
        (upd (activeSenderMessageCount s) sender c) s in
    let parent := Message.replyToMessageId (messages s messageId) in
    s <- (if negb (parent =? 0)
          then c <- checked_sub (activeReplyCount s parent) 1 ;;
               Ok (set_activeReplyCount (upd (activeReplyCount s) parent c) s)
          else Ok s) ;;
    t <- checked_sub (totalActiveMessages s) 1 ;;
    Ok (set_totalActiveMessages t s).

(** The eviction test of [deleteOldestMessages]: a main message that is not
    deleted yet. *)
Definition evictable (s : State) (messageId : uint256) : bool :=
  negb (Message.isDeleted (messages s messageId)) &&
  (Message.replyToMessageId (messages s messageId) =? 0).

(** One soft-delete performed by the eviction loop: the state in which the
    loop found the record, and the record's id.  The list of these is a ghost
    output of the loop; the contract itself only keeps [deletedCount]. *)
Record Eviction : Type := mkEviction {
  ev_before : State;
  ev_id : uint256
}.

(** The body of the [for] loop of [deleteOldestMessages], over the ids
    [chronologicalMessageIds[i..]] still to visit. *)
Fixpoint deleteLoop (ids : list uint256) (deletedCount maxToDelete : uint256)
    (trace : list Eviction) (s : State)
  : Result (uint256 * list Eviction * State) :=
  match ids with
  | [] => Ok (deletedCount, trace, s)
  | messageId :: rest =>
      if deletedCount <? maxToDelete then
        r <- (if evictable s messageId
              then s' <- _markMessageAsDeleted messageId s ;;
                   d <- checked_add deletedCount 1 ;;
                   Ok (d, trace ++ [mkEviction s messageId], s')
              else Ok (deletedCount, trace, s)) ;;
        let '(d, tr, s') := r in
        if maxToDelete <=? d then Ok (d, tr, s')
        else deleteLoop rest d maxToDelete tr s'
      else Ok (deletedCount, trace, s)
  end.

(** [deleteOldestMessages(count)], returning the ghost trace next to the new
    state.  The loop starts at index 1: index 0 holds the dummy message. *)
Definition deleteOldestMessages (count : uint256) (s : State)
  : Result (list Eviction * State) :=
  if (count =? 0) || (totalActiveMessages s =? 0) then Ok ([], s)
  else
    let maxToDelete :=
      if count <? totalActiveMessages s then count
      else totalActiveMessages s in
    r <- deleteLoop (skipn 1 (chronologicalMessageIds s)) 0 maxToDelete [] s ;;
    let '(deletedCount, trace, s) := r in
    if 0 <? deletedCount
    then Ok (trace, emit (OldMessagesDeleted deletedCount) s)
    else Ok (trace, s).

Definition updateParameters (e : Env)
    (newMaxMessageLength newMessageCooldown newMaxReturnCount
       newMaxActiveMessages : uint256) (s : State) : Result State :=
  require (msg_sender e =? owner s) "Only owner can call this function" ;;
  let s := set_maxMessageLength newMaxMessageLength s in
  let s := emit (ParameterUpdated "maxMessageLength" newMaxMessageLength) s in
  let s := set_messageCooldown newMessageCooldown s in
  let s := emit (ParameterUpdated "messageCooldown" newMessageCooldown) s in
  let s := set_maxReturnCount newMaxReturnCount s in
  let s := emit (ParameterUpdated "maxReturnCount" newMaxReturnCount) s in
  let s := set_maxActiveMessages newMaxActiveMessages s in
  let s := emit (ParameterUpdated "maxActiveMessages" newMaxActiveMessages) s in
  if newMaxActiveMessages <? totalActiveMessages s
  then n <- checked_sub (totalActiveMessages s) newMaxActiveMessages ;;
       r <- deleteOldestMessages n s ;;
       Ok (snd r)
  else Ok s.

Definition transferOwnership (e : Env) (newOwner : address) (s : State)
  : Result State :=
  require (msg_sender e =? owner s) "Only owner can call this function" ;;
  require (negb (newOwner =? 0)) "New owner cannot be zero address" ;;
  Ok (set_owner newOwner s).

Definition postMessage (e : Env) (content : string) (s : State)
  : Result State :=
  require (0 <? strlen content) "Message cannot be empty" ;;
  require (strlen content <=? maxMessageLength s) "Message too long" ;;
  elapsed <- checked_sub (block_timestamp e) (lastMessageTime s (msg_sender e)) ;;
  require (messageCooldown s <=? elapsed) "Please wait before posting again" ;;
  require (0 <? strlen (UserProfile.nickname (addressToProfile s (msg_sender e))))
    "Create a profile first" ;;
  require (UserProfile.isActive (addressToProfile s (msg_sender e)))
    "Profile is deactivated" ;;
  s <- (if maxActiveMessages s <=? totalActiveMessages s
        then r <- deleteOldestMessages 1 s ;; Ok (snd r)
        else Ok s) ;;
  var messageId := messageCount s ;;
  c <- checked_add (messageCount s) 1 ;;
  var s := set_messageCount c s ;;
  var period := messageId / PERIOD_SIZE ;;
  var s :=
    set_messages
      (upd (messages s) messageId
           (Message.mk (msg_sender e) content (block_timestamp e)
              (UserProfile.nickname (addressToProfile s (msg_sender e)))
              0 false)) s ;;
  var s :=
    (if negb (periodExists s period)
     then set_periodExists (upd (periodExists s) period true)
            (set_periods (periods s ++ [period]) s)
     else s) ;;
  var s :=
    set_messageIdsByPeriod
      (upd (messageIdsByPeriod s) period
           (messageIdsByPeriod s period ++ [messageId])) s ;;
  c <- checked_add (activeMessageCountByPeriod s period) 1 ;;
  var s :=
    set_activeMessageCountByPeriod
      (upd (activeMessageCountByPeriod s) period c) s ;;
  var s :=
    set_senderToMessageIds
      (upd (senderToMessageIds s) (msg_sender e)
           (senderToMessageIds s (msg_sender e) ++ [messageId])) s ;;
  c <- checked_add (activeSenderMessageCount s (msg_sender e)) 1 ;;
  var s :=
    set_activeSenderMessageCount
      (upd (activeSenderMessageCount s) (msg_sender e) c) s ;;
  var s :=
    set_chronologicalMessageIds (chronologicalMessageIds s ++ [messageId]) s ;;
  i <- checked_sub (N.of_nat (List.length (chronologicalMessageIds s))) 1 ;;
  var s :=
    set_messageIdToChronologicalIndex
      (upd (messageIdToChronologicalIndex s) messageId i) s ;;
  t <- checked_add (totalActiveMessages s) 1 ;;
  var s := set_totalActiveMessages t s ;;
  var s := set_lastMessageTime
             (upd (lastMessageTime s) (msg_sender e) (block_timestamp e)) s ;;
  Ok (emit (MessageSent messageId (msg_sender e) content (block_timestamp e)) s).

Definition replyToMessage (e : Env) (replyToMessageId : uint256)
    (content : string) (s : State) : Result State :=
  require (replyToMessageId <? messageCount s)
    "Original message does not exist" ;;
  require (0 <? strlen content) "Message cannot be empty" ;;
  require (strlen content <=? maxMessageLength s) "Message too long" ;;
  elapsed <- checked_sub (block_timestamp e) (lastMessageTime s (msg_sender e)) ;;
  require (messageCooldown s <=? elapsed) "Please wait before posting again" ;;
  require (0 <? strlen (UserProfile.nickname (addressToProfile s (msg_sender e))))
    "Create a profile first" ;;
  require (UserProfile.isActive (addressToProfile s (msg_sender e)))
    "Profile is deactivated" ;;
  s <- (if maxActiveMessages s <=? totalActiveMessages s
        then r <- deleteOldestMessages 1 s ;; Ok (snd r)
        else Ok s) ;;
  var messageId := messageCount s ;;
  c <- checked_add (messageCount s) 1 ;;
  var s := set_messageCount c s ;;
  var period := messageId / PERIOD_SIZE ;;
  var s :=
    set_messages
      (upd (messages s) messageId
           (Message.mk (msg_sender e) content (block_timestamp e)
              (UserProfile.nickname (addressToProfile s (msg_sender e)))
              replyToMessageId false)) s ;;
  var s :=
    (if negb (periodExists s period)
     then set_periodExists (upd (periodExists s) period true)
            (set_periods (periods s ++ [period]) s)
     else s) ;;
  var s :=
    set_messageIdsByPeriod
      (upd (messageIdsByPeriod s) period
           (messageIdsByPeriod s period ++ [messageId])) s ;;
  c <- checked_add (activeMessageCountByPeriod s period) 1 ;;
  var s :=
    set_activeMessageCountByPeriod
      (upd (activeMessageCountByPeriod s) period c) s ;;
  var s :=
    set_senderToMessageIds
      (upd (senderToMessageIds s) (msg_sender e)
           (senderToMessageIds s (msg_sender e) ++ [messageId])) s ;;
  c <- checked_add (activeSenderMessageCount s (msg_sender e)) 1 ;;
  var s :=
    set_activeSenderMessageCount
      (upd (activeSenderMessageCount s) (msg_sender e) c) s ;;
  var s :=
    set_messageReplies
      (upd (messageReplies s) replyToMessageId
           (messageReplies s replyToMessageId ++ [messageId])) s ;;
  c <- checked_add (activeReplyCount s replyToMessageId) 1 ;;
  var s :=
    set_activeReplyCount (upd (activeReplyCount s) replyToMessageId c) s ;;
  var s :=
    set_chronologicalMessageIds (chronologicalMessageIds s ++ [messageId]) s ;;
  i <- checked_sub (N.of_nat (List.length (chronologicalMessageIds s))) 1 ;;
  var s :=
    set_messageIdToChronologicalIndex
      (upd (messageIdToChronologicalIndex s) messageId i) s ;;
  t <- checked_add (totalActiveMessages s) 1 ;;
  var s := set_totalActiveMessages t s ;;
  var s := set_lastMessageTime
             (upd (lastMessageTime s) (msg_sender e) (block_timestamp e)) s ;;
  Ok (emit (ReplyMessageSent messageId (msg_sender e) replyToMessageId
              (block_timestamp e)) s).

Definition markMessageAsDeleted (e : Env) (messageId : uint256) (s : State)
  : Result State :=
  require (messageId <? messageCount s) "Message does not exist" ;;
  require ((Message.sender (messages s messageId) =? msg_sender e) ||
           (msg_sender e =? owner s))
    "Not authorized to delete this message" ;;
  require (negb (Message.isDeleted (messages s messageId)))
    "Message already deleted" ;;
  s <- _markMessageAsDeleted messageId s ;;
  Ok (emit (MessageDeleted messageId (msg_sender e)) s).

(** *** Query surface *)

(** The filter shared by [getLatestMessages] and [getMessagesWithPagination]:
    [message.replyToMessageId == 0 && !message.isDeleted]. *)
Definition isPublicActive (m : Message.t) : bool :=
  (Message.replyToMessageId m =? 0) && negb (Message.isDeleted m).

(** [result[i] = x] on a memory array; an index out of range panics. *)
Definition ARRAY_BOUNDS : N := 50.

Fixpoint replaceAt {A : Type} (l : list A) (i : nat) (x : A) : option (list A) :=
  match l, i with
  | [], _ => None
  | _ :: t, O => Some (x :: t)
  | h :: t, S j => option_map (cons h) (replaceAt t j x)
  end.

Definition store {A : Type} (l : list A) (i : uint256) (x : A)
  : Result (list A) :=
  match replaceAt l (N.to_nat i) x with
  | Some l' => Ok l'
  | None => Fail (Panic ARRAY_BOUNDS)
  end.

(** The loop of [getLatestMessages]; [ids] are the chronological ids from
    index [i] down to 0. *)
Fixpoint latestLoop (ids : list uint256) (resultCount resultIndex : uint256)
    (result : list Message.t) (s : State) : Result (list Message.t) :=
  match ids with
  | [] => Ok result
  | id :: rest =>
      if resultIndex <? resultCount then
        let message := messages s id in
        if isPublicActive message then
          result <- store result resultIndex message ;;
          resultIndex <- checked_add resultIndex 1 ;;
          latestLoop rest resultCount resultIndex result s
        else latestLoop rest resultCount resultIndex result s
      else Ok result
  end.

Definition getLatestMessages (count : uint256) (s : State)
  : Result (list Message.t) :=
  require (count <=? maxReturnCount s) "Too many messages requested" ;;
  let resultCount :=
    if count <? totalActiveMessages s then count
    else totalActiveMessages s in
  let result := repeat Message.zero (N.to_nat resultCount) in
  if resultCount =? 0 then Ok result
  else latestLoop (rev (chronologicalMessageIds s)) resultCount 0 result s.

(** The loop of [getMessagesWithPagination]. *)
Fixpoint pageLoop (ids : list uint256)
    (startIndex resultSize activeCount resultIndex : uint256)
    (result : list Message.t) (s : State) : Result (list Message.t) :=
  match ids with
  | [] => Ok result
  | id :: rest =>
      if resultIndex <? resultSize then
        let message := messages s id in
        r <- (if isPublicActive message then
                r <- (if startIndex <=? activeCount
                      then result <- store result resultIndex message ;;
                           resultIndex <- checked_add resultIndex 1 ;;
                           Ok (result, resultIndex)
                      else Ok (result, resultIndex)) ;;
                activeCount <- checked_add activeCount 1 ;;
                Ok (r, activeCount)
              else Ok ((result, resultIndex), activeCount)) ;;
        let '((result, resultIndex), activeCount) := r in
        limit <- checked_add startIndex resultSize ;;
        if limit <=? activeCount then Ok result
        else pageLoop rest startIndex resultSize activeCount resultIndex
               result s
      else Ok result
  end.

Definition getMessagesWithPagination (page pageSize : uint256) (s : State)
  : Result (list Message.t) :=
  require (0 <? pageSize) "Page size must be greater than 0" ;;
  require (pageSize <=? maxReturnCount s) "Page size too large" ;;
  startIndex <- checked_mul page pageSize ;;
  if totalActiveMessages s <=? startIndex then Ok []
  else
    upper <- checked_add startIndex pageSize ;;
    resultSize <- (if totalActiveMessages s <? upper
                   then checked_sub (totalActiveMessages s) startIndex
                   else Ok pageSize) ;;
    pageLoop (rev (chronologicalMessageIds s)) startIndex resultSize 0 0
      (repeat Message.zero (N.to_nat resultSize)) s.

(** The loop shared in shape by [getRepliesForMessage], [getMessagesByPeriod]
    and [getMessagesBySender]. *)
Fixpoint activeLoop (ids : list uint256) (activeCount resultIndex : uint256)
    (result : list Message.t) (s : State) : Result (list Message.t) :=
  match ids with
  | [] => Ok result
  | id :: rest =>
      if resultIndex <? activeCount then
        if negb (Message.isDeleted (messages s id)) then
          result <- store result resultIndex (messages s id) ;;
          resultIndex <- checked_add resultIndex 1 ;;
          activeLoop rest activeCount resultIndex result s
        else activeLoop rest activeCount resultIndex result s
      else Ok result
  end.

Definition getRepliesForMessage (messageId : uint256) (s : State)
  : Result (list Message.t) :=
  require (messageId <? messageCount s) "Message does not exist" ;;
  let replies := messageReplies s messageId in
  let activeReplies := activeReplyCount s messageId in
  let result := repeat Message.zero (N.to_nat activeReplies) in
  if activeReplies =? 0 then Ok result
  else activeLoop replies activeReplies 0 result s.

Definition getAddressByNickname (nickname : string) (s : State) : address :=
  nicknameToAddress s nickname.

Definition getTotalActiveMessages (s : State) : uint256 :=
  totalActiveMessages s.

Definition getMessagesByPeriod (period : uint256) (s : State)
  : Result (list Message.t) :=
  require (periodExists s period) "Period does not exist" ;;
  let periodMessageIds := messageIdsByPeriod s period in
  let activeCount := activeMessageCountByPeriod s period in
  let result := repeat Message.zero (N.to_nat activeCount) in
  if activeCount =? 0 then Ok result
  else activeLoop periodMessageIds activeCount 0 result s.

Definition getMessagesBySender (sender : address) (s : State)
  : Result (list Message.t) :=
  let messageIds := senderToMessageIds s sender in
  let activeCount := activeSenderMessageCount s sender in
  let result := repeat Message.zero (N.to_nat activeCount) in
  if activeCount =? 0 then Ok result
  else activeLoop messageIds activeCount 0 result s.

Definition getUserProfile (user : address) (s : State)
  : string * string * bool :=
  let profile := addressToProfile s user in
  (UserProfile.nickname profile, UserProfile.avatarCode profile,
   UserProfile.isActive profile).

Definition getMessageCount (s : State) : uint256 := messageCount s.

Definition getAvailablePeriods (s : State) : list uint256 := periods s.

Definition getOwner (s : State) : address := owner s.

Definition getParameters (s : State)
  : uint256 * uint256 * uint256 * uint256 :=
  (maxMessageLength s, messageCooldown s, maxReturnCount s,
   maxActiveMessages s).

Definition getOriginalMessage (replyMessageId : uint256) (s : State)
  : Result Message.t :=
  require (replyMessageId <? messageCount s) "Message does not exist" ;;
  let replyMessage := messages s replyMessageId in
  require (0 <? Message.replyToMessageId replyMessage) "Not a reply message" ;;
  Ok (messages s (Message.replyToMessageId replyMessage)).

(** ** Transactions *)

Inductive Op : Type :=
| UpdateProfile (nickname avatarCode : string)
| UpdateAvatar (avatarCode : string)
| DeactivateProfile
| PostMessage (content : string)
| ReplyToMessage (replyToMessageId : uint256) (content : string)
| MarkMessageAsDeleted (messageId : uint256)
| UpdateParameters (newMaxMessageLength newMessageCooldown newMaxReturnCount
    newMaxActiveMessages : uint256)
| TransferOwnership (newOwner : address).

Definition step (e : Env) (op : Op) (s : State) : Result State :=
  match op with
  | UpdateProfile nickname avatarCode => updateProfile e nickname avatarCode s
  | UpdateAvatar avatarCode => updateAvatar e avatarCode s
  | DeactivateProfile => deactivateProfile e s
  | PostMessage content => postMessage e content s
  | ReplyToMessage replyToMessageId content =>
      replyToMessage e replyToMessageId content s
  | MarkMessageAsDeleted messageId => markMessageAsDeleted e messageId s
  | UpdateParameters a b c d => updateParameters e a b c d s
  | TransferOwnership newOwner => transferOwnership e newOwner s
  end.

(** A reverted call leaves the storage as it was. *)
Definition exec (e : Env) (op : Op) (s : State) : State :=
  match step e op s with
  | Ok s' => s'
  | Fail _ => s
  end.


Inductive reachable : State -> Prop :=
| reachable_init : forall e, reachable (constructor e)
| reachable_step : forall s e op s',
    reachable s -> step e op s = Ok s' -> reachable s'.

Inductive steps : State -> State -> Prop :=
| steps_refl : forall s, steps s s
| steps_step : forall s e op s' s'',
    step e op s = Ok s' -> steps s' s'' -> steps s s''.


(** * Specification vocabulary *)

(** What [_markMessageAsDeleted] commits on a live record. *)
Definition markedState (messageId : uint256) (s : State) : State :=
  let m := messages s messageId in
  let period := messageId / PERIOD_SIZE in
  let parent := Message.replyToMessageId m in
  let s1 := set_messages (upd (messages s) messageId (Message.markDeleted m)) s in
  let s2 :=
    if periodExists s period
    then set_activeMessageCountByPeriod
           (upd (activeMessageCountByPeriod s) period
                (activeMessageCountByPeriod s period - 1)) s1
    else s1 in
  let s3 :=
    set_activeSenderMessageCount
      (upd (activeSenderMessageCount s) (Message.sender m)
           (activeSenderMessageCount s (Message.sender m) - 1)) s2 in
  let s4 :=
    if negb (parent =? 0)
    then set_activeReplyCount
           (upd (activeReplyCount s) parent (activeReplyCount s parent - 1)) s3
    else s3 in
  set_totalActiveMessages (totalActiveMessages s - 1) s4.


Definition canMark (messageId : uint256) (s : State) : Prop :=
  let m := messages s messageId in
  (periodExists s (messageId / PERIOD_SIZE) = true ->
     1 <= activeMessageCountByPeriod s (messageId / PERIOD_SIZE)) /\
  1 <= activeSenderMessageCount s (Message.sender m) /\
  (Message.replyToMessageId m <> 0 ->
     1 <= activeReplyCount s (Message.replyToMessageId m)) /\
  1 <= totalActiveMessages s.


Definition repliesUntouched (s s' : State) : Prop :=
  activeReplyCount s' = activeReplyCount s /\
  forall id, Message.replyToMessageId (messages s id) <> 0 ->
             messages s' id = messages s id.


(** ** The create operations in factored form *)

(** The capacity check that opens the body of both create operations. *)
Definition makeRoom (s : State) : Result State :=
  if maxActiveMessages s <=? totalActiveMessages s
  then r <- deleteOldestMessages 1 s ;; Ok (snd r)
  else Ok s.

(** The checks both create operations start with, in source order. *)
Definition createChecks (e : Env) (content : string) (s : State)
  : Result unit :=
  require (0 <? strlen content) "Message cannot be empty" ;;
  require (strlen content <=? maxMessageLength s) "Message too long" ;;
  elapsed <- checked_sub (block_timestamp e) (lastMessageTime s (msg_sender e)) ;;
  require (messageCooldown s <=? elapsed) "Please wait before posting again" ;;
  require (0 <? strlen (UserProfile.nickname (addressToProfile s (msg_sender e))))
    "Create a profile first" ;;
  require (UserProfile.isActive (addressToProfile s (msg_sender e)))
    "Profile is deactivated".

(** The record a create operation stores. *)
Definition newMessage (e : Env) (parent : uint256) (content : string)
    (s : State) : Message.t :=
  Message.mk (msg_sender e) content (block_timestamp e)
    (UserProfile.nickname (addressToProfile s (msg_sender e))) parent false.

Definition parentOf (reply : option uint256) : uint256 :=
  match reply with Some p => p | None => 0 end.

(** What a create operation commits once room has been made: [reply] is
    [None] for [postMessage] and [Some replyToMessageId] for
    [replyToMessage]. *)
Definition appendMessage (e : Env) (reply : option uint256) (content : string)
    (s : State) : State :=
  let messageId := messageCount s in
  let period := messageId / PERIOD_SIZE in
  {| maxMessageLength := maxMessageLength s;
     messageCooldown := messageCooldown s;
     maxReturnCount := maxReturnCount s;
     maxActiveMessages := maxActiveMessages s;
     owner := owner s;
     messages :=
       upd (messages s) messageId (newMessage e (parentOf reply) content s);
     messageCount := messageCount s + 1;
     messageIdsByPeriod :=
       upd (messageIdsByPeriod s) period
           (messageIdsByPeriod s period ++ [messageId]);
     activeMessageCountByPeriod :=
       upd (activeMessageCountByPeriod s) period
           (activeMessageCountByPeriod s period + 1);
     periods :=
       if periodExists s period then periods s else periods s ++ [period];
     periodExists :=
       if periodExists s period then periodExists s
       else upd (periodExists s) period true;
     senderToMessageIds :=
       upd (senderToMessageIds s) (msg_sender e)
           (senderToMessageIds s (msg_sender e) ++ [messageId]);
     activeSenderMessageCount :=
       upd (activeSenderMessageCount s) (msg_sender e)
           (activeSenderMessageCount s (msg_sender e) + 1);
     messageReplies :=
       match reply with
       | Some q => upd (messageReplies s) q (messageReplies s q ++ [messageId])
       | None => messageReplies s
       end;
     activeReplyCount :=
       match reply with
       | Some q => upd (activeReplyCount s) q (activeReplyCount s q + 1)
       | None => activeReplyCount s
       end;
     nicknameToAddress := nicknameToAddress s;
     addressToProfile := addressToProfile s;
     lastMessageTime :=
       upd (lastMessageTime s) (msg_sender e) (block_timestamp e);
     totalActiveMessages := totalActiveMessages s + 1;
     chronologicalMessageIds := chronologicalMessageIds s ++ [messageId];
     messageIdToChronologicalIndex :=
       upd (messageIdToChronologicalIndex s) messageId
           (N.of_nat (List.length (chronologicalMessageIds s ++ [messageId])) - 1);
     emitted :=
       emitted s ++
       [match reply with
        | Some q => ReplyMessageSent messageId (msg_sender e) q (block_timestamp e)
        | None => MessageSent messageId (msg_sender e) content (block_timestamp e)
        end] |}.

(** The checked increments of a create operation all fit. *)
Definition canAppend (e : Env) (reply : option uint256) (s : State) : Prop :=
  messageCount s + 1 <= MAX_UINT256 /\
  activeMessageCountByPeriod s (messageCount s / PERIOD_SIZE) + 1
    <= MAX_UINT256 /\
  activeSenderMessageCount s (msg_sender e) + 1 <= MAX_UINT256 /\
  (forall q, reply = Some q -> activeReplyCount s q + 1 <= MAX_UINT256) /\
  totalActiveMessages s + 1 <= MAX_UINT256.


(** ** Record stability *)

(** Everything of a record but its [isDeleted] flag. *)
Definition sameFields (m m' : Message.t) : Prop :=
  Message.sender m' = Message.sender m /\
  Message.content m' = Message.content m /\
  Message.timestamp m' = Message.timestamp m /\
  Message.nickname m' = Message.nickname m /\
  Message.replyToMessageId m' = Message.replyToMessageId m.

Definition tombstone (m m' : Message.t) : Prop :=
  sameFields m m' /\
  (Message.isDeleted m = true -> Message.isDeleted m' = true).

(** The effect of soft-deletes: no id is allocated, no index grows, records
    only gain tombstones. *)
Definition tombstoneOnly (s s' : State) : Prop :=
  messageCount s' = messageCount s /\
  chronologicalMessageIds s' = chronologicalMessageIds s /\
  messageReplies s' = messageReplies s /\
  maxActiveMessages s' = maxActiveMessages s /\
  forall id, tombstone (messages s id) (messages s' id).

(** The effect of any transaction on the records that exist before it. *)
Definition recordsStable (s s' : State) : Prop :=
  messageCount s <= messageCount s' /\
  forall id, id < messageCount s -> tombstone (messages s id) (messages s' id).

(** The message store: every state variable but the configuration, the
    owner, the profile directory, the cooldown clock and the event log. *)
Definition storeOf (s : State) :=
  (messages s, messageCount s, messageIdsByPeriod s,
   activeMessageCountByPeriod s, periods s, periodExists s,
   senderToMessageIds s, activeSenderMessageCount s, messageReplies s,
   activeReplyCount s, totalActiveMessages s, chronologicalMessageIds s,
   messageIdToChronologicalIndex s).

(** Transactions that never touch the message store. *)
Definition isProfileOp (op : Op) : bool :=
  match op with
  | UpdateProfile _ _ | UpdateAvatar _ | DeactivateProfile
  | TransferOwnership _ => true
  | _ => false
  end.

(** The state [updateParameters] reaches before it looks at the capacity. *)
Definition configured (newMaxMessageLength newMessageCooldown
    newMaxReturnCount newMaxActiveMessages : uint256) (s : State) : State :=
  emit (ParameterUpdated "maxActiveMessages" newMaxActiveMessages)
    (set_maxActiveMessages newMaxActiveMessages
       (emit (ParameterUpdated "maxReturnCount" newMaxReturnCount)
          (set_maxReturnCount newMaxReturnCount
             (emit (ParameterUpdated "messageCooldown" newMessageCooldown)
                (set_messageCooldown newMessageCooldown
                   (emit (ParameterUpdated "maxMessageLength"
                            newMaxMessageLength)
                      (set_maxMessageLength newMaxMessageLength s))))))).

(** ** The store invariant *)

Definition live (s : State) (id : uint256) : bool :=
  negb (Message.isDeleted (messages s id)).

(** Number of non-deleted ids in an index. *)
Definition countLive (s : State) (ids : list uint256) : N :=
  N.of_nat (List.length (filter (live s) ids)).

(** The ids [0, 1, ..., n - 1]. *)
Definition iota (n : N) : list N := map N.of_nat (seq 0 (N.to_nat n)).

Definition inPeriod (p id : uint256) : bool := id / PERIOD_SIZE =? p.

Definition sentBy (s : State) (a : address) (id : uint256) : bool :=
  Message.sender (messages s id) =? a.

Definition repliesTo (s : State) (q id : uint256) : bool :=
  Message.replyToMessageId (messages s id) =? q.

(** What every reachable state satisfies.  The four indexes are the
    chronological index filtered by period, by sender and by parent; every
    counter but [activeReplyCount 0] is the number of live ids of its index. *)
Record Inv (s : State) : Prop := mkInv {
  inv_count_pos : 1 <= messageCount s;
  inv_count_max : messageCount s <= MAX_UINT256;
  inv_chron : chronologicalMessageIds s = iota (messageCount s);
  inv_index : forall id, id < messageCount s ->
    messageIdToChronologicalIndex s id = id;
  inv_dummy : Message.isDeleted (messages s 0) = true;
  inv_total :
    totalActiveMessages s = countLive s (chronologicalMessageIds s);
  inv_period_idx : forall p,
    messageIdsByPeriod s p = filter (inPeriod p) (chronologicalMessageIds s);
  inv_period_cnt : forall p,
    activeMessageCountByPeriod s p = countLive s (messageIdsByPeriod s p);
  inv_period_ex : forall id, id < messageCount s ->
    periodExists s (id / PERIOD_SIZE) = true;
  inv_sender_idx : forall a,
    senderToMessageIds s a =
    filter (sentBy s a) (skipn 1 (chronologicalMessageIds s));
  inv_sender_cnt : forall a,
    activeSenderMessageCount s a = countLive s (senderToMessageIds s a);
  inv_reply_idx : forall q, q <> 0 ->
    messageReplies s q =
    filter (repliesTo s q) (skipn 1 (chronologicalMessageIds s));
  inv_reply_cnt : forall q, q <> 0 ->
    activeReplyCount s q = countLive s (messageReplies s q);
  inv_reply_zero : activeReplyCount s 0 < messageCount s
}.

(** ** Eviction order *)

(** [id] is the first id of the chronological index that passes the eviction
    test in state [s]. *)
Definition oldestEvictable (s : State) (id : uint256) : Prop :=
  exists before after,
    chronologicalMessageIds s = before ++ id :: after /\
    Forall (fun j => evictable s j = false) before /\
    evictable s id = true.

Definition evictedIds (tr : list Eviction) : list uint256 := map ev_id tr.

(** What a run of the eviction loop over [ids] adds to the trace [tr]:
    evictions of the oldest evictable record each, in the order of [ids], and
    these are exactly the records that became deleted. *)
Definition traceSpec (s s' : State) (tr tr' : list Eviction)
    (ids : list uint256) : Prop :=
  exists new,
    tr' = tr ++ new /\
    Forall (fun ev => oldestEvictable (ev_before ev) (ev_id ev)) new /\
    incl (evictedIds new) ids /\
    (StronglySorted N.lt ids -> StronglySorted N.lt (evictedIds new)) /\
    (forall x, Message.isDeleted (messages s' x) =
               (Message.isDeleted (messages s x) ||
                existsb (N.eqb x) (evictedIds new))%bool).

(** ** Capacity *)

Definition isCreate (op : Op) : bool :=
  match op with
  | PostMessage _ | ReplyToMessage _ _ => true
  | _ => false
  end.

(** Some record passes the eviction test. *)
Definition hasEvictable (s : State) : bool :=
  existsb (evictable s) (chronologicalMessageIds s).


(** ** Profiles *)

(** The checks of [updateProfile] on the handle itself. *)
Definition validNickname (h : string) : bool :=
  (0 <? strlen h) && (strlen h <=? 32) && _validateNickname h.

(** [a] has an active profile under the handle [h], and the directory entry
    of [h] points to [a]. *)
Definition holdsHandle (s : State) (h : string) (a : address) : Prop :=
  UserProfile.isActive (addressToProfile s a) = true /\
  UserProfile.nickname (addressToProfile s a) = h /\
  nicknameToAddress s h = a.

(** The directory after [a] let go of the handle [h]. *)
Definition released (a : address) (h : string) (dir : string -> address)
  : string -> address :=
  if dir h =? a then upd dir h 0 else dir.

Record ProfInv (s : State) : Prop := mkProfInv {
  pi_named : forall a,
    UserProfile.isActive (addressToProfile s a) = true ->
    UserProfile.nickname (addressToProfile s a) <> "";
  pi_valid : forall a,
    UserProfile.nickname (addressToProfile s a) <> "" ->
    validNickname (UserProfile.nickname (addressToProfile s a)) = true;
  pi_directory : forall a, a <> 0 ->
    UserProfile.isActive (addressToProfile s a) = true ->
    nicknameToAddress s (UserProfile.nickname (addressToProfile s a)) = a
}.

(** The profile directory and the configuration, which no operation on
    messages touches. *)
Definition profilesOf (s : State) :=
  (addressToProfile s, nicknameToAddress s, maxReturnCount s,
   maxMessageLength s, messageCooldown s).

(** The transactions by which a holder gives the handle [h] up. *)
Definition releases (h : string) (op : Op) : bool :=
  match op with
  | DeactivateProfile => true
  | UpdateProfile h' _ => negb (String.eqb h' h)
  | _ => false
  end.

(** ** Preconditions of the create operations *)

Inductive Precondition : Type :=
| ParentExists
| BodyNonEmpty
| BodyWithinLimit
| CooldownElapsed
| ProfileExists
| ProfileActive.

(** A create operation: [None] is [postMessage], [Some q] is
    [replyToMessage q]. *)
Definition createOp (reply : option uint256) (body : string) : Op :=
  match reply with
  | Some q => ReplyToMessage q body
  | None => PostMessage body
  end.

Definition holds (e : Env) (s : State) (reply : option uint256) (body : string)
    (c : Precondition) : bool :=
  match c with
  | ParentExists =>
      match reply with Some q => q <? messageCount s | None => true end
  | BodyNonEmpty => 0 <? strlen body
  | BodyWithinLimit => strlen body <=? maxMessageLength s
  | CooldownElapsed =>
      messageCooldown s <=?
      block_timestamp e - lastMessageTime s (msg_sender e)
  | ProfileExists =>
      0 <? strlen (UserProfile.nickname (addressToProfile s (msg_sender e)))
  | ProfileActive => UserProfile.isActive (addressToProfile s (msg_sender e))
  end.

(** The message the contract reverts with when the precondition fails. *)
Definition reasonOf (c : Precondition) : string :=
  match c with
  | ParentExists => "Original message does not exist"
  | BodyNonEmpty => "Message cannot be empty"
  | BodyWithinLimit => "Message too long"
  | CooldownElapsed => "Please wait before posting again"
  | ProfileExists => "Create a profile first"
  | ProfileActive => "Profile is deactivated"
  end.

(** The order in which the source checks. *)
Definition sourceOrder : list Precondition :=
  [ParentExists; BodyNonEmpty; BodyWithinLimit; CooldownElapsed;
   ProfileExists; ProfileActive].

(** The order the specification describes: profile, body, cooldown, parent. *)
Definition specOrder : list Precondition :=
  [ProfileExists; ProfileActive; BodyNonEmpty; BodyWithinLimit;
   CooldownElapsed; ParentExists].

Definition firstViolated (order : list Precondition) (e : Env) (s : State)
    (reply : option uint256) (body : string) : option Precondition :=
  find (fun c => negb (holds e s reply body c)) order.

(** ** Scenarios *)

(** The deployer (and owner), and two users at successive block times, one
    cooldown apart. *)
Definition deployer : Env := mkEnv 1 1000.
Definition alice (t : uint256) : Env := mkEnv 10 t.
Definition bob (t : uint256) : Env := mkEnv 20 t.

(** The state after a list of transactions on a fresh contract. *)
Definition after (txs : list (Env * Op)) : State :=
  fold_left (fun s tx => exec (fst tx) (snd tx) s) txs (constructor deployer).

(** Alice has claimed her handle. *)
Definition joined : State := after [(alice 2000, UpdateProfile "alice" "a1")].

(** A thread: one post of Alice (id 1) and one reply to it by Bob (id 2). *)
Definition thread : State :=
  after [(alice 2000, UpdateProfile "alice" "a1");
         (bob 2000, UpdateProfile "bob" "b1");
         (alice 2100, PostMessage "hello");
         (bob 2100, ReplyToMessage 1 "hi")].

(** Three posts (ids 1, 3, 4) and a reply (id 2). *)
Definition board : State :=
  after [(alice 2000, UpdateProfile "alice" "a1");
         (bob 2000, UpdateProfile "bob" "b1");
         (alice 2100, PostMessage "one");
         (bob 2100, ReplyToMessage 1 "re: one");
         (alice 2200, PostMessage "two");
         (bob 2200, PostMessage "three")].

(** What evicting two records from [board] returns. *)
Definition boardEvicted : list Eviction * State :=
  match deleteOldestMessages 2 board with
  | Ok r => r
  | Fail _ => ([], board)
  end.

(** [board] with the parameters of a capacity cut to 1 written, as
    [updateParameters] has it when it calls the eviction, and what the
    eviction of the excess of three records returns there. *)
Definition boardConfigured : State := configured 768 60 50 1 board.

Definition boardTrimmed : list Eviction * State :=
  match deleteOldestMessages 3 boardConfigured with
  | Ok r => r
  | Fail _ => ([], boardConfigured)
  end.

(** Alice replies to the dummy message 0 and then deletes her reply. *)
Definition dummyReplyDeleted : State :=
  after [(alice 2000, UpdateProfile "alice" "a1");
         (alice 2100, ReplyToMessage 0 "x");
         (alice 2100, MarkMessageAsDeleted 1)].

(** Capacity one, no cooldown, and one post of Alice: the store is full. *)
Definition full : State :=
  after [(deployer, UpdateParameters 768 0 50 1);
         (alice 2000, UpdateProfile "alice" "a1");
         (alice 2100, PostMessage "a")].



(** One more post on the full store. *)
Definition fullThenPost : State := exec (alice 2200) (PostMessage "b") full.

(** Alice deletes her post in [thread]. *)
Definition threadDeleted : State :=
  exec (alice 2200) (MarkMessageAsDeleted 1) thread.

(** Alice deactivates, then Bob claims her handle. *)
Definition aliceGone : State := exec (alice 2100) DeactivateProfile joined.

(** * Further properties of the contract *)

(** ** Results of the query loops *)

(** The first [k] of the records found, followed by blank records up to the
    length [k]: what a query loop leaves in a result array of [k] slots. *)
Definition padded (k : nat) (found : list Message.t) : list Message.t :=
  firstn k found ++ repeat Message.zero (k - List.length found).

(** The live records of an index, in the order of the index. *)
Definition liveRecords (s : State) (ids : list uint256) : list Message.t :=
  map (messages s) (filter (live s) ids).

(** The feed: the live main messages, newest first. *)
Definition feed (s : State) : list Message.t :=
  map (messages s)
      (filter (fun id => isPublicActive (messages s id))
              (rev (chronologicalMessageIds s))).

(** ** More of what reachable states satisfy *)

(** The last period that holds a record. *)
Definition lastPeriod (s : State) : uint256 :=
  (messageCount s - 1) / PERIOD_SIZE.

Record StoreInv (s : State) : Prop := mkStoreInv {
  si_periods : periods s = iota (lastPeriod s + 1);
  si_periodExists : forall p, periodExists s p = (p <=? lastPeriod s);
  si_parent : forall id, 0 < id -> id < messageCount s ->
    Message.replyToMessageId (messages s id) < id;
  si_blank : forall id, messageCount s <= id -> messages s id = Message.zero
}.

(** The ids of the records users created, in creation order: all ids but
    that of the dummy message. *)
Definition userIds (s : State) : list uint256 :=
  skipn 1 (iota (messageCount s)).

(** The owner and the four parameters. *)
Definition configOf (s : State) := (getOwner s, getParameters s).

(** The ids the eviction loop of [deleteOldestMessages] would take from
    state [s], oldest first: the non-deleted posts. *)
Definition evictableIds (s : State) : list uint256 :=
  filter (evictable s) (userIds s).

(** The [k] oldest non-deleted posts of [s], or all of them when there are
    fewer. *)
Definition oldestPosts (k : N) (s : State) : list uint256 :=
  firstn (N.to_nat k) (evictableIds s).

(** ** Further scenarios *)

(** Alice's first post, and the state it leads to. *)
Definition firstPost : State := exec (alice 2100) (PostMessage "hello") joined.

(** Alice replies once more in [thread]. *)
Definition threadReplied : State :=
  exec (alice 2200) (ReplyToMessage 1 "again") thread.

(** * Verification *)

(** ** Inversion of the error monad *)

Lemma bind_ok {A B : Type} (r : Result A) (k : A -> Result B) (b : B) :
  bind r k = Ok b -> exists a, r = Ok a /\ k a = Ok b.
Proof. destruct r as [a|f]; cbn; intros H; [eauto | discriminate]. Qed.

Lemma require_ok (c : bool) (m : string) (u : unit) :
  require c m = Ok u -> c = true.
Proof. destruct c; cbn; [reflexivity | discriminate]. Qed.

Lemma checked_add_ok (a b c : N) :
  checked_add a b = Ok c -> c = a + b /\ a + b <= MAX_UINT256.
Proof.
  unfold checked_add. destruct (N.leb_spec (a + b) MAX_UINT256) as [L|L];
    intros E; inversion E; auto.
Qed.

Lemma checked_sub_ok (a b c : N) :
  checked_sub a b = Ok c -> c = a - b /\ b <= a.
Proof.
  unfold checked_sub. destruct (N.leb_spec b a) as [L|L];
    intros E; inversion E; auto.
Qed.

Lemma checked_add_fits (a b : N) :
  a + b <= MAX_UINT256 -> checked_add a b = Ok (a + b).
Proof.
  intros H. unfold checked_add. destruct (N.leb_spec (a + b) MAX_UINT256);
    [reflexivity | lia].
Qed.

Lemma checked_sub_fits (a b : N) : b <= a -> checked_sub a b = Ok (a - b).
Proof.
  intros H. unfold checked_sub. destruct (N.leb_spec b a); [reflexivity | lia].
Qed.

(** Takes a hypothesis [_ = Ok _] about monadic code apart. *)
Ltac ok_inv :=
  repeat match goal with
  | H : Ok _ = Ok _ |- _ => inversion H; subst; clear H
  | H : Fail _ = Ok _ |- _ => discriminate H
  | H : require _ _ = Ok _ |- _ => apply require_ok in H
  | H : checked_add _ _ = Ok _ |- _ =>
      let B := fresh "Hbound" in
      apply checked_add_ok in H; destruct H as [-> B]
  | H : checked_sub _ _ = Ok _ |- _ =>
      let B := fresh "Hbound" in
      apply checked_sub_ok in H; destruct H as [-> B]
  | H : bind _ _ = Ok _ |- _ =>
      let a := fresh "a" in let E := fresh "E" in
      apply bind_ok in H; destruct H as (a & E & H)
  | H : (if ?c then _ else _) = Ok _ |- _ =>
      let C := fresh "C" in destruct c eqn:C
  | H : (let '(_, _) := ?p in _) = Ok _ |- _ => destruct p
  end.

(** Turns boolean tests of the code into propositions. *)
Ltac b2p :=
  repeat match goal with
  | H : negb _ = true |- _ => apply negb_true_iff in H
  | H : negb _ = false |- _ => apply negb_false_iff in H
  | H : (_ && _)%bool = true |- _ => apply andb_true_iff in H; destruct H
  | H : (_ || _)%bool = false |- _ => apply orb_false_iff in H; destruct H
  | H : (_ =? _) = true |- _ => apply N.eqb_eq in H
  | H : (_ =? _) = false |- _ => apply N.eqb_neq in H
  | H : (_ <? _) = true |- _ => apply N.ltb_lt in H
  | H : (_ <? _) = false |- _ => apply N.ltb_ge in H
  | H : (_ <=? _) = true |- _ => apply N.leb_le in H
  | H : (_ <=? _) = false |- _ => apply N.leb_gt in H
  end.

Lemma upd_same {K V : Type} `{Key K} (m : K -> V) k v : upd m k v k = v.
Proof. unfold upd. destruct (keyb_spec k k); congruence. Qed.

Lemma upd_other {K V : Type} `{Key K} (m : K -> V) k v k' :
  k' <> k -> upd m k v k' = m k'.
Proof. unfold upd. destruct (keyb_spec k' k); congruence. Qed.

(** ** The soft-delete as a state transformer *)

Lemma mark_deleted_noop messageId s :
  Message.isDeleted (messages s messageId) = true ->
  _markMessageAsDeleted messageId s = Ok s.
Proof. intros H. unfold _markMessageAsDeleted. rewrite H. reflexivity. Qed.


Lemma mark_live_inv messageId s s' :
  Message.isDeleted (messages s messageId) = false ->
  _markMessageAsDeleted messageId s = Ok s' ->
  canMark messageId s /\ s' = markedState messageId s.
Proof.
  intros Hlive H. unfold _markMessageAsDeleted in H. rewrite Hlive in H.
  cbn in H. rewrite ?upd_same in H. cbn in H.
  unfold canMark, markedState.
  ok_inv; cbn in *; rewrite ?upd_same in *; cbn in *; rewrite ?C, ?C0; b2p.
  all: (split; [repeat split; intros; try lia; try congruence | try reflexivity]).
Qed.

Ltac norm := cbn; rewrite ?upd_same; cbn.

Lemma mark_live_ok messageId s :
  Message.isDeleted (messages s messageId) = false ->
  canMark messageId s ->
  _markMessageAsDeleted messageId s = Ok (markedState messageId s).
Proof.
  intros Hlive (Hp & Hs & Hr & Ht). unfold _markMessageAsDeleted.
  rewrite Hlive. norm. unfold markedState.
  destruct (periodExists s (messageId / PERIOD_SIZE)) eqn:Ep; norm.
  - rewrite (checked_sub_fits _ _ (Hp eq_refl)). norm.
    rewrite (checked_sub_fits _ _ Hs). norm.
    destruct (N.eqb_spec (Message.replyToMessageId (messages s messageId)) 0)
      as [Er|Er]; norm.
    + rewrite (checked_sub_fits _ _ Ht). reflexivity.
    + rewrite (checked_sub_fits _ _ (Hr Er)). norm.
      rewrite (checked_sub_fits _ _ Ht). reflexivity.
  - rewrite (checked_sub_fits _ _ Hs). norm.
    destruct (N.eqb_spec (Message.replyToMessageId (messages s messageId)) 0)
      as [Er|Er]; norm.
    + rewrite (checked_sub_fits _ _ Ht). reflexivity.
    + rewrite (checked_sub_fits _ _ (Hr Er)). norm.
      rewrite (checked_sub_fits _ _ Ht). reflexivity.
Qed.

(** ** The eviction loop *)

(** Whatever relation every single eviction establishes, and which is
    reflexive and transitive, the loop establishes; [I] restricts the ids the
    loop may visit. *)
Section LoopRelation.
Variable R : State -> State -> Prop.
Variable I : uint256 -> Prop.
Hypothesis R_refl : forall s, R s s.
Hypothesis R_trans : forall a b c, R a b -> R b c -> R a c.
Hypothesis R_mark : forall s messageId s',
  I messageId -> evictable s messageId = true ->
  _markMessageAsDeleted messageId s = Ok s' -> R s s'.

Lemma deleteLoop_rel ids : Forall I ids ->
  forall d m tr s d' tr' s',
    deleteLoop ids d m tr s = Ok (d', tr', s') -> R s s'.
Proof.
  induction 1 as [|messageId rest Hid Hrest IH]; intros d m tr s d' tr' s' H;
    cbn in H.
  - ok_inv. apply R_refl.
  - destruct (d <? m) eqn:Hd; [|ok_inv; apply R_refl].
    destruct (evictable s messageId) eqn:Hev; cbn in H.
    + ok_inv; cbn in *; ok_inv.
      * eapply R_mark; eauto.
      * eapply R_trans; [eapply R_mark; eauto | eapply IH; eauto].
    + destruct (m <=? d); [ok_inv; apply R_refl | eapply IH; eauto].
Qed.
End LoopRelation.

Lemma deleteOldestMessages_rel (R : State -> State -> Prop)
    (I : uint256 -> Prop) :
  (forall s, R s s) ->
  (forall a b c, R a b -> R b c -> R a c) ->
  (forall s ev, R s (emit ev s)) ->
  (forall s messageId s', I messageId -> evictable s messageId = true ->
     _markMessageAsDeleted messageId s = Ok s' -> R s s') ->
  forall count s tr s',
    Forall I (skipn 1 (chronologicalMessageIds s)) ->
    deleteOldestMessages count s = Ok (tr, s') -> R s s'.
Proof.
  intros Hrefl Htrans Hemit Hmark count s tr s' HI H.
  unfold deleteOldestMessages in H.
  destruct ((count =? 0) || (totalActiveMessages s =? 0))%bool;
    [ok_inv; apply Hrefl|].
  apply bind_ok in H. destruct H as ([[d tr0] s0] & E & H).
  assert (R s s0) by (eapply deleteLoop_rel; eauto).
  destruct (0 <? d); ok_inv; eauto.
Qed.

Lemma Forall_True {A : Type} (l : list A) : Forall (fun _ => True) l.
Proof. apply Forall_forall; auto. Qed.

Lemma evictable_inv s messageId :
  evictable s messageId = true ->
  Message.isDeleted (messages s messageId) = false /\
  Message.replyToMessageId (messages s messageId) = 0.
Proof. unfold evictable. intros H. b2p. auto. Qed.

(** *** Frame of the eviction: replies *)

Lemma repliesUntouched_refl s : repliesUntouched s s.
Proof. split; auto. Qed.

Lemma repliesUntouched_trans a b c :
  repliesUntouched a b -> repliesUntouched b c -> repliesUntouched a c.
Proof.
  intros [Hc1 Hm1] [Hc2 Hm2]. split; [congruence|].
  intros id Hid. rewrite Hm2, Hm1; auto. rewrite Hm1; auto.
Qed.

Lemma repliesUntouched_mark s messageId s' :
  evictable s messageId = true ->
  _markMessageAsDeleted messageId s = Ok s' -> repliesUntouched s s'.
Proof.
  intros Hev H. destruct (evictable_inv _ _ Hev) as [Hlive Htop].
  destruct (mark_live_inv _ _ _ Hlive H) as [_ ->].
  unfold markedState, repliesUntouched. rewrite Htop. cbn.
  destruct (periodExists s (messageId / PERIOD_SIZE)); cbn;
    (split; [reflexivity|]); intros id Hid; apply upd_other; congruence.
Qed.

(** C4. Running the eviction engine never changes the [isDeleted] flag of a
    record with [replyToMessageId <> 0] (such a record is left as it is), and
    never changes an entry of [activeReplyCount]. *)
Theorem eviction_spares_replies count s tr s' :
  deleteOldestMessages count s = Ok (tr, s') ->
  (forall id, Message.replyToMessageId (messages s id) <> 0 ->
     Message.isDeleted (messages s' id) = Message.isDeleted (messages s id) /\
     messages s' id = messages s id) /\
  (forall q, activeReplyCount s' q = activeReplyCount s q).
Proof.
  intros H.
  assert (HR : repliesUntouched s s').
  { eapply deleteOldestMessages_rel with (I := fun _ => True); eauto.
    - apply repliesUntouched_refl.
    - apply repliesUntouched_trans.
    - intros; split; reflexivity.
    - intros; eapply repliesUntouched_mark; eauto.
    - apply Forall_True. }
  destruct HR as [Hc Hm]. split.
  - intros id Hid. rewrite (Hm id Hid). auto.
  - intros q. rewrite Hc. reflexivity.
Qed.
(** Splits [H : bind r k = Ok _] without touching the body of [k]. *)
Ltac bind_inv H a E :=
  let H' := fresh in
  pose proof (bind_ok _ _ _ H) as H'; clear H;
  destruct H' as (a & E & H); cbv beta in H.

Lemma letin_ok {A B : Type} (v : A) (k : A -> B) (r : B) :
  letin v k = r -> k v = r.
Proof. exact (fun H => H). Qed.

(** Walks through a hypothesis [H : code = Ok _] one [var] or bind at a time,
    normalising each bound value before it is substituted. *)
Ltac unvar H :=
  repeat first
    [ lazymatch type of H with
      | letin ?v ?b = ?r =>
          let v' := eval cbn in v in
          change (letin v' b = r) in H;
          lazymatch v' with
          | (if ?c then _ else _) =>
              let C := fresh "C" in destruct c eqn:C
          | _ =>
              let H' := fresh in
              pose proof (@letin_ok _ _ v' b r H) as H'; clear H; rename H' into H;
              cbv beta in H
          end
      end
    | lazymatch type of H with
      | bind ?r ?k = Ok _ =>
          let a := fresh "a" in let E := fresh "E" in
          bind_inv H a E; cbn in E
      end ].

Lemma createChecks_intro e content s (x x0 x2 x3 x4 : unit) x1 :
  require (0 <? strlen content) "Message cannot be empty" = Ok x ->
  require (strlen content <=? maxMessageLength s) "Message too long" = Ok x0 ->
  checked_sub (block_timestamp e) (lastMessageTime s (msg_sender e)) = Ok x1 ->
  require (messageCooldown s <=? x1) "Please wait before posting again" = Ok x2 ->
  require (0 <? strlen (UserProfile.nickname (addressToProfile s (msg_sender e))))
    "Create a profile first" = Ok x3 ->
  require (UserProfile.isActive (addressToProfile s (msg_sender e)))
    "Profile is deactivated" = Ok x4 ->
  createChecks e content s = Ok tt.
Proof.
  intros H0 H1 H2 H3 H4 H5. unfold createChecks.
  rewrite H0, H1, H2; cbn. rewrite H3, H4; cbn.
  rewrite H5. destruct x4. reflexivity.
Qed.

Lemma postMessage_inv e content s s' :
  postMessage e content s = Ok s' ->
  createChecks e content s = Ok tt /\
  exists s1, makeRoom s = Ok s1 /\ canAppend e None s1 /\
             s' = appendMessage e None content s1.
Proof.
  intros H. cbv beta delta [postMessage] in H.
  do 6 (let a := fresh "u" in let E := fresh "Hc" in bind_inv H a E).
  split; [eapply createChecks_intro; eauto|].
  bind_inv H s1 Hroom.
  exists s1. split; [exact Hroom|].
  unvar H.
  all: b2p; ok_inv;
    (split;
     [ unfold canAppend; repeat split; try assumption; intros; discriminate
     | unfold appendMessage, newMessage; rewrite C; reflexivity ]).
Qed.

Lemma replyToMessage_inv e q content s s' :
  replyToMessage e q content s = Ok s' ->
  q < messageCount s /\
  createChecks e content s = Ok tt /\
  exists s1, makeRoom s = Ok s1 /\ canAppend e (Some q) s1 /\
             s' = appendMessage e (Some q) content s1.
Proof.
  intros H. cbv beta delta [replyToMessage] in H.
  let a := fresh "u" in bind_inv H a Hq.
  apply require_ok in Hq. apply N.ltb_lt in Hq. split; [exact Hq|].
  do 6 (let a := fresh "u" in let E := fresh "Hc" in bind_inv H a E).
  split; [eapply createChecks_intro; eauto|].
  bind_inv H s1 Hroom.
  exists s1. split; [exact Hroom|].
  unvar H.
  all: b2p; ok_inv;
    (split;
     [ unfold canAppend; repeat split; try assumption; intros ? [= <-];
       assumption
     | unfold appendMessage, newMessage; rewrite C; reflexivity ]).
Qed.

(** The converse direction: when every check passes the call commits. *)

Lemma bind_step {A B : Type} (r : Result A) (k : A -> Result B) a R :
  r = Ok a -> k a = R -> bind r k = R.
Proof. intros -> <-. reflexivity. Qed.

Lemma letin_step {A B : Type} (v : A) (k : A -> B) (R : B) :
  k v = R -> letin v k = R.
Proof. exact (fun H => H). Qed.

Lemma require_true (m : string) : require true m = Ok tt.
Proof. reflexivity. Qed.

Lemma createChecks_inv e content s :
  createChecks e content s = Ok tt ->
  (0 <? strlen content) = true /\
  (strlen content <=? maxMessageLength s) = true /\
  lastMessageTime s (msg_sender e) <= block_timestamp e /\
  (messageCooldown s <=?
     block_timestamp e - lastMessageTime s (msg_sender e)) = true /\
  (0 <? strlen (UserProfile.nickname (addressToProfile s (msg_sender e))))
    = true /\
  UserProfile.isActive (addressToProfile s (msg_sender e)) = true.
Proof.
  unfold createChecks. intros H. ok_inv. repeat split; assumption.
Qed.

(** Runs the code in the goal forward, given the facts that make each check
    pass. *)
Ltac forward :=
  repeat first
    [ lazymatch goal with
      | |- letin ?v ?b = ?R =>
          let v' := eval cbn in v in
          change (letin v' b = R);
          lazymatch v' with
          | (if ?c then _ else _) =>
              let C := fresh "C" in destruct c eqn:C
          | _ => apply letin_step; cbv beta
          end
      end
    | lazymatch goal with
      | |- bind ?r ?k = ?R =>
          let r' := eval cbn in r in
          change (bind r' k = R);
          eapply bind_step;
          [ first [ apply checked_add_fits; assumption
                  | apply checked_sub_fits; assumption
                  | match goal with
                    | E : ?c = true |- require ?c _ = _ =>
                        rewrite E; apply require_true
                    end
                  | eassumption ]
          | cbv beta ]
      end ].

Lemma postMessage_ok e content s s1 :
  createChecks e content s = Ok tt ->
  makeRoom s = Ok s1 ->
  canAppend e None s1 ->
  postMessage e content s = Ok (appendMessage e None content s1).
Proof.
  intros Hc Hroom (Hm & Hp & Hs & _ & Ht).
  apply createChecks_inv in Hc. destruct Hc as (C1 & C2 & C3 & C4 & C5 & C6).
  unfold makeRoom in Hroom.
  assert (Hlen : 1 <= N.of_nat (List.length
                   (chronologicalMessageIds s1 ++ [messageCount s1]))).
  { rewrite length_app. cbn. lia. }
  cbv beta delta [postMessage]. forward.
  all: b2p; unfold appendMessage, newMessage; rewrite C; reflexivity.
Qed.

Lemma replyToMessage_ok e q content s s1 :
  q < messageCount s ->
  createChecks e content s = Ok tt ->
  makeRoom s = Ok s1 ->
  canAppend e (Some q) s1 ->
  replyToMessage e q content s = Ok (appendMessage e (Some q) content s1).
Proof.
  intros Hq Hc Hroom (Hm & Hp & Hs & Hr & Ht).
  apply N.ltb_lt in Hq. specialize (Hr q eq_refl).
  apply createChecks_inv in Hc. destruct Hc as (C1 & C2 & C3 & C4 & C5 & C6).
  unfold makeRoom in Hroom.
  assert (Hlen : 1 <= N.of_nat (List.length
                   (chronologicalMessageIds s1 ++ [messageCount s1]))).
  { rewrite length_app. cbn. lia. }
  cbv beta delta [replyToMessage]. forward.
  all: b2p; unfold appendMessage, newMessage; rewrite C; reflexivity.
Qed.


(** ** Records are immutable up to the tombstone *)

Lemma tombstone_refl m : tombstone m m.
Proof. repeat split; auto. Qed.

Lemma tombstone_trans a b c : tombstone a b -> tombstone b c -> tombstone a c.
Proof.
  intros [(A1 & A2 & A3 & A4 & A5) Ad] [(B1 & B2 & B3 & B4 & B5) Bd].
  repeat split; try congruence. auto.
Qed.

Lemma tombstone_markDeleted m : tombstone m (Message.markDeleted m).
Proof. repeat split; auto. Qed.

Lemma tombstoneOnly_refl s : tombstoneOnly s s.
Proof. repeat split; auto. Qed.

Lemma tombstoneOnly_trans a b c :
  tombstoneOnly a b -> tombstoneOnly b c -> tombstoneOnly a c.
Proof.
  intros (A1 & A2 & A3 & A4 & A5) (B1 & B2 & B3 & B4 & B5).
  repeat split; try congruence; destruct (A5 id) as [F D];
    destruct (B5 id) as [(G1 & G2 & G3 & G4 & G5) E];
    destruct F as (F1 & F2 & F3 & F4 & F5); try congruence; auto.
Qed.

Lemma tombstoneOnly_emit s ev : tombstoneOnly s (emit ev s).
Proof. repeat split; auto. Qed.

Lemma markedState_messages messageId s id :
  messages (markedState messageId s) id =
  if id =? messageId then Message.markDeleted (messages s messageId)
  else messages s id.
Proof.
  unfold markedState.
  destruct (periodExists s (messageId / PERIOD_SIZE));
    destruct (negb (Message.replyToMessageId (messages s messageId) =? 0));
    reflexivity.
Qed.

Lemma tombstoneOnly_markedState messageId s :
  tombstoneOnly s (markedState messageId s).
Proof.
  unfold tombstoneOnly. split; [|split; [|split; [|split]]].
  1-4: unfold markedState;
    destruct (periodExists s (messageId / PERIOD_SIZE));
    destruct (negb (Message.replyToMessageId (messages s messageId) =? 0));
    reflexivity.
  intros id. rewrite markedState_messages.
  destruct (N.eqb_spec id messageId) as [->|_];
    [apply tombstone_markDeleted | apply tombstone_refl].
Qed.

Lemma tombstoneOnly_mark messageId s s' :
  _markMessageAsDeleted messageId s = Ok s' -> tombstoneOnly s s'.
Proof.
  intros H. destruct (Message.isDeleted (messages s messageId)) eqn:Hd.
  - rewrite (mark_deleted_noop _ _ Hd) in H. ok_inv. apply tombstoneOnly_refl.
  - destruct (mark_live_inv _ _ _ Hd H) as [_ ->].
    apply tombstoneOnly_markedState.
Qed.

Lemma tombstoneOnly_evict count s tr s' :
  deleteOldestMessages count s = Ok (tr, s') -> tombstoneOnly s s'.
Proof.
  intros H.
  eapply deleteOldestMessages_rel with (I := fun _ => True); eauto.
  - apply tombstoneOnly_refl.
  - apply tombstoneOnly_trans.
  - apply tombstoneOnly_emit.
  - intros; eapply tombstoneOnly_mark; eauto.
  - apply Forall_True.
Qed.

Lemma tombstoneOnly_makeRoom s s1 : makeRoom s = Ok s1 -> tombstoneOnly s s1.
Proof.
  unfold makeRoom. intros H.
  destruct (maxActiveMessages s <=? totalActiveMessages s).
  - ok_inv. destruct a as [tr s']. eapply tombstoneOnly_evict; eauto.
  - ok_inv. apply tombstoneOnly_refl.
Qed.

Lemma recordsStable_refl s : recordsStable s s.
Proof. split; [lia | intros; apply tombstone_refl]. Qed.

Lemma recordsStable_trans a b c :
  recordsStable a b -> recordsStable b c -> recordsStable a c.
Proof.
  intros [A1 A2] [B1 B2]. split; [lia|].
  intros id Hid. eapply tombstone_trans; [apply A2 | apply B2]; lia.
Qed.

Lemma tombstoneOnly_stable s s' : tombstoneOnly s s' -> recordsStable s s'.
Proof. intros (A1 & _ & _ & _ & A5). split; [lia | intros; apply A5]. Qed.

Lemma recordsStable_append e reply content s :
  recordsStable s (appendMessage e reply content s).
Proof.
  split; cbn; [lia|]. intros id Hid. rewrite upd_other by lia.
  apply tombstone_refl.
Qed.

Ltac split_ifs :=
  repeat match goal with
  | |- context [if ?c then _ else _] => destruct c
  end.

Lemma profileOp_store e op s s' :
  isProfileOp op = true -> step e op s = Ok s' -> storeOf s' = storeOf s.
Proof.
  destruct op; cbn [isProfileOp step]; try discriminate; intros _ H.
  - unfold updateProfile in H. ok_inv. cbv zeta. split_ifs; reflexivity.
  - unfold updateAvatar in H. ok_inv. reflexivity.
  - unfold deactivateProfile in H. ok_inv. cbv zeta. split_ifs; reflexivity.
  - unfold transferOwnership in H. ok_inv. reflexivity.
Qed.

Lemma sameStore_stable s s' : storeOf s' = storeOf s -> recordsStable s s'.
Proof.
  unfold storeOf. intros [= Hm Hc _ _ _ _ _ _ _ _ _ _ _].
  split; [lia|]. intros id _. rewrite Hm. apply tombstone_refl.
Qed.

Lemma updateParameters_inv e a b c d s s' :
  updateParameters e a b c d s = Ok s' ->
  msg_sender e = owner s /\
  ((d < totalActiveMessages s /\
    exists tr,
      deleteOldestMessages (totalActiveMessages s - d) (configured a b c d s)
      = Ok (tr, s')) \/
   (totalActiveMessages s <= d /\ s' = configured a b c d s)).
Proof.
  unfold updateParameters. intros H. cbn in H. ok_inv; b2p.
  - split; [assumption|]. left. split; [assumption|].
    destruct a1 as [tr s1]. exists tr. exact E0.
  - split; [assumption|]. right. split; [assumption | reflexivity].
Qed.

Lemma configured_store a b c d s : storeOf (configured a b c d s) = storeOf s.
Proof. reflexivity. Qed.

Lemma recordsStable_step e op s s' : step e op s = Ok s' -> recordsStable s s'.
Proof.
  destruct (isProfileOp op) eqn:Hop;
    [intros H; eapply sameStore_stable, profileOp_store; eauto|].
  destruct op; try discriminate Hop; cbn [step]; intros H.
  - apply postMessage_inv in H. destruct H as (_ & s1 & Hroom & _ & ->).
    eapply recordsStable_trans;
      [apply tombstoneOnly_stable, tombstoneOnly_makeRoom; eauto
      | apply recordsStable_append].
  - apply replyToMessage_inv in H.
    destruct H as (_ & _ & s1 & Hroom & _ & ->).
    eapply recordsStable_trans;
      [apply tombstoneOnly_stable, tombstoneOnly_makeRoom; eauto
      | apply recordsStable_append].
  - unfold markMessageAsDeleted in H. ok_inv.
    apply tombstoneOnly_stable.
    eapply tombstoneOnly_trans;
      [eapply tombstoneOnly_mark; eauto | apply tombstoneOnly_emit].
  - apply updateParameters_inv in H.
    destruct H as [_ [(_ & tr & H) | (_ & ->)]].
    + eapply recordsStable_trans;
        [ apply sameStore_stable, configured_store
        | eapply tombstoneOnly_stable, tombstoneOnly_evict; eauto ].
    + apply sameStore_stable, configured_store.
Qed.

(** C8. Once a record exists, no later transaction changes its sender,
    content, timestamp, nickname snapshot or parent id, and its [isDeleted]
    flag never goes back from [true] to [false]. *)
Theorem records_immutable_tombstones_monotone s s' id :
  steps s s' ->
  id < messageCount s ->
  Message.sender (messages s' id) = Message.sender (messages s id) /\
  Message.content (messages s' id) = Message.content (messages s id) /\
  Message.timestamp (messages s' id) = Message.timestamp (messages s id) /\
  Message.nickname (messages s' id) = Message.nickname (messages s id) /\
  Message.replyToMessageId (messages s' id) =
    Message.replyToMessageId (messages s id) /\
  (Message.isDeleted (messages s id) = true ->
   Message.isDeleted (messages s' id) = true).
Proof.
  intros Hsteps Hid.
  assert (HS : recordsStable s s').
  { clear Hid. induction Hsteps as [s|s e op s1 s2 Hstep _ IH].
    - apply recordsStable_refl.
    - eapply recordsStable_trans; [eapply recordsStable_step; eauto | exact IH]. }
  destruct HS as [_ HS]. destruct (HS id Hid) as [(F1 & F2 & F3 & F4 & F5) D].
  repeat split; assumption.
Qed.

(** ** Lists of ids *)

Lemma iota_succ n : iota (n + 1) = iota n ++ [n].
Proof.
  unfold iota. replace (N.to_nat (n + 1)) with (S (N.to_nat n)) by lia.
  rewrite seq_S, map_app. cbn. rewrite N2Nat.id. reflexivity.
Qed.

Lemma iota_In n x : In x (iota n) <-> x < n.
Proof.
  unfold iota. rewrite in_map_iff. split.
  - intros (k & <- & Hk). apply in_seq in Hk. lia.
  - intros H. exists (N.to_nat x). split; [apply N2Nat.id|].
    apply in_seq. lia.
Qed.

Lemma iota_NoDup n : NoDup (iota n).
Proof.
  unfold iota. apply Injective_map_NoDup; [|apply seq_NoDup].
  intros a b H. apply Nat2N.inj. exact H.
Qed.

Lemma iota_length n : List.length (iota n) = N.to_nat n.
Proof. unfold iota. rewrite length_map, length_seq. reflexivity. Qed.

Lemma iota_head n : 1 <= n -> iota n = 0 :: skipn 1 (iota n).
Proof.
  intros H. unfold iota. destruct (N.to_nat n) as [|k] eqn:E; [lia|].
  reflexivity.
Qed.

Lemma iota_tail_In n x : In x (skipn 1 (iota n)) <-> 1 <= x /\ x < n.
Proof.
  destruct (N.ltb_spec n 1) as [Hn|Hn].
  - assert (n = 0) by lia. subst. cbn. split; [tauto | lia].
  - assert (Hnd := iota_NoDup n). assert (Hin := iota_In n x).
    rewrite (iota_head n Hn) in Hnd, Hin. inversion Hnd as [|? ? Hnot _]. subst.
    cbn in Hin. split.
    + intros H. split; [|apply Hin; auto].
      destruct (N.eq_dec x 0) as [->|]; [contradiction | lia].
    + intros [H1 H2]. destruct (proj2 Hin H2) as [E|E]; [lia | exact E].
Qed.

Lemma iota_tail_NoDup n : NoDup (skipn 1 (iota n)).
Proof.
  assert (H := iota_NoDup n). destruct (iota n); cbn; [constructor|].
  inversion H; assumption.
Qed.

Lemma iota_tail_succ n : 1 <= n ->
  skipn 1 (iota (n + 1)) = skipn 1 (iota n) ++ [n].
Proof.
  intros H. rewrite iota_succ. rewrite (iota_head n H). reflexivity.
Qed.

(** Two filters that differ at one element of a duplicate-free list. *)
Lemma filter_length_flip (f g : N -> bool) (x : N) (l : list N) :
  NoDup l -> In x l ->
  (forall y, y <> x -> g y = f y) -> f x = true -> g x = false ->
  List.length (filter f l) = S (List.length (filter g l)).
Proof.
  intros Hnd Hin Hext Hf Hg. induction l as [|y l IH]; [contradiction|].
  inversion Hnd as [|? ? Hnot Hnd']. subst. cbn.
  destruct (N.eq_dec y x) as [->|Hne].
  - rewrite Hf, Hg. cbn. f_equal. f_equal. apply filter_ext_in.
    intros z Hz. symmetry. apply Hext. intros ->. contradiction.
  - destruct Hin as [E|Hin]; [congruence|].
    rewrite (Hext y Hne). destruct (f y); cbn; rewrite (IH Hnd' Hin);
      reflexivity.
Qed.

Lemma filter_NoDup (f : N -> bool) (l : list N) : NoDup l -> NoDup (filter f l).
Proof. apply NoDup_filter. Qed.

(** ** The invariant holds initially and is kept by every transaction *)

Lemma Inv_init e : Inv (constructor e).
Proof.
  constructor; cbn; try reflexivity; try lia.
  - unfold MAX_UINT256. lia.
  - intros id H. assert (id = 0) by lia. subst. reflexivity.
  - intros p. unfold upd, countLive. cbn. destruct (p =? 0); reflexivity.
  - intros id H. assert (id = 0) by lia. subst. reflexivity.
Qed.

Lemma Inv_store s s' : storeOf s' = storeOf s -> Inv s -> Inv s'.
Proof.
  destruct s, s'. unfold storeOf. cbn. intros [= -> -> -> -> -> -> -> -> -> -> -> -> ->].
  intros [H1 H2 H3 H4 H5 H6 H7 H8 H9 H10 H11 H12 H13 H14].
  constructor; assumption.
Qed.

Lemma markedState_store messageId s :
  periodExists s (messageId / PERIOD_SIZE) = true ->
  let s' := markedState messageId s in
  let m := messages s messageId in
  messages s' = upd (messages s) messageId (Message.markDeleted m) /\
  messageCount s' = messageCount s /\
  messageIdsByPeriod s' = messageIdsByPeriod s /\
  activeMessageCountByPeriod s' =
    upd (activeMessageCountByPeriod s) (messageId / PERIOD_SIZE)
        (activeMessageCountByPeriod s (messageId / PERIOD_SIZE) - 1) /\
  periodExists s' = periodExists s /\
  senderToMessageIds s' = senderToMessageIds s /\
  activeSenderMessageCount s' =
    upd (activeSenderMessageCount s) (Message.sender m)
        (activeSenderMessageCount s (Message.sender m) - 1) /\
  messageReplies s' = messageReplies s /\
  activeReplyCount s' =
    (if Message.replyToMessageId m =? 0 then activeReplyCount s
     else upd (activeReplyCount s) (Message.replyToMessageId m)
            (activeReplyCount s (Message.replyToMessageId m) - 1)) /\
  totalActiveMessages s' = totalActiveMessages s - 1 /\
  chronologicalMessageIds s' = chronologicalMessageIds s /\
  messageIdToChronologicalIndex s' = messageIdToChronologicalIndex s.
Proof.
  intros Hp. unfold markedState. cbv zeta. rewrite Hp.
  destruct (Message.replyToMessageId (messages s messageId) =? 0);
    repeat split.
Qed.

Section Marked.
Variable s : State.
Variable messageId : uint256.
Hypothesis Hlive : Message.isDeleted (messages s messageId) = false.

Let s' := markedState messageId s.

Lemma marked_live x :
  live s' x = if x =? messageId then false else live s x.
Proof.
  unfold live, s'. rewrite markedState_messages.
  destruct (x =? messageId); reflexivity.
Qed.

Lemma marked_sentBy a x : sentBy s' a x = sentBy s a x.
Proof.
  unfold sentBy, s'. rewrite markedState_messages.
  destruct (N.eqb_spec x messageId) as [->|]; reflexivity.
Qed.

Lemma marked_repliesTo q x : repliesTo s' q x = repliesTo s q x.
Proof.
  unfold repliesTo, s'. rewrite markedState_messages.
  destruct (N.eqb_spec x messageId) as [->|]; reflexivity.
Qed.

Lemma marked_countLive_in l :
  NoDup l -> In messageId l ->
  countLive s l = countLive s' l + 1.
Proof.
  intros Hnd Hin. unfold countLive.
  rewrite (filter_length_flip (live s) (live s') messageId l Hnd Hin).
  - lia.
  - intros y Hy. rewrite marked_live.
    destruct (N.eqb_spec y messageId); [contradiction | reflexivity].
  - unfold live. rewrite Hlive. reflexivity.
  - rewrite marked_live, N.eqb_refl. reflexivity.
Qed.

Lemma marked_countLive_out l :
  ~ In messageId l -> countLive s' l = countLive s l.
Proof.
  intros Hout. unfold countLive. f_equal. f_equal. apply filter_ext_in.
  intros y Hy. rewrite marked_live.
  destruct (N.eqb_spec y messageId) as [->|]; [contradiction | reflexivity].
Qed.
End Marked.

Lemma Inv_live_nonzero s id :
  Inv s -> Message.isDeleted (messages s id) = false -> id <> 0.
Proof. intros HI Hl ->. rewrite (inv_dummy _ HI) in Hl. discriminate. Qed.

Lemma Inv_chron_NoDup s : Inv s -> NoDup (chronologicalMessageIds s).
Proof. intros HI. rewrite (inv_chron _ HI). apply iota_NoDup. Qed.

Lemma Inv_tail_NoDup s : Inv s -> NoDup (skipn 1 (chronologicalMessageIds s)).
Proof. intros HI. rewrite (inv_chron _ HI). apply iota_tail_NoDup. Qed.

Lemma Inv_marked s messageId :
  Inv s -> messageId < messageCount s ->
  Message.isDeleted (messages s messageId) = false ->
  Inv (markedState messageId s).
Proof.
  intros HI Hid Hlive.
  assert (Hnz : messageId <> 0) by (eapply Inv_live_nonzero; eauto).
  assert (Hchron : In messageId (chronologicalMessageIds s))
    by (rewrite (inv_chron _ HI); apply iota_In; exact Hid).
  assert (Htail : In messageId (skipn 1 (chronologicalMessageIds s)))
    by (rewrite (inv_chron _ HI); apply iota_tail_In; lia).
  destruct (markedState_store messageId s (inv_period_ex _ HI _ Hid))
    as (Em & Ec & Epi & Epc & Epe & Esi & Esc & Eri & Erc & Et & Ech & Eix).
  set (s' := markedState messageId s) in *.
  constructor.
  - rewrite Ec. apply HI.
  - rewrite Ec. apply HI.
  - rewrite Ech, Ec. apply HI.
  - intros id H. rewrite Eix. rewrite Ec in H. apply HI, H.
  - rewrite Em, upd_other by congruence. apply HI.
  - rewrite Et, Ech, (inv_total _ HI).
    rewrite (marked_countLive_in s messageId Hlive _ (Inv_chron_NoDup _ HI) Hchron).
    fold s'. lia.
  - intros p. rewrite Epi, Ech. apply HI.
  - intros p. rewrite Epc, Epi.
    destruct (N.eq_dec p (messageId / PERIOD_SIZE)) as [->|Hp];
      [rewrite upd_same | rewrite upd_other by exact Hp].
    + rewrite (inv_period_cnt _ HI).
      rewrite (marked_countLive_in s messageId Hlive (messageIdsByPeriod s _)).
      * fold s'. lia.
      * rewrite (inv_period_idx _ HI). apply filter_NoDup, Inv_chron_NoDup, HI.
      * rewrite (inv_period_idx _ HI). apply filter_In. split; [exact Hchron|].
        unfold inPeriod. apply N.eqb_refl.
    + rewrite (inv_period_cnt _ HI). symmetry. apply marked_countLive_out.
      rewrite (inv_period_idx _ HI). intros Hin. apply filter_In in Hin.
      destruct Hin as [_ Hin]. unfold inPeriod in Hin.
      apply N.eqb_eq in Hin. congruence.
  - intros id H. rewrite Epe. rewrite Ec in H. apply HI, H.
  - intros a. rewrite Esi, Ech, (inv_sender_idx _ HI). apply filter_ext.
    intros x. symmetry. apply marked_sentBy.
  - intros a. rewrite Esc, Esi.
    destruct (N.eq_dec a (Message.sender (messages s messageId))) as [->|Ha];
      [rewrite upd_same | rewrite upd_other by exact Ha].
    + rewrite (inv_sender_cnt _ HI).
      rewrite (marked_countLive_in s messageId Hlive (senderToMessageIds s _)).
      * fold s'. lia.
      * rewrite (inv_sender_idx _ HI). apply filter_NoDup, Inv_tail_NoDup, HI.
      * rewrite (inv_sender_idx _ HI). apply filter_In. split; [exact Htail|].
        unfold sentBy. apply N.eqb_refl.
    + rewrite (inv_sender_cnt _ HI). symmetry. apply marked_countLive_out.
      rewrite (inv_sender_idx _ HI). intros Hin. apply filter_In in Hin.
      destruct Hin as [_ Hin]. unfold sentBy in Hin.
      apply N.eqb_eq in Hin. congruence.
  - intros q Hq. rewrite Eri, Ech, (inv_reply_idx _ HI q Hq). apply filter_ext.
    intros x. symmetry. apply marked_repliesTo.
  - intros q Hq. rewrite Erc, Eri.
    assert (Hout : Message.replyToMessageId (messages s messageId) <> q ->
                   countLive s' (messageReplies s q) =
                   countLive s (messageReplies s q)).
    { intros Hne. apply marked_countLive_out.
      rewrite (inv_reply_idx _ HI q Hq). intros Hin. apply filter_In in Hin.
      destruct Hin as [_ Hin]. unfold repliesTo in Hin.
      apply N.eqb_eq in Hin. congruence. }
    destruct (N.eqb_spec (Message.replyToMessageId (messages s messageId)) 0)
      as [Ez|Ez].
    + rewrite (inv_reply_cnt _ HI q Hq). symmetry. apply Hout. congruence.
    + destruct (N.eq_dec q (Message.replyToMessageId (messages s messageId)))
        as [->|Hne]; [rewrite upd_same | rewrite upd_other by exact Hne].
      * rewrite (inv_reply_cnt _ HI _ Hq).
        rewrite (marked_countLive_in s messageId Hlive (messageReplies s _)).
        -- fold s'. lia.
        -- rewrite (inv_reply_idx _ HI _ Hq).
           apply filter_NoDup, Inv_tail_NoDup, HI.
        -- rewrite (inv_reply_idx _ HI _ Hq). apply filter_In.
           split; [exact Htail|]. unfold repliesTo. apply N.eqb_refl.
      * rewrite (inv_reply_cnt _ HI q Hq). symmetry. apply Hout. congruence.
  - rewrite Erc, Ec.
    destruct (N.eqb_spec (Message.replyToMessageId (messages s messageId)) 0)
      as [Ez|Ez]; [apply HI|].
    rewrite upd_other by congruence. apply HI.
Qed.

Lemma Inv_canMark s messageId :
  Inv s -> messageId < messageCount s ->
  Message.isDeleted (messages s messageId) = false ->
  canMark messageId s.
Proof.
  intros HI Hid Hlive.
  assert (Hnz : messageId <> 0) by (eapply Inv_live_nonzero; eauto).
  assert (Hchron : In messageId (chronologicalMessageIds s))
    by (rewrite (inv_chron _ HI); apply iota_In; exact Hid).
  assert (Htail : In messageId (skipn 1 (chronologicalMessageIds s)))
    by (rewrite (inv_chron _ HI); apply iota_tail_In; lia).
  unfold canMark. cbv zeta. repeat split.
  - intros _. rewrite (inv_period_cnt _ HI).
    rewrite (marked_countLive_in s messageId Hlive (messageIdsByPeriod s _));
      [lia | |].
    + rewrite (inv_period_idx _ HI). apply filter_NoDup, Inv_chron_NoDup, HI.
    + rewrite (inv_period_idx _ HI). apply filter_In. split; [exact Hchron|].
      unfold inPeriod. apply N.eqb_refl.
  - rewrite (inv_sender_cnt _ HI).
    rewrite (marked_countLive_in s messageId Hlive (senderToMessageIds s _));
      [lia | |].
    + rewrite (inv_sender_idx _ HI). apply filter_NoDup, Inv_tail_NoDup, HI.
    + rewrite (inv_sender_idx _ HI). apply filter_In. split; [exact Htail|].
      unfold sentBy. apply N.eqb_refl.
  - intros Hq. rewrite (inv_reply_cnt _ HI _ Hq).
    rewrite (marked_countLive_in s messageId Hlive (messageReplies s _));
      [lia | |].
    + rewrite (inv_reply_idx _ HI _ Hq). apply filter_NoDup, Inv_tail_NoDup, HI.
    + rewrite (inv_reply_idx _ HI _ Hq). apply filter_In. split; [exact Htail|].
      unfold repliesTo. apply N.eqb_refl.
  - rewrite (inv_total _ HI).
    rewrite (marked_countLive_in s messageId Hlive _ (Inv_chron_NoDup _ HI) Hchron).
    lia.
Qed.

Lemma Inv_mark s messageId s' :
  Inv s -> messageId < messageCount s ->
  _markMessageAsDeleted messageId s = Ok s' -> Inv s'.
Proof.
  intros HI Hid H. destruct (Message.isDeleted (messages s messageId)) eqn:Hd.
  - rewrite (mark_deleted_noop _ _ Hd) in H. ok_inv. exact HI.
  - destruct (mark_live_inv _ _ _ Hd H) as [_ ->]. apply Inv_marked; auto.
Qed.

Lemma Inv_emit s ev : Inv s -> Inv (emit ev s).
Proof. apply Inv_store. reflexivity. Qed.

Lemma Inv_tail_lt s : Inv s ->
  Forall (fun id => id < messageCount s) (skipn 1 (chronologicalMessageIds s)).
Proof.
  intros HI. apply Forall_forall. intros id Hin.
  rewrite (inv_chron _ HI) in Hin. apply iota_tail_In in Hin. lia.
Qed.

Lemma Inv_evict count s tr s' :
  Inv s -> deleteOldestMessages count s = Ok (tr, s') -> Inv s'.
Proof.
  intros HI H.
  set (n := messageCount s).
  assert (HR : (Inv s /\ messageCount s = n) -> (Inv s' /\ messageCount s' = n)).
  { eapply deleteOldestMessages_rel
      with (R := fun a b => (Inv a /\ messageCount a = n) ->
                            (Inv b /\ messageCount b = n))
           (I := fun id => id < n) (count := count) (tr := tr).
    - intros a Ha. exact Ha.
    - intros a b c Hab Hbc Ha. auto.
    - intros a ev [Ha Hn]. split; [apply Inv_emit, Ha | exact Hn].
    - intros a id b Hid _ Hm [Ha Hn]. split.
      + eapply Inv_mark; eauto. lia.
      + destruct (tombstoneOnly_mark _ _ _ Hm) as [Hc _]. lia.
    - apply Inv_tail_lt, HI.
    - exact H. }
  apply HR. split; [exact HI | reflexivity].
Qed.

Lemma countLive_le s l : countLive s l <= N.of_nat (List.length l).
Proof.
  unfold countLive. assert (H := filter_length_le (live s) l). lia.
Qed.

Lemma Inv_total_le s : Inv s -> totalActiveMessages s <= messageCount s.
Proof.
  intros HI. rewrite (inv_total _ HI).
  assert (H := countLive_le s (chronologicalMessageIds s)).
  rewrite (inv_chron _ HI), iota_length in H. rewrite (inv_chron _ HI). lia.
Qed.

(** In a state that satisfies the invariant the eviction never panics. *)
Lemma deleteLoop_total n ids :
  Forall (fun id => id < n) ids ->
  forall d m tr s,
    Inv s -> messageCount s = n -> m <= MAX_UINT256 ->
    exists d' tr' s',
      deleteLoop ids d m tr s = Ok (d', tr', s') /\
      Inv s' /\ messageCount s' = n.
Proof.
  induction 1 as [|id rest Hid _ IH]; intros d m tr s HI Hn Hm; cbn.
  - eauto 7.
  - destruct (N.ltb_spec d m) as [Hd|Hd]; [|eauto 7].
    destruct (evictable s id) eqn:Hev.
    + destruct (evictable_inv _ _ Hev) as [Hlive _].
      assert (Hid' : id < messageCount s) by lia.
      rewrite (mark_live_ok _ _ Hlive (Inv_canMark _ _ HI Hid' Hlive)). cbn.
      rewrite checked_add_fits by lia. cbn.
      assert (HI' : Inv (markedState id s)) by (apply Inv_marked; auto).
      assert (Hn' : messageCount (markedState id s) = n).
      { destruct (tombstoneOnly_markedState id s) as [Hc _]. lia. }
      destruct (m <=? d + 1); [eauto 7 | apply IH; auto].
    + cbn. destruct (m <=? d); [eauto 7 | apply IH; auto].
Qed.

Lemma deleteOldestMessages_total count s :
  Inv s -> exists tr s', deleteOldestMessages count s = Ok (tr, s').
Proof.
  intros HI. unfold deleteOldestMessages.
  destruct ((count =? 0) || (totalActiveMessages s =? 0))%bool; [eauto|].
  set (m := if count <? totalActiveMessages s then count
            else totalActiveMessages s).
  assert (Hm : m <= MAX_UINT256).
  { assert (H1 := Inv_total_le _ HI). assert (H2 := inv_count_max _ HI).
    unfold m. destruct (N.ltb_spec count (totalActiveMessages s)); lia. }
  destruct (deleteLoop_total (messageCount s) _ (Inv_tail_lt _ HI) 0 m [] s
              HI eq_refl Hm) as (d' & tr' & s' & -> & _ & _).
  cbn. destruct (0 <? d'); eauto.
Qed.

Lemma makeRoom_total s : Inv s -> exists s1, makeRoom s = Ok s1.
Proof.
  intros HI. unfold makeRoom.
  destruct (maxActiveMessages s <=? totalActiveMessages s); [|eauto].
  destruct (deleteOldestMessages_total 1 s HI) as (tr & s' & ->). cbn. eauto.
Qed.

Lemma Inv_makeRoom s s1 : Inv s -> makeRoom s = Ok s1 -> Inv s1.
Proof.
  unfold makeRoom. intros HI H.
  destruct (maxActiveMessages s <=? totalActiveMessages s); ok_inv; auto.
  destruct a as [tr s']. eapply Inv_evict; eauto.
Qed.

(** *** Appending a record *)

#[local] Arguments skipn : simpl never.

Lemma filter_snoc (P P' : N -> bool) (base : list N) (id : N) :
  (forall x, In x base -> P' x = P x) ->
  filter P' (base ++ [id]) =
  if P' id then filter P base ++ [id] else filter P base.
Proof.
  intros Hext. rewrite filter_app. cbn.
  rewrite (filter_ext_in P' P base Hext).
  destruct (P' id); [reflexivity | apply app_nil_r].
Qed.

Section Appended.
Variable s : State.
Variable e : Env.
Variable reply : option N.
Variable content : string.
Hypothesis HI : Inv s.

Let s' := appendMessage e reply content s.
Let id := messageCount s.

Lemma appended_old x : x < id -> messages s' x = messages s x.
Proof. intros H. unfold s'. cbn. apply upd_other. unfold id in H. lia. Qed.

Lemma appended_new :
  messages s' id = newMessage e (parentOf reply) content s.
Proof. unfold s', id. cbn. apply upd_same. Qed.

Lemma appended_tail_old x :
  In x (skipn 1 (chronologicalMessageIds s)) -> messages s' x = messages s x.
Proof.
  intros H. apply appended_old. rewrite (inv_chron _ HI) in H.
  apply iota_tail_In in H. unfold id. lia.
Qed.

Lemma appended_live_new : live s' id = true.
Proof. unfold live. rewrite appended_new. reflexivity. Qed.

Lemma appended_countLive l :
  (forall x, In x l -> x < id) -> countLive s' l = countLive s l.
Proof.
  intros H. unfold countLive. f_equal. f_equal. apply filter_ext_in.
  intros x Hx. unfold live. rewrite appended_old; auto.
Qed.

Lemma appended_countLive_snoc l :
  (forall x, In x l -> x < id) -> countLive s' (l ++ [id]) = countLive s l + 1.
Proof.
  intros H. unfold countLive. rewrite filter_app, length_app. cbn.
  rewrite appended_live_new. cbn.
  rewrite (filter_ext_in (live s') (live s) l); [lia|].
  intros x Hx. unfold live. rewrite appended_old; auto.
Qed.

Lemma filter_chron_lt (P : N -> bool) x :
  In x (filter P (chronologicalMessageIds s)) -> x < id.
Proof.
  intros H. apply filter_In in H. destruct H as [H _].
  rewrite (inv_chron _ HI) in H. apply iota_In in H. exact H.
Qed.

Lemma filter_tail_lt (P : N -> bool) x :
  In x (filter P (skipn 1 (chronologicalMessageIds s))) -> x < id.
Proof.
  intros H. apply filter_In in H. destruct H as [H _].
  rewrite (inv_chron _ HI) in H. apply iota_tail_In in H. unfold id. lia.
Qed.

Lemma appended_tail :
  skipn 1 (chronologicalMessageIds s ++ [id]) =
  skipn 1 (chronologicalMessageIds s) ++ [id].
Proof.
  rewrite (inv_chron _ HI). rewrite <- iota_succ.
  apply iota_tail_succ. apply HI.
Qed.

Lemma Inv_appended : messageCount s + 1 <= MAX_UINT256 -> Inv s'.
Proof.
  intros Hmax.
  assert (Hpos := inv_count_pos _ HI).
  constructor.
  - unfold s'. cbn. lia.
  - unfold s'. cbn. exact Hmax.
  - unfold s'. cbn. rewrite (inv_chron _ HI). symmetry. apply iota_succ.
  - intros x Hx. unfold s' in *. cbn in *.
    destruct (N.eq_dec x (messageCount s)) as [->|Hne].
    + rewrite upd_same, length_app, (inv_chron _ HI), iota_length. cbn. lia.
    + rewrite upd_other by exact Hne. apply HI. lia.
  - fold id. rewrite appended_old by (unfold id; lia). apply HI.
  - unfold s' at 1 3. cbn. fold s' id.
    rewrite appended_countLive_snoc, (inv_total _ HI); [reflexivity|].
    intros x Hx. rewrite (inv_chron _ HI) in Hx. apply iota_In in Hx. exact Hx.
  - intros p. unfold s'. cbn. fold id.
    rewrite (filter_snoc (inPeriod p) (inPeriod p)) by reflexivity.
    unfold inPeriod at 1.
    destruct (N.eqb_spec (id / PERIOD_SIZE) p) as [<-|Hp].
    + rewrite upd_same, (inv_period_idx _ HI). reflexivity.
    + rewrite upd_other by congruence. apply HI.
  - intros p. unfold s' at 1 3. cbn. fold s' id.
    destruct (N.eq_dec p (id / PERIOD_SIZE)) as [->|Hp].
    + rewrite !upd_same, appended_countLive_snoc, (inv_period_cnt _ HI);
        [reflexivity|].
      intros x. rewrite (inv_period_idx _ HI). apply filter_chron_lt.
    + rewrite !upd_other by exact Hp.
      rewrite appended_countLive, (inv_period_cnt _ HI); [reflexivity|].
      intros x. rewrite (inv_period_idx _ HI). apply filter_chron_lt.
  - intros x Hx. unfold s' in *. cbn in *. fold id in Hx |- *.
    destruct (periodExists s (id / PERIOD_SIZE)) eqn:Ep.
    + destruct (N.eq_dec x id) as [->|Hne]; [exact Ep | apply HI; unfold id in *; lia].
    + destruct (N.eq_dec (x / PERIOD_SIZE) (id / PERIOD_SIZE)) as [->|Hne].
      * apply upd_same.
      * rewrite upd_other by exact Hne. apply HI.
        assert (x <> id) by congruence. unfold id in *. lia.
  - intros a. unfold s' at 1 3. cbn. fold s' id. rewrite appended_tail.
    rewrite (filter_snoc (sentBy s a) (sentBy s' a)).
    + unfold sentBy at 1. rewrite appended_new. cbn.
      destruct (N.eqb_spec (msg_sender e) a) as [<-|Ha].
      * rewrite upd_same, (inv_sender_idx _ HI). reflexivity.
      * rewrite upd_other by congruence. apply HI.
    + intros x Hx. unfold sentBy. rewrite appended_tail_old; auto.
  - intros a. unfold s' at 1 3. cbn. fold s' id.
    destruct (N.eq_dec a (msg_sender e)) as [->|Ha].
    + rewrite !upd_same, appended_countLive_snoc, (inv_sender_cnt _ HI);
        [reflexivity|].
      intros x. rewrite (inv_sender_idx _ HI). apply filter_tail_lt.
    + rewrite !upd_other by exact Ha.
      rewrite appended_countLive, (inv_sender_cnt _ HI); [reflexivity|].
      intros x. rewrite (inv_sender_idx _ HI). apply filter_tail_lt.
  - intros q Hq. unfold s' at 1 3. cbn. fold s' id. rewrite appended_tail.
    rewrite (filter_snoc (repliesTo s q) (repliesTo s' q)).
    + unfold repliesTo at 1. rewrite appended_new. cbn.
      destruct reply as [r|]; cbn.
      * destruct (N.eqb_spec r q) as [<-|Hr].
        -- rewrite upd_same, (inv_reply_idx _ HI _ Hq). reflexivity.
        -- rewrite upd_other by congruence. apply HI, Hq.
      * destruct q as [|q']; [congruence|]. apply (inv_reply_idx _ HI). exact Hq.
    + intros x Hx. unfold repliesTo. rewrite appended_tail_old; auto.
  - intros q Hq.
    assert (Hlt : forall x, In x (messageReplies s q) -> x < id).
    { intros x. rewrite (inv_reply_idx _ HI _ Hq). apply filter_tail_lt. }
    assert (A1 := appended_countLive_snoc _ Hlt).
    assert (A2 := appended_countLive _ Hlt).
    rewrite <- (inv_reply_cnt _ HI _ Hq) in A1, A2.
    change (messages s') with
      (upd (messages s) id (newMessage e (parentOf reply) content s)) in *.
    unfold countLive, live in *. cbn.
    destruct reply as [r|]; [|exact (eq_sym A2)].
    destruct (N.eq_dec q r) as [->|Hr].
    + rewrite !upd_same. exact (eq_sym A1).
    + rewrite !upd_other by exact Hr. exact (eq_sym A2).
  - assert (Hz := inv_reply_zero _ HI). unfold s'. cbn.
    destruct reply as [r|]; [|lia].
    destruct (N.eq_dec 0 r) as [<-|Hr];
      [rewrite upd_same | rewrite upd_other by exact Hr]; lia.
Qed.

Lemma Inv_canAppend : messageCount s + 1 <= MAX_UINT256 -> canAppend e reply s.
Proof.
  intros Hmax. assert (Hn := iota_length (messageCount s)).
  assert (Hch : forall l, (forall x, In x l -> In x (chronologicalMessageIds s)) ->
                          NoDup l -> countLive s l <= messageCount s).
  { intros l Hincl Hnd. assert (H := countLive_le s l).
    assert (H' := NoDup_incl_length Hnd Hincl).
    rewrite (inv_chron _ HI), Hn in H'. lia. }
  repeat split.
  - exact Hmax.
  - rewrite (inv_period_cnt _ HI), (inv_period_idx _ HI).
    assert (H := Hch (filter (inPeriod (messageCount s / PERIOD_SIZE))
                        (chronologicalMessageIds s))).
    cut (countLive s (filter (inPeriod (messageCount s / PERIOD_SIZE))
                        (chronologicalMessageIds s)) <= messageCount s); [lia|].
    apply H; [intros x Hx; apply filter_In in Hx; tauto|].
    apply filter_NoDup, Inv_chron_NoDup, HI.
  - rewrite (inv_sender_cnt _ HI), (inv_sender_idx _ HI).
    cut (countLive s (filter (sentBy s (msg_sender e))
                        (skipn 1 (chronologicalMessageIds s)))
         <= messageCount s); [lia|].
    apply Hch; [|apply filter_NoDup, Inv_tail_NoDup, HI].
    intros x Hx. apply filter_In in Hx. destruct Hx as [Hx _].
    rewrite (inv_chron _ HI) in *. apply iota_tail_In in Hx. apply iota_In. lia.
  - intros q ->. destruct (N.eq_dec q 0) as [->|Hq].
    + assert (Hz := inv_reply_zero _ HI). lia.
    + rewrite (inv_reply_cnt _ HI _ Hq), (inv_reply_idx _ HI _ Hq).
      cut (countLive s (filter (repliesTo s q)
                          (skipn 1 (chronologicalMessageIds s)))
           <= messageCount s); [lia|].
      apply Hch; [|apply filter_NoDup, Inv_tail_NoDup, HI].
      intros x Hx. apply filter_In in Hx. destruct Hx as [Hx _].
      rewrite (inv_chron _ HI) in *. apply iota_tail_In in Hx. apply iota_In. lia.
  - assert (H := Inv_total_le _ HI). lia.
Qed.
End Appended.

Lemma Inv_step e op s s' : Inv s -> step e op s = Ok s' -> Inv s'.
Proof.
  intros HI.
  destruct (isProfileOp op) eqn:Hop;
    [intros H; eapply Inv_store; [eapply profileOp_store; eauto | exact HI]|].
  destruct op; try discriminate Hop; cbn [step]; intros H.
  - apply postMessage_inv in H. destruct H as (_ & s1 & Hroom & Hcan & ->).
    apply Inv_appended; [eapply Inv_makeRoom; eauto | apply Hcan].
  - apply replyToMessage_inv in H.
    destruct H as (_ & _ & s1 & Hroom & Hcan & ->).
    apply Inv_appended; [eapply Inv_makeRoom; eauto | apply Hcan].
  - unfold markMessageAsDeleted in H. ok_inv. b2p.
    apply Inv_emit. eapply Inv_mark; eauto.
  - apply updateParameters_inv in H.
    destruct H as [_ [(_ & tr & H) | (_ & ->)]].
    + eapply Inv_evict; [|exact H].
      eapply Inv_store; [apply configured_store | exact HI].
    + eapply Inv_store; [apply configured_store | exact HI].
Qed.

Lemma reachable_Inv s : reachable s -> Inv s.
Proof.
  induction 1 as [e|s e op s' _ IH Hstep];
    [apply Inv_init | eapply Inv_step; eauto].
Qed.

(** X23. In every reachable state every counter but [activeReplyCount 0]
    agrees with its index: the counter of a period, of a sender and of a
    parent other than the dummy is the number of non-deleted ids in the
    index of that period, sender or parent, and [totalActiveMessages] is the
    number of non-deleted records. *)
Lemma reachable_counters_consistent s :
  reachable s ->
  (forall p, activeMessageCountByPeriod s p =
             countLive s (messageIdsByPeriod s p)) /\
  (forall a, activeSenderMessageCount s a =
             countLive s (senderToMessageIds s a)) /\
  (forall q, q <> 0 -> activeReplyCount s q = countLive s (messageReplies s q)) /\
  totalActiveMessages s = countLive s (iota (messageCount s)).
Proof.
  intros H. apply reachable_Inv in H. repeat split.
  - apply H.
  - apply H.
  - apply H.
  - rewrite <- (inv_chron _ H). apply H.
Qed.

(** ** The eviction takes the oldest main message first *)

Lemma evictable_after_mark s messageId s' j :
  _markMessageAsDeleted messageId s = Ok s' ->
  evictable s j = false -> evictable s' j = false.
Proof.
  intros H Hj. destruct (tombstoneOnly_mark _ _ _ H) as (_ & _ & _ & _ & Ht).
  destruct (Ht j) as [(_ & _ & _ & _ & Hp) Hd].
  unfold evictable in *. rewrite Hp.
  destruct (Message.isDeleted (messages s j)) eqn:E.
  - rewrite (Hd eq_refl). reflexivity.
  - cbn in Hj. rewrite Hj. apply andb_false_r.
Qed.

Lemma evictable_marked s messageId s' :
  evictable s messageId = true ->
  _markMessageAsDeleted messageId s = Ok s' ->
  evictable s' messageId = false /\
  forall x, Message.isDeleted (messages s' x) =
            (Message.isDeleted (messages s x) || (x =? messageId))%bool.
Proof.
  intros Hev H. destruct (evictable_inv _ _ Hev) as [Hlive _].
  destruct (mark_live_inv _ _ _ Hlive H) as [_ ->]. split.
  - unfold evictable. rewrite markedState_messages, N.eqb_refl. reflexivity.
  - intros x. rewrite markedState_messages.
    destruct (N.eqb_spec x messageId) as [->|_]; cbn.
    + rewrite orb_true_r. reflexivity.
    + rewrite orb_false_r. reflexivity.
Qed.

Lemma traceSpec_nil s tr ids : traceSpec s s tr tr ids.
Proof.
  exists []. split; [symmetry; apply app_nil_r|].
  split; [constructor|]. split; [intros x []|].
  split; [intros _; constructor|].
  intros x. cbn. symmetry. apply orb_false_r.
Qed.

Lemma traceSpec_one s s1 tr id rest :
  oldestEvictable s id ->
  (forall x, Message.isDeleted (messages s1 x) =
             (Message.isDeleted (messages s x) || (x =? id))%bool) ->
  traceSpec s s1 tr (tr ++ [mkEviction s id]) (id :: rest).
Proof.
  intros Hold Hdel. exists [mkEviction s id]. split; [reflexivity|].
  split; [constructor; [exact Hold | constructor]|].
  split; [intros x [<-|[]]; left; reflexivity|].
  split; [intros _; cbn; repeat constructor|].
  intros x. cbn. rewrite orb_false_r. apply Hdel.
Qed.

Lemma traceSpec_skip s s' tr tr' id rest :
  traceSpec s s' tr tr' rest -> traceSpec s s' tr tr' (id :: rest).
Proof.
  intros (new & -> & Hall & Hincl & Hsort & Hd). exists new.
  split; [reflexivity|]. split; [exact Hall|].
  split; [intros x Hx; right; apply Hincl, Hx|].
  split; [intros Hs; inversion Hs; auto | exact Hd].
Qed.

Lemma traceSpec_cons s s1 s' tr tr' id rest :
  oldestEvictable s id ->
  (forall x, Message.isDeleted (messages s1 x) =
             (Message.isDeleted (messages s x) || (x =? id))%bool) ->
  traceSpec s1 s' (tr ++ [mkEviction s id]) tr' rest ->
  traceSpec s s' tr tr' (id :: rest).
Proof.
  intros Hold Hdel (new & -> & Hall & Hincl & Hsort & Hd).
  exists (mkEviction s id :: new). split; [rewrite <- app_assoc; reflexivity|].
  split; [constructor; assumption|].
  split; [intros x [<-|Hx]; [left; reflexivity | right; apply Hincl, Hx]|].
  split.
  - intros Hs. inversion Hs as [|? ? Hs' Hlt]. subst. cbn.
    constructor; [apply Hsort, Hs'|].
    apply Forall_forall. intros x Hx.
    apply (proj1 (Forall_forall _ _) Hlt). apply Hincl, Hx.
  - intros x. rewrite Hd, Hdel. cbn. rewrite orb_assoc. reflexivity.
Qed.

Lemma deleteLoop_trace ids :
  forall done d m tr s d' tr' s',
    chronologicalMessageIds s = done ++ ids ->
    Forall (fun j => evictable s j = false) done ->
    deleteLoop ids d m tr s = Ok (d', tr', s') ->
    traceSpec s s' tr tr' ids.
Proof.
  induction ids as [|id rest IH]; intros done d m tr s d' tr' s' Hch Hdone H;
    cbn in H.
  - ok_inv. apply traceSpec_nil.
  - destruct (d <? m); [|ok_inv; apply traceSpec_nil].
    destruct (evictable s id) eqn:Hev.
    + bind_inv H r Er. bind_inv Er s1 Hmark. bind_inv Er d1 Hd.
      apply checked_add_ok in Hd. destruct Hd as [-> _].
      injection Er as <-.
      destruct (evictable_marked _ _ _ Hev Hmark) as [Hgone Hdel].
      assert (Hold : oldestEvictable s id) by (exists done, rest; auto).
      cbn in H. destruct (m <=? d + 1);
        [ok_inv; apply traceSpec_one; assumption|].
      destruct (tombstoneOnly_mark _ _ _ Hmark) as (_ & Hch1 & _).
      eapply traceSpec_cons; [exact Hold | exact Hdel |].
      eapply (IH (done ++ [id])); [| |exact H].
      * rewrite Hch1, Hch, <- app_assoc. reflexivity.
      * apply Forall_app. split.
        -- eapply Forall_impl; [|exact Hdone].
           intros j Hj. eapply evictable_after_mark; eauto.
        -- constructor; [exact Hgone | constructor].
    + cbn in H. destruct (m <=? d); [ok_inv; apply traceSpec_nil|].
      apply traceSpec_skip.
      eapply (IH (done ++ [id])); [| |exact H].
      * rewrite Hch, <- app_assoc. reflexivity.
      * apply Forall_app. split; [exact Hdone|].
        constructor; [exact Hev | constructor].
Qed.

Lemma seq_sorted a k : StronglySorted N.lt (map N.of_nat (seq a k)).
Proof.
  revert a. induction k as [|k IH]; intros a; cbn; constructor; [apply IH|].
  apply Forall_forall. intros x Hx. apply in_map_iff in Hx.
  destruct Hx as (y & <- & Hy). apply in_seq in Hy. lia.
Qed.

Lemma iota_sorted n : StronglySorted N.lt (iota n).
Proof. apply seq_sorted. Qed.

Lemma iota_tail_sorted n : StronglySorted N.lt (skipn 1 (iota n)).
Proof.
  assert (H := iota_sorted n). destruct (iota n); cbn; [constructor|].
  inversion H; assumption.
Qed.

Lemma iota_nth n x : x < n -> nth_error (iota n) (N.to_nat x) = Some x.
Proof.
  intros H. unfold iota. rewrite nth_error_map.
  rewrite nth_error_seq.
  destruct (Nat.ltb_spec (N.to_nat x) (N.to_nat n)); [|lia].
  cbn. rewrite N2Nat.id. reflexivity.
Qed.

Lemma deleteOldestMessages_trace count s tr s' :
  Inv s -> deleteOldestMessages count s = Ok (tr, s') ->
  traceSpec s s' [] tr (skipn 1 (chronologicalMessageIds s)).
Proof.
  intros HI H. unfold deleteOldestMessages in H.
  destruct ((count =? 0) || (totalActiveMessages s =? 0))%bool;
    [ok_inv; apply traceSpec_nil|].
  bind_inv H r Eloop. destruct r as [[d tr0] s0].
  assert (HT : traceSpec s s0 [] tr0 (skipn 1 (chronologicalMessageIds s))).
  { eapply (deleteLoop_trace _ [0]); [| |exact Eloop].
    - rewrite (inv_chron _ HI). apply (iota_head _ (inv_count_pos _ HI)).
    - constructor; [|constructor]. unfold evictable.
      rewrite (inv_dummy _ HI). reflexivity. }
  destruct (0 <? d); ok_inv; exact HT.
Qed.

(** C3. Every record the eviction engine soft-deletes is, at that moment,
    the first id of the chronological index that is neither deleted nor a
    reply; within one call the evicted ids come in increasing chronological
    position, and they are exactly the records the call deletes.  The call
    may be made in any state [s] that holds the message store of a reachable
    state [s0]: the create operations call the engine in the reachable state
    itself, with count 1, and [updateParameters] calls it in
    [configured a b c d s0], the state with the new parameters written, with
    the excess over the new capacity as count. *)
Theorem eviction_takes_oldest count s0 s tr s' :
  reachable s0 ->
  storeOf s = storeOf s0 ->
  deleteOldestMessages count s = Ok (tr, s') ->
  Forall (fun ev => oldestEvictable (ev_before ev) (ev_id ev)) tr /\
  StronglySorted N.lt
    (map (messageIdToChronologicalIndex s) (evictedIds tr)) /\
  Forall (fun id =>
            nth_error (chronologicalMessageIds s)
              (N.to_nat (messageIdToChronologicalIndex s id)) = Some id)
         (evictedIds tr) /\
  (forall x, Message.isDeleted (messages s' x) = true <->
             Message.isDeleted (messages s x) = true \/ In x (evictedIds tr)).
Proof.
  intros Hreach Hstore H.
  assert (HI := Inv_store _ _ Hstore (reachable_Inv _ Hreach)).
  destruct (deleteOldestMessages_trace _ _ _ _ HI H)
    as (new & Htr & Hall & Hincl & Hsort & Hdel).
  cbn in Htr. subst new.
  assert (Hlt : forall id, In id (evictedIds tr) -> id < messageCount s).
  { intros id Hin. apply Hincl in Hin. rewrite (inv_chron _ HI) in Hin.
    apply iota_tail_In in Hin. lia. }
  assert (Hmap : map (messageIdToChronologicalIndex s) (evictedIds tr)
                 = evictedIds tr).
  { rewrite <- (map_id (evictedIds tr)) at 2. apply map_ext_in.
    intros id Hin. apply (inv_index _ HI), Hlt, Hin. }
  split; [exact Hall|]. split; [|split].
  - rewrite Hmap. apply Hsort. rewrite (inv_chron _ HI).
    apply iota_tail_sorted.
  - apply Forall_forall. intros id Hin.
    rewrite (inv_index _ HI id (Hlt id Hin)), (inv_chron _ HI).
    apply iota_nth, Hlt, Hin.
  - intros x. rewrite Hdel, orb_true_iff, existsb_exists. split.
    + intros [Hd|(y & Hy & E)]; [left; exact Hd|].
      right. apply N.eqb_eq in E. subst. exact Hy.
    + intros [Hd|Hin]; [left; exact Hd|].
      right. exists x. split; [exact Hin | apply N.eqb_refl].
Qed.

(** ** Capacity *)

Lemma deleteLoop_one ids :
  forall tr s d' tr' s',
    deleteLoop ids 0 1 tr s = Ok (d', tr', s') ->
    if existsb (evictable s) ids
    then totalActiveMessages s' + 1 = totalActiveMessages s
    else s' = s /\ d' = 0.
Proof.
  induction ids as [|id rest IH]; intros tr s d' tr' s' H; cbn in H.
  - ok_inv. cbn. auto.
  - cbn [existsb]. destruct (evictable s id) eqn:Hev; cbn [orb].
    + bind_inv H r Er. bind_inv Er s1 Hmark. bind_inv Er d1 Hd.
      apply checked_add_ok in Hd. destruct Hd as [-> _].
      injection Er as <-. cbn in H. ok_inv.
      destruct (evictable_inv _ _ Hev) as [Hlive _].
      destruct (mark_live_inv _ _ _ Hlive Hmark) as [(_ & _ & _ & Ht) ->].
      unfold markedState. cbv zeta.
      destruct (periodExists s (id / PERIOD_SIZE));
        destruct (negb (Message.replyToMessageId (messages s id) =? 0));
        cbn; lia.
    + cbn in H. apply IH in H. exact H.
Qed.

Lemma Inv_hasEvictable_tail s :
  Inv s ->
  existsb (evictable s) (skipn 1 (chronologicalMessageIds s)) = hasEvictable s.
Proof.
  intros HI. unfold hasEvictable. rewrite (inv_chron _ HI).
  rewrite (iota_head _ (inv_count_pos _ HI)) at 2. cbn [existsb].
  unfold evictable at 2. rewrite (inv_dummy _ HI). reflexivity.
Qed.

Lemma Inv_hasEvictable_total s :
  Inv s -> hasEvictable s = true -> 1 <= totalActiveMessages s.
Proof.
  intros HI H. unfold hasEvictable in H. apply existsb_exists in H.
  destruct H as (id & Hin & Hev). destruct (evictable_inv _ _ Hev) as [Hl _].
  rewrite (inv_total _ HI), (marked_countLive_in s id Hl _
                               (Inv_chron_NoDup _ HI) Hin). lia.
Qed.

Lemma evict_one_total s tr s' :
  Inv s -> deleteOldestMessages 1 s = Ok (tr, s') ->
  maxActiveMessages s' = maxActiveMessages s /\
  totalActiveMessages s' + (if hasEvictable s then 1 else 0)
  = totalActiveMessages s.
Proof.
  intros HI H.
  split; [apply tombstoneOnly_evict in H; apply H|].
  unfold deleteOldestMessages in H. cbn [N.eqb orb] in H.
  destruct (N.eqb_spec (totalActiveMessages s) 0) as [Hz|Hz].
  - injection H as <- <-. destruct (hasEvictable s) eqn:Hev; [|lia].
    apply (Inv_hasEvictable_total _ HI) in Hev. lia.
  - bind_inv H r Eloop. destruct r as [[d tr0] s0].
    replace (if 1 <? totalActiveMessages s then 1 else totalActiveMessages s)
      with 1 in Eloop
      by (destruct (N.ltb_spec 1 (totalActiveMessages s)); lia).
    apply deleteLoop_one in Eloop.
    rewrite (Inv_hasEvictable_tail _ HI) in Eloop.
    destruct (hasEvictable s).
    + destruct (0 <? d); ok_inv; cbn; lia.
    + destruct Eloop as [-> ->]. cbn in H. ok_inv. lia.
Qed.

Lemma makeRoom_total_effect s s1 :
  Inv s -> makeRoom s = Ok s1 ->
  maxActiveMessages s1 = maxActiveMessages s /\
  totalActiveMessages s1 +
    (if (maxActiveMessages s <=? totalActiveMessages s) && hasEvictable s
     then 1 else 0)
  = totalActiveMessages s.
Proof.
  intros HI H. unfold makeRoom in H.
  destruct (maxActiveMessages s <=? totalActiveMessages s); cbn [andb].
  - bind_inv H r E. destruct r as [tr s']. ok_inv. cbn.
    eapply evict_one_total; eauto.
  - ok_inv. split; [reflexivity | lia].
Qed.

(** The effect of one successful create on the active total. *)
Lemma create_total e op s s' :
  Inv s -> isCreate op = true -> step e op s = Ok s' ->
  maxActiveMessages s' = maxActiveMessages s /\
  totalActiveMessages s' =
    if (maxActiveMessages s <=? totalActiveMessages s) && hasEvictable s
    then totalActiveMessages s else totalActiveMessages s + 1.
Proof.
  intros HI Hop H. destruct op; try discriminate Hop; cbn [step] in H.
  - apply postMessage_inv in H. destruct H as (_ & s1 & Hroom & _ & ->).
    destruct (makeRoom_total_effect _ _ HI Hroom) as [Hm Ht]. cbn.
    split; [exact Hm|].
    destruct ((maxActiveMessages s <=? totalActiveMessages s) && hasEvictable s);
      lia.
  - apply replyToMessage_inv in H.
    destruct H as (_ & _ & s1 & Hroom & _ & ->).
    destruct (makeRoom_total_effect _ _ HI Hroom) as [Hm Ht]. cbn.
    split; [exact Hm|].
    destruct ((maxActiveMessages s <=? totalActiveMessages s) && hasEvictable s);
      lia.
Qed.


(** ** Frames of the operations on messages *)

Lemma markedState_profiles messageId s :
  profilesOf (markedState messageId s) = profilesOf s /\
  activeReplyCount (markedState messageId s) 0 = activeReplyCount s 0.
Proof.
  unfold markedState. cbv zeta.
  destruct (periodExists s (messageId / PERIOD_SIZE));
    destruct (N.eqb_spec (Message.replyToMessageId (messages s messageId)) 0)
      as [E|E]; cbn; (split; [reflexivity|]); try reflexivity;
    apply upd_other; congruence.
Qed.

Lemma mark_profiles messageId s s' :
  _markMessageAsDeleted messageId s = Ok s' ->
  profilesOf s' = profilesOf s /\ activeReplyCount s' 0 = activeReplyCount s 0.
Proof.
  intros H. destruct (Message.isDeleted (messages s messageId)) eqn:Hd.
  - rewrite (mark_deleted_noop _ _ Hd) in H. ok_inv. auto.
  - destruct (mark_live_inv _ _ _ Hd H) as [_ ->]. apply markedState_profiles.
Qed.

Lemma evict_profiles count s tr s' :
  deleteOldestMessages count s = Ok (tr, s') ->
  profilesOf s' = profilesOf s /\ activeReplyCount s' 0 = activeReplyCount s 0.
Proof.
  intros H.
  eapply deleteOldestMessages_rel
    with (R := fun a b => profilesOf b = profilesOf a /\
                          activeReplyCount b 0 = activeReplyCount a 0)
         (I := fun _ => True) (count := count) (tr := tr).
  - auto.
  - intros a b c [A1 A2] [B1 B2]. split; congruence.
  - intros a ev. split; reflexivity.
  - intros a id b _ _ Hm. eapply mark_profiles; eauto.
  - apply Forall_True.
  - exact H.
Qed.

Lemma makeRoom_profiles s s1 :
  makeRoom s = Ok s1 ->
  profilesOf s1 = profilesOf s /\ activeReplyCount s1 0 = activeReplyCount s 0.
Proof.
  unfold makeRoom. intros H.
  destruct (maxActiveMessages s <=? totalActiveMessages s).
  - bind_inv H r E. destruct r as [tr s']. ok_inv. cbn.
    eapply evict_profiles; eauto.
  - ok_inv. auto.
Qed.

Lemma rev_snoc {A : Type} (l : list A) (x : A) : rev (l ++ [x]) = x :: rev l.
Proof. apply rev_unit. Qed.

(** The newest record, when it is a live main message, is what
    [getLatestMessages(1)] returns. *)
Lemma getLatestMessages_newest s ids id :
  chronologicalMessageIds s = ids ++ [id] ->
  isPublicActive (messages s id) = true ->
  1 <= totalActiveMessages s ->
  1 <= maxReturnCount s ->
  getLatestMessages 1 s = Ok [messages s id].
Proof.
  intros Hch Hpub Ht Hmax. unfold getLatestMessages.
  apply N.leb_le in Hmax. rewrite Hmax. cbn [require bind].
  replace (if 1 <? totalActiveMessages s then 1 else totalActiveMessages s)
    with 1 by (destruct (N.ltb_spec 1 (totalActiveMessages s)); lia).
  cbn [N.eqb]. rewrite Hch, rev_snoc. cbn [latestLoop N.ltb N.compare].
  rewrite Hpub. cbn. destruct (rev ids); reflexivity.
Qed.

(** ** The profile directory *)

Lemma strlen_pos h : (0 <? strlen h) = true <-> h <> "".
Proof.
  unfold strlen. destruct h; cbn; split; intros H; try congruence;
    try reflexivity.
Qed.

Lemma updateProfile_inv e nick av s s' :
  updateProfile e nick av s = Ok s' ->
  let x := msg_sender e in
  let old := UserProfile.nickname (addressToProfile s x) in
  validNickname nick = true /\
  (nicknameToAddress s nick = 0 \/ nicknameToAddress s nick = x) /\
  addressToProfile s' =
    upd (addressToProfile s) x (UserProfile.mk nick av true (block_timestamp e)) /\
  nicknameToAddress s' =
    upd (if (0 <? strlen old) && (nicknameToAddress s old =? x)
         then upd (nicknameToAddress s) old 0 else nicknameToAddress s)
        nick x.
Proof.
  unfold updateProfile. intros H. cbv zeta. ok_inv.
  split; [unfold validNickname; rewrite E, E0, E1; reflexivity|].
  split.
  - apply andb_false_iff in C. destruct C as [C|C]; b2p; auto.
  - destruct ((0 <? strlen (UserProfile.nickname
                              (addressToProfile s (msg_sender e)))) &&
              (nicknameToAddress s
                 (UserProfile.nickname (addressToProfile s (msg_sender e)))
               =? msg_sender e)); split; reflexivity.
Qed.

Lemma updateProfile_ok e nick av s :
  validNickname nick = true ->
  nicknameToAddress s nick = 0 \/ nicknameToAddress s nick = msg_sender e ->
  exists s', updateProfile e nick av s = Ok s'.
Proof.
  unfold validNickname, updateProfile. intros Hv Hfree.
  apply andb_true_iff in Hv. destruct Hv as [Hv H3].
  apply andb_true_iff in Hv. destruct Hv as [H1 H2].
  rewrite H1, H2, H3. cbn [require bind].
  replace (negb (nicknameToAddress s nick =? 0) &&
           negb (nicknameToAddress s nick =? msg_sender e)) with false.
  - eauto.
  - destruct Hfree as [->| ->]; [reflexivity|].
    rewrite N.eqb_refl. cbn. symmetry. apply andb_false_r.
Qed.

Lemma deactivateProfile_inv e s s' :
  deactivateProfile e s = Ok s' ->
  let x := msg_sender e in
  let cur := UserProfile.nickname (addressToProfile s x) in
  cur <> "" /\
  addressToProfile s' =
    upd (addressToProfile s) x
        (UserProfile.setIsActive false (addressToProfile s x)) /\
  nicknameToAddress s' = released x cur (nicknameToAddress s).
Proof.
  unfold deactivateProfile, released. intros H. cbv zeta. ok_inv.
  split; [apply strlen_pos; assumption|].
  destruct (nicknameToAddress s
              (UserProfile.nickname (addressToProfile s (msg_sender e)))
            =? msg_sender e); split; reflexivity.
Qed.

Lemma updateAvatar_inv e av s s' :
  updateAvatar e av s = Ok s' ->
  addressToProfile s' =
    upd (addressToProfile s) (msg_sender e)
        (UserProfile.setAvatarCode av (addressToProfile s (msg_sender e))) /\
  nicknameToAddress s' = nicknameToAddress s.
Proof. unfold updateAvatar. intros H. ok_inv. split; reflexivity. Qed.

(** Operations on messages, on the parameters and on the owner leave the
    profiles alone. *)
Lemma step_profiles e op s s' :
  match op with
  | UpdateProfile _ _ | UpdateAvatar _ | DeactivateProfile => False
  | _ => True
  end ->
  step e op s = Ok s' ->
  addressToProfile s' = addressToProfile s /\
  nicknameToAddress s' = nicknameToAddress s.
Proof.
  destruct op; cbn [step]; intros Hop H; try contradiction.
  - apply postMessage_inv in H. destruct H as (_ & s1 & Hroom & _ & ->).
    apply makeRoom_profiles in Hroom. destruct Hroom as [[= Ha Hn _ _ _] _].
    cbn. split; assumption.
  - apply replyToMessage_inv in H.
    destruct H as (_ & _ & s1 & Hroom & _ & ->).
    apply makeRoom_profiles in Hroom. destruct Hroom as [[= Ha Hn _ _ _] _].
    cbn. split; assumption.
  - unfold markMessageAsDeleted in H. ok_inv.
    apply mark_profiles in E2. destruct E2 as [[= Ha Hn _ _ _] _].
    cbn. split; assumption.
  - apply updateParameters_inv in H.
    destruct H as [_ [(_ & tr & H) | (_ & ->)]]; [|split; reflexivity].
    apply evict_profiles in H. destruct H as [[= Ha Hn _ _ _] _].
    split; assumption.
  - unfold transferOwnership in H. ok_inv. split; reflexivity.
Qed.

Lemma validNickname_nonempty h : validNickname h = true -> h <> "".
Proof.
  unfold validNickname. intros H.
  apply andb_true_iff in H. destruct H as [H _].
  apply andb_true_iff in H. destruct H as [H _].
  apply strlen_pos. exact H.
Qed.

Lemma ProfInv_init e : ProfInv (constructor e).
Proof. constructor; cbn; intros; congruence. Qed.

Lemma ProfInv_same s s' :
  addressToProfile s' = addressToProfile s ->
  nicknameToAddress s' = nicknameToAddress s ->
  ProfInv s -> ProfInv s'.
Proof.
  intros Ha Hn [H1 H2 H3]. constructor; rewrite ?Ha, ?Hn; auto.
Qed.

Lemma ProfInv_updateProfile e nick av s s' :
  ProfInv s -> updateProfile e nick av s = Ok s' -> ProfInv s'.
Proof.
  intros [H1 H2 H3] H. apply updateProfile_inv in H. cbv zeta in H.
  destruct H as (Hv & Hfree & Ha & Hn).
  set (x := msg_sender e) in *.
  set (old := UserProfile.nickname (addressToProfile s x)) in *.
  constructor; intros a; rewrite Ha.
  - destruct (N.eq_dec a x) as [->|Hne];
      [rewrite upd_same | rewrite upd_other by exact Hne]; cbn.
    + intros _. apply validNickname_nonempty, Hv.
    + apply H1.
  - destruct (N.eq_dec a x) as [->|Hne];
      [rewrite upd_same | rewrite upd_other by exact Hne]; cbn.
    + intros _. exact Hv.
    + apply H2.
  - intros Hnz. destruct (N.eq_dec a x) as [->|Hne];
      [rewrite upd_same | rewrite upd_other by exact Hne]; cbn.
    + intros _. rewrite Hn. apply upd_same.
    + intros Hact. specialize (H3 a Hnz Hact). rewrite Hn.
      rewrite upd_other by (intros E; rewrite E in H3; destruct Hfree; congruence).
      destruct ((0 <? strlen old) && (nicknameToAddress s old =? x)) eqn:C;
        [|exact H3].
      apply andb_true_iff in C. destruct C as [_ C]. apply N.eqb_eq in C.
      rewrite upd_other; [exact H3|]. intros E. rewrite E in H3. congruence.
Qed.

Lemma ProfInv_updateAvatar e av s s' :
  ProfInv s -> updateAvatar e av s = Ok s' -> ProfInv s'.
Proof.
  intros [H1 H2 H3] H. apply updateAvatar_inv in H. destruct H as [Ha Hn].
  constructor; intros a; rewrite Ha, ?Hn;
    (destruct (N.eq_dec a (msg_sender e)) as [->|Hne];
     [rewrite upd_same | rewrite upd_other by exact Hne]); cbn; auto.
Qed.

Lemma ProfInv_deactivateProfile e s s' :
  ProfInv s -> deactivateProfile e s = Ok s' -> ProfInv s'.
Proof.
  intros [H1 H2 H3] H. apply deactivateProfile_inv in H. cbv zeta in H.
  destruct H as (Hcur & Ha & Hn).
  constructor; intros a; rewrite Ha.
  - destruct (N.eq_dec a (msg_sender e)) as [->|Hne];
      [rewrite upd_same | rewrite upd_other by exact Hne]; cbn;
      [discriminate | apply H1].
  - destruct (N.eq_dec a (msg_sender e)) as [->|Hne];
      [rewrite upd_same | rewrite upd_other by exact Hne]; cbn; apply H2.
  - intros Hnz. destruct (N.eq_dec a (msg_sender e)) as [->|Hne];
      [rewrite upd_same | rewrite upd_other by exact Hne]; cbn;
      [discriminate|].
    intros Hact. specialize (H3 a Hnz Hact). rewrite Hn. unfold released.
    destruct (N.eqb_spec
                (nicknameToAddress s
                   (UserProfile.nickname (addressToProfile s (msg_sender e))))
                (msg_sender e)) as [C|C]; [|exact H3].
    rewrite upd_other; [exact H3|]. intros E. rewrite E in H3. congruence.
Qed.

Lemma ProfInv_step e op s s' : ProfInv s -> step e op s = Ok s' -> ProfInv s'.
Proof.
  intros HP H.
  destruct op;
    try (match type of H with
         | step _ ?op _ = _ =>
             destruct (step_profiles e op s s' I H) as [Ha Hn]
         end; eapply ProfInv_same; eauto; fail);
    cbn [step] in H.
  - eapply ProfInv_updateProfile; eauto.
  - eapply ProfInv_updateAvatar; eauto.
  - eapply ProfInv_deactivateProfile; eauto.
Qed.

Lemma reachable_ProfInv s : reachable s -> ProfInv s.
Proof.
  induction 1 as [e|s e op s' _ IH Hstep];
    [apply ProfInv_init | eapply ProfInv_step; eauto].
Qed.

(** Among the identities other than the null address, an active handle has
    one owner, whatever the directory says. *)
Lemma active_handle_unique s a b :
  reachable s -> a <> 0 -> b <> 0 ->
  UserProfile.isActive (addressToProfile s a) = true ->
  UserProfile.isActive (addressToProfile s b) = true ->
  UserProfile.nickname (addressToProfile s a) =
  UserProfile.nickname (addressToProfile s b) ->
  a = b.
Proof.
  intros Hr Ha Hb Aa Ab E. apply reachable_ProfInv in Hr.
  rewrite <- (pi_directory _ Hr a Ha Aa), <- (pi_directory _ Hr b Hb Ab), E.
  reflexivity.
Qed.

Lemma release_frees_handle e op s s1 h :
  h <> "" ->
  holdsHandle s h (msg_sender e) ->
  releases h op = true ->
  step e op s = Ok s1 ->
  nicknameToAddress s1 h = 0.
Proof.
  intros Hh (Hact & Hnick & Hdir) Hrel H.
  destruct op; try discriminate Hrel; cbn [step releases] in *.
  - apply updateProfile_inv in H. cbv zeta in H.
    destruct H as (Hv & _ & _ & Hn). rewrite Hn.
    apply negb_true_iff in Hrel.
    destruct (String.eqb_spec nickname h) as [|Hne]; [discriminate|].
    rewrite upd_other by congruence. rewrite Hnick, Hdir, N.eqb_refl.
    replace (0 <? strlen h) with true.
    + cbn. apply upd_same.
    + symmetry. apply strlen_pos. exact Hh.
  - apply deactivateProfile_inv in H. cbv zeta in H.
    destruct H as (_ & _ & Hn). rewrite Hn, Hnick. unfold released.
    rewrite Hdir, N.eqb_refl. apply upd_same.
Qed.

(** C9. In a reachable state a handle has at most one holder (an identity
    with an active profile under that handle to which the directory entry
    points); once the holder renames away from the handle or deactivates,
    the claim of the handle by a different identity succeeds and makes that
    identity the holder. *)
Theorem handle_unique_and_reusable s h a b e op s1 e' av' :
  reachable s ->
  holdsHandle s h a ->
  holdsHandle s h b ->
  msg_sender e = a ->
  releases h op = true ->
  step e op s = Ok s1 ->
  msg_sender e' <> a ->
  a = b /\
  exists s2,
    step e' (UpdateProfile h av') s1 = Ok s2 /\
    holdsHandle s2 h (msg_sender e').
Proof.
  intros Hreach Ha Hb He Hrel Hstep Hne. subst a.
  split.
  { destruct Ha as (_ & _ & <-). destruct Hb as (_ & _ & <-). reflexivity. }
  assert (HP := reachable_ProfInv _ Hreach).
  assert (Hvalid : validNickname h = true).
  { destruct Ha as (Hact & Hnick & _). rewrite <- Hnick.
    apply (pi_valid _ HP), (pi_named _ HP), Hact. }
  assert (Hfree := release_frees_handle _ _ _ _ _
                     (validNickname_nonempty _ Hvalid) Ha Hrel Hstep).
  destruct (updateProfile_ok e' h av' s1 Hvalid (or_introl Hfree)) as [s2 H2].
  exists s2. split; [exact H2|].
  apply updateProfile_inv in H2. cbv zeta in H2.
  destruct H2 as (_ & _ & Hp & Hn). unfold holdsHandle.
  rewrite Hp, Hn, !upd_same. cbn. auto.
Qed.

(** ** Replying to the dummy message *)

Lemma createChecks_ok e content s :
  (0 <? strlen content) = true ->
  (strlen content <=? maxMessageLength s) = true ->
  lastMessageTime s (msg_sender e) <= block_timestamp e ->
  messageCooldown s <= block_timestamp e - lastMessageTime s (msg_sender e) ->
  UserProfile.nickname (addressToProfile s (msg_sender e)) <> "" ->
  UserProfile.isActive (addressToProfile s (msg_sender e)) = true ->
  createChecks e content s = Ok tt.
Proof.
  intros H1 H2 H3 H4 H5 H6. unfold createChecks.
  rewrite H1, H2. cbn [require bind]. rewrite (checked_sub_fits _ _ H3).
  cbn [bind]. apply N.leb_le in H4. rewrite H4. cbn [require bind].
  apply strlen_pos in H5. rewrite H5, H6. reflexivity.
Qed.

(** C10. An author with an active profile whose cooldown has elapsed can
    reply to message 0 with a valid body: the call succeeds, the new record
    has [replyToMessageId = 0], passes the filter of the query surface (it is
    what [getLatestMessages(1)] returns) and the test of the eviction engine,
    and yet its id is appended to [messageReplies 0] and [activeReplyCount 0]
    grows by one. *)
Theorem reply_to_dummy_is_top_level e body s :
  reachable s ->
  messageCount s < MAX_UINT256 ->
  UserProfile.isActive (addressToProfile s (msg_sender e)) = true ->
  lastMessageTime s (msg_sender e) <= block_timestamp e ->
  messageCooldown s <= block_timestamp e - lastMessageTime s (msg_sender e) ->
  0 < strlen body ->
  strlen body <= maxMessageLength s ->
  exists s',
    replyToMessage e 0 body s = Ok s' /\
    messageCount s' = messageCount s + 1 /\
    Message.replyToMessageId (messages s' (messageCount s)) = 0 /\
    Message.isDeleted (messages s' (messageCount s)) = false /\
    isPublicActive (messages s' (messageCount s)) = true /\
    evictable s' (messageCount s) = true /\
    messageReplies s' 0 = messageReplies s 0 ++ [messageCount s] /\
    activeReplyCount s' 0 = activeReplyCount s 0 + 1 /\
    (1 <= maxReturnCount s ->
     getLatestMessages 1 s' = Ok [messages s' (messageCount s)]).
Proof.
  intros Hreach Hmax Hact Htime Hcool Hbody Hlen.
  assert (HI := reachable_Inv _ Hreach).
  assert (HP := reachable_ProfInv _ Hreach).
  assert (Hchecks : createChecks e body s = Ok tt).
  { apply createChecks_ok; auto.
    - apply N.ltb_lt, Hbody.
    - apply N.leb_le, Hlen.
    - apply (pi_named _ HP), Hact. }
  destruct (makeRoom_total _ HI) as [s1 Hroom].
  assert (HI1 := Inv_makeRoom _ _ HI Hroom).
  destruct (tombstoneOnly_makeRoom _ _ Hroom) as (Hc1 & Hch1 & Hr1 & _ & _).
  destruct (makeRoom_profiles _ _ Hroom) as [[= Hp1 Hn1 Hret1 _ _] Hz1].
  assert (Hfit : messageCount s1 + 1 <= MAX_UINT256) by lia.
  assert (Hpos := inv_count_pos _ HI).
  exists (appendMessage e (Some 0) body s1).
  split.
  { apply replyToMessage_ok; auto; [lia|]. apply Inv_canAppend; auto. }
  rewrite <- Hc1.
  split; [reflexivity|].
  assert (Hnew : messages (appendMessage e (Some 0) body s1) (messageCount s1)
                 = newMessage e 0 body s1) by apply upd_same.
  unfold evictable. rewrite Hnew.
  repeat (split; [reflexivity|]).
  split; [cbn; rewrite upd_same, Hr1; reflexivity|].
  split; [cbn; rewrite upd_same, Hz1; reflexivity|].
  intros Hret. rewrite <- Hnew.
  apply getLatestMessages_newest with (ids := chronologicalMessageIds s1).
  - reflexivity.
  - rewrite Hnew. reflexivity.
  - cbn. lia.
  - cbn. rewrite Hret1. exact Hret.
Qed.

(** ** Order of the preconditions *)

Lemma bind_require_true {A : Type} (m : string) (k : unit -> Result A) :
  bind (require true m) k = k tt.
Proof. reflexivity. Qed.

(** Decides the next [require] of the goal from the hypothesis [H] on the
    first violated precondition. *)
Ltac next_check H :=
  lazymatch goal with
  | |- bind (require ?c _) _ = _ =>
      let C := fresh "C" in
      destruct c eqn:C;
      [ rewrite bind_require_true; cbv beta; cbn [negb] in H
      | cbn [negb] in H; injection H as <-; reflexivity ]
  end.

(** C7 (amended). A create operation checks its preconditions in the order:
    parent id exists (replies only), body non-empty, body within the length
    limit, cooldown elapsed, profile exists, profile active.  When several
    are violated the call reverts with the reason of the first one in that
    order, and the state is left as it was. *)
Theorem create_reports_first_violation e s reply body c :
  lastMessageTime s (msg_sender e) <= block_timestamp e ->
  firstViolated sourceOrder e s reply body = Some c ->
  step e (createOp reply body) s = Fail (Revert (reasonOf c)) /\
  exec e (createOp reply body) s = s.
Proof.
  intros Htime H.
  assert (Hstep : step e (createOp reply body) s = Fail (Revert (reasonOf c))).
  { unfold firstViolated, sourceOrder in H. cbn [find holds] in H.
    destruct reply as [q|]; cbn [createOp step].
    - cbv beta delta [replyToMessage]. next_check H. next_check H. next_check H.
      rewrite (checked_sub_fits _ _ Htime). cbn [bind].
      next_check H. next_check H. next_check H. discriminate H.
    - cbv beta delta [postMessage]. cbn [negb] in H. next_check H. next_check H.
      rewrite (checked_sub_fits _ _ Htime). cbn [bind].
      next_check H. next_check H. next_check H. discriminate H. }
  split; [exact Hstep|]. unfold exec. rewrite Hstep. reflexivity.
Qed.

(** Conversely, a create operation with no violated precondition does not
    revert with any of these reasons: it gets past the checks. *)
Lemma create_passes_checks e s reply body :
  lastMessageTime s (msg_sender e) <= block_timestamp e ->
  firstViolated sourceOrder e s reply body = None ->
  createChecks e body s = Ok tt.
Proof.
  intros Htime H. unfold firstViolated, sourceOrder in H. cbn [find holds] in H.
  repeat match type of H with
  | (if negb ?c then _ else _) = None =>
      destruct c eqn:?; cbn [negb] in H; [|discriminate H]
  end.
  b2p. apply createChecks_ok; auto.
  - apply N.ltb_lt; assumption.
  - apply N.leb_le; assumption.
  - apply strlen_pos. apply N.ltb_lt. assumption.
Qed.

(** ** Scenarios *)

Lemma reachable_exec e op s : reachable s -> reachable (exec e op s).
Proof.
  intros H. unfold exec. destruct (step e op s) eqn:E; [|exact H].
  eapply reachable_step; eauto.
Qed.

Lemma reachable_fold txs : forall s,
  reachable s ->
  reachable (fold_left (fun s tx => exec (fst tx) (snd tx) s) txs s).
Proof.
  induction txs as [|[e op] txs IH]; intros s H; cbn; [exact H|].
  apply IH, reachable_exec, H.
Qed.

Lemma reachable_after txs : reachable (after txs).
Proof. apply reachable_fold, reachable_init. Qed.

(** C1 (fails on the code). After a reply to the dummy message 0 has been
    deleted, [activeReplyCount 0] is still 1 although [messageReplies 0]
    holds no live id: the counter of parent 0 does not equal the number of
    non-deleted ids of its index, and [getRepliesForMessage 0] returns one
    blank record. *)
Theorem reply_counter_of_dummy_drifts :
  reachable dummyReplyDeleted /\
  messageReplies dummyReplyDeleted 0 = [1] /\
  Message.isDeleted (messages dummyReplyDeleted 1) = true /\
  countLive dummyReplyDeleted (messageReplies dummyReplyDeleted 0) = 0 /\
  activeReplyCount dummyReplyDeleted 0 = 1 /\
  getRepliesForMessage 0 dummyReplyDeleted = Ok [Message.zero].
Proof.
  split; [apply reachable_after|]. vm_compute. repeat split.
Qed.



Lemma eviction_takes_oldest_witness :
  reachable board /\
  storeOf boardConfigured = storeOf board /\
  updateParameters deployer 768 60 50 1 board = Ok (snd boardTrimmed) /\
  deleteOldestMessages 3 boardConfigured = Ok boardTrimmed /\
  evictedIds (fst boardTrimmed) = [1; 3; 4] /\
  Forall (fun ev => oldestEvictable (ev_before ev) (ev_id ev))
         (fst boardTrimmed) /\
  StronglySorted N.lt
    (map (messageIdToChronologicalIndex boardConfigured)
         (evictedIds (fst boardTrimmed))) /\
  (forall x, Message.isDeleted (messages (snd boardTrimmed) x) = true <->
             Message.isDeleted (messages boardConfigured x) = true \/
             In x (evictedIds (fst boardTrimmed))).
Proof.
  assert (Hr : reachable board) by apply reachable_after.
  assert (Hst : storeOf boardConfigured = storeOf board)
    by (vm_compute; reflexivity).
  assert (He : deleteOldestMessages 3 boardConfigured
               = Ok (fst boardTrimmed, snd boardTrimmed))
    by (vm_compute; reflexivity).
  destruct (eviction_takes_oldest 3 board boardConfigured _ _ Hr Hst He)
    as (H1 & H2 & _ & H4).
  split; [exact Hr|]. split; [exact Hst|]. split; [vm_compute; reflexivity|].
  split; [vm_compute; reflexivity|]. split; [vm_compute; reflexivity|].
  split; [exact H1|]. split; [exact H2 | exact H4].
Defined.

Lemma eviction_spares_replies_witness :
  deleteOldestMessages 2 board = Ok boardEvicted /\
  Message.replyToMessageId (messages board 2) <> 0 /\
  Message.isDeleted (messages (snd boardEvicted) 2) =
    Message.isDeleted (messages board 2) /\
  activeReplyCount (snd boardEvicted) 1 = activeReplyCount board 1.
Proof.
  assert (He : deleteOldestMessages 2 board
               = Ok (fst boardEvicted, snd boardEvicted))
    by (vm_compute; reflexivity).
  assert (Hp : Message.replyToMessageId (messages board 2) <> 0)
    by (vm_compute; discriminate).
  destruct (eviction_spares_replies 2 board _ _ He) as [Hm Hc].
  split; [vm_compute; reflexivity|]. split; [exact Hp|].
  split; [apply (Hm 2 Hp) | apply Hc].
Defined.

(** C5 (fails on the code). [thread] holds one live main message and one
    live reply.  [getLatestMessages 2] sizes its result by
    [totalActiveMessages], which counts the reply, and returns the post
    followed by a blank record that is no record of the store. *)
Theorem getLatestMessages_pads_with_blanks :
  reachable thread /\
  2 <= maxReturnCount thread /\
  filter (fun id => isPublicActive (messages thread id))
         (chronologicalMessageIds thread) = [1] /\
  getLatestMessages 2 thread = Ok [messages thread 1; Message.zero] /\
  (forall id, id < messageCount thread -> messages thread id <> Message.zero).
Proof.
  split; [apply reachable_after|].
  split; [vm_compute; discriminate|].
  split; [vm_compute; reflexivity|].
  split; [vm_compute; reflexivity|].
  intros id Hid.
  assert (Hcases : id = 0 \/ id = 1 \/ id = 2).
  { change (messageCount thread) with 3 in Hid. lia. }
  destruct Hcases as [->|[->| ->]]; vm_compute; discriminate.
Qed.

(** C6 (fails on the code). In [thread] the sequence of live main messages
    has one element.  Page 1 of size 1 starts past its end and is not empty:
    it holds one blank record; page 0 of size 2 carries the same padding. *)
Theorem pagination_pads_with_blanks :
  reachable thread /\
  filter (fun id => isPublicActive (messages thread id))
         (chronologicalMessageIds thread) = [1] /\
  getMessagesWithPagination 0 1 thread = Ok [messages thread 1] /\
  getMessagesWithPagination 1 1 thread = Ok [Message.zero] /\
  getMessagesWithPagination 0 2 thread = Ok [messages thread 1; Message.zero].
Proof.
  split; [apply reachable_after|]. vm_compute. repeat split.
Qed.

(** C7 (as stated, fails). A sender without profile posts an empty body:
    the first violated precondition in the order of the specification is the
    profile, but the call reverts with the reason of the empty body. *)
Lemma create_checks_body_before_profile :
  firstViolated specOrder (alice 2000) (constructor deployer) None ""
    = Some ProfileExists /\
  step (alice 2000) (PostMessage "") (constructor deployer)
    = Fail (Revert (reasonOf BodyNonEmpty)) /\
  reasonOf BodyNonEmpty <> reasonOf ProfileExists /\
  firstViolated specOrder (alice 2000) (constructor deployer) (Some 7) "hi"
    = Some ProfileExists /\
  step (alice 2000) (ReplyToMessage 7 "hi") (constructor deployer)
    = Fail (Revert (reasonOf ParentExists)).
Proof. vm_compute. repeat split. discriminate. Qed.

Lemma create_reports_first_violation_witness :
  lastMessageTime (constructor deployer) (msg_sender (alice 2000))
    <= block_timestamp (alice 2000) /\
  firstViolated sourceOrder (alice 2000) (constructor deployer) (Some 7) ""
    = Some ParentExists /\
  step (alice 2000) (createOp (Some 7) "") (constructor deployer)
    = Fail (Revert (reasonOf ParentExists)) /\
  exec (alice 2000) (createOp (Some 7) "") (constructor deployer)
    = constructor deployer.
Proof.
  assert (Ht : lastMessageTime (constructor deployer) (msg_sender (alice 2000))
               <= block_timestamp (alice 2000)) by (vm_compute; discriminate).
  assert (Hf : firstViolated sourceOrder (alice 2000) (constructor deployer)
                 (Some 7) "" = Some ParentExists) by reflexivity.
  split; [exact Ht|]. split; [exact Hf|].
  exact (create_reports_first_violation (alice 2000) (constructor deployer)
           (Some 7) "" ParentExists Ht Hf).
Defined.

Lemma records_immutable_tombstones_monotone_witness :
  steps thread threadDeleted /\
  1 < messageCount thread /\
  Message.content (messages threadDeleted 1) = "hello" /\
  Message.isDeleted (messages threadDeleted 1) = true /\
  Message.sender (messages threadDeleted 1) = Message.sender (messages thread 1).
Proof.
  assert (Hs : steps thread threadDeleted).
  { eapply steps_step; [|apply steps_refl].
    instantiate (1 := MarkMessageAsDeleted 1). instantiate (1 := alice 2200).
    vm_compute. reflexivity. }
  assert (Hid : 1 < messageCount thread) by (vm_compute; reflexivity).
  destruct (records_immutable_tombstones_monotone thread threadDeleted 1 Hs Hid)
    as (H1 & _).
  split; [exact Hs|]. split; [exact Hid|].
  split; [vm_compute; reflexivity|]. split; [vm_compute; reflexivity|].
  exact H1.
Defined.

Lemma handle_unique_and_reusable_witness :
  reachable joined /\
  holdsHandle joined "alice" 10 /\
  step (alice 2100) DeactivateProfile joined = Ok aliceGone /\
  10 = 10 /\
  exists s2,
    step (bob 2200) (UpdateProfile "alice" "b1") aliceGone = Ok s2 /\
    holdsHandle s2 "alice" 20.
Proof.
  assert (Hr : reachable joined) by apply reachable_after.
  assert (Hh : holdsHandle joined "alice" 10) by (vm_compute; repeat split).
  assert (Hs : step (alice 2100) DeactivateProfile joined = Ok aliceGone)
    by (vm_compute; reflexivity).
  assert (Hne : msg_sender (bob 2200) <> 10) by (vm_compute; discriminate).
  split; [exact Hr|]. split; [exact Hh|]. split; [exact Hs|].
  exact (handle_unique_and_reusable joined "alice" 10 10 (alice 2100)
           DeactivateProfile aliceGone (bob 2200) "b1"
           Hr Hh Hh eq_refl eq_refl Hs Hne).
Defined.

Lemma reply_to_dummy_is_top_level_witness :
  reachable joined /\
  UserProfile.isActive (addressToProfile joined 10) = true /\
  exists s',
    replyToMessage (alice 2100) 0 "x" joined = Ok s' /\
    Message.replyToMessageId (messages s' 1) = 0 /\
    messageReplies s' 0 = [1] /\
    activeReplyCount s' 0 = 1.
Proof.
  assert (Hr : reachable joined) by apply reachable_after.
  assert (Ha : UserProfile.isActive (addressToProfile joined 10) = true)
    by reflexivity.
  destruct (reply_to_dummy_is_top_level (alice 2100) "x" joined Hr)
    as (s' & H1 & _ & H3 & _ & _ & _ & H7 & H8 & _).
  - vm_compute. reflexivity.
  - exact Ha.
  - vm_compute. discriminate.
  - vm_compute. discriminate.
  - vm_compute. reflexivity.
  - vm_compute. discriminate.
  - split; [exact Hr|]. split; [exact Ha|]. exists s'.
    split; [exact H1|]. split; [exact H3|].
    split; [exact H7 | exact H8].
Defined.

(** * Further properties of the contract *)

(** ** The query loops *)

Lemma replaceAt_middle {A : Type} (filled : list A) (x m : A) (rest : list A) :
  replaceAt (filled ++ x :: rest) (List.length filled) m
  = Some (filled ++ m :: rest).
Proof.
  induction filled as [|a filled IH]; cbn; [reflexivity|].
  rewrite IH. reflexivity.
Qed.

Lemma store_next {A : Type} (filled : list A) (x m : A) (rest : list A) :
  store (filled ++ x :: rest) (N.of_nat (List.length filled)) m
  = Ok ((filled ++ [m]) ++ rest).
Proof.
  unfold store. rewrite Nat2N.id, replaceAt_middle, <- app_assoc. reflexivity.
Qed.

Lemma padded_nil k : padded k [] = repeat Message.zero k.
Proof. unfold padded. rewrite firstn_nil, Nat.sub_0_r. reflexivity. Qed.

Lemma padded_zero found : padded 0 found = [].
Proof. reflexivity. Qed.

Lemma padded_cons k m found : padded (S k) (m :: found) = m :: padded k found.
Proof. reflexivity. Qed.

Lemma padded_exact found : padded (List.length found) found = found.
Proof.
  unfold padded. rewrite firstn_all, Nat.sub_diag. apply app_nil_r.
Qed.

(** The loop of the three index queries fills the free slots with the live
    records of the index, in order, and leaves the other slots blank. *)
Lemma activeLoop_shape s ids :
  forall filled k,
    N.of_nat (List.length filled + k) <= MAX_UINT256 ->
    activeLoop ids (N.of_nat (List.length filled + k))
      (N.of_nat (List.length filled)) (filled ++ repeat Message.zero k) s
    = Ok (filled ++ padded k (liveRecords s ids)).
Proof.
  induction ids as [|id rest IH]; intros filled k Hmax; cbn [activeLoop].
  - unfold liveRecords. cbn. rewrite padded_nil. reflexivity.
  - destruct k as [|k].
    + rewrite Nat.add_0_r, N.ltb_irrefl. reflexivity.
    + replace (N.of_nat (List.length filled) <?
               N.of_nat (List.length filled + S k)) with true
        by (symmetry; apply N.ltb_lt; lia).
      unfold liveRecords. cbn [filter]. fold (live s id).
      destruct (live s id); cbn [negb map].
      * cbn [repeat]. rewrite store_next. cbn [bind].
        rewrite checked_add_fits by lia. cbn [bind].
        replace (N.of_nat (List.length filled) + 1)
          with (N.of_nat (List.length (filled ++ [messages s id])))
          by (rewrite length_app; cbn; lia).
        replace (List.length filled + S k)%nat
          with (List.length (filled ++ [messages s id]) + k)%nat
          by (rewrite length_app; cbn; lia).
        rewrite IH by (rewrite length_app; cbn [List.length]; lia).
        rewrite padded_cons, <- app_assoc. reflexivity.
      * apply IH. exact Hmax.
Qed.

(** When the counter equals the number of live ids of the index, the query
    returns exactly the live records. *)
Lemma activeLoop_exact s ids ac :
  ac = countLive s ids -> ac <= MAX_UINT256 ->
  (if ac =? 0 then Ok (repeat Message.zero (N.to_nat ac))
   else activeLoop ids ac 0 (repeat Message.zero (N.to_nat ac)) s)
  = Ok (liveRecords s ids).
Proof.
  intros -> Hmax. unfold countLive in *.
  set (k := List.length (filter (live s) ids)) in *.
  assert (Hk : List.length (liveRecords s ids) = k)
    by (unfold liveRecords; rewrite length_map; reflexivity).
  rewrite Nat2N.id.
  destruct (N.eqb_spec (N.of_nat k) 0) as [Hz|Hz].
  - assert (k = 0)%nat by lia.
    destruct (liveRecords s ids); [|cbn in Hk; lia].
    replace k with 0%nat by lia. reflexivity.
  - assert (H := activeLoop_shape s ids [] k). cbn [List.length app] in H.
    rewrite Nat.add_0_l in H. change (N.of_nat 0) with 0 in H.
    rewrite H by exact Hmax.
    rewrite <- Hk, padded_exact. reflexivity.
Qed.

Lemma latestLoop_shape s ids :
  forall rc filled k,
    rc = N.of_nat (List.length filled + k) -> rc <= MAX_UINT256 ->
    latestLoop ids rc (N.of_nat (List.length filled))
      (filled ++ repeat Message.zero k) s
    = Ok (filled ++
          padded k (map (messages s)
                        (filter (fun id => isPublicActive (messages s id)) ids))).
Proof.
  induction ids as [|id rest IH]; intros rc filled k -> Hmax; cbn [latestLoop].
  - cbn. rewrite padded_nil. reflexivity.
  - destruct k as [|k].
    + rewrite Nat.add_0_r, N.ltb_irrefl. reflexivity.
    + replace (N.of_nat (List.length filled) <?
               N.of_nat (List.length filled + S k)) with true
        by (symmetry; apply N.ltb_lt; lia).
      cbn [filter]. cbv zeta.
      destruct (isPublicActive (messages s id)); cbn [map].
      * cbn [repeat]. rewrite store_next. cbn [bind].
        rewrite checked_add_fits by lia. cbn [bind].
        replace (N.of_nat (List.length filled) + 1)
          with (N.of_nat (List.length (filled ++ [messages s id])))
          by (rewrite length_app; cbn; lia).
        rewrite (IH _ (filled ++ [messages s id]) k)
          by (rewrite ?length_app; cbn [List.length]; lia).
        rewrite padded_cons, <- app_assoc. reflexivity.
      * apply IH; [reflexivity | exact Hmax].
Qed.

(** ** An induction principle for properties of the message store *)

Section StoreInduction.
Variable P : State -> Prop.
Hypothesis P_init : forall e, P (constructor e).
Hypothesis P_store : forall s s', storeOf s' = storeOf s -> P s -> P s'.
Hypothesis P_marked : forall s id,
  Inv s -> P s -> id < messageCount s ->
  Message.isDeleted (messages s id) = false -> P (markedState id s).
Hypothesis P_appended : forall s e reply content,
  Inv s -> P s -> messageCount s + 1 <= MAX_UINT256 ->
  (forall q, reply = Some q -> q < messageCount s) ->
  P (appendMessage e reply content s).

Lemma store_ind_mark s id s' :
  Inv s -> P s -> id < messageCount s ->
  _markMessageAsDeleted id s = Ok s' -> P s'.
Proof.
  intros HI HP Hid H. destruct (Message.isDeleted (messages s id)) eqn:Hd.
  - rewrite (mark_deleted_noop _ _ Hd) in H. ok_inv. exact HP.
  - destruct (mark_live_inv _ _ _ Hd H) as [_ ->]. apply P_marked; auto.
Qed.

Lemma store_ind_evict count s tr s' :
  Inv s -> P s -> deleteOldestMessages count s = Ok (tr, s') -> P s'.
Proof.
  intros HI HP H.
  set (n := messageCount s).
  assert (HR : (Inv s /\ messageCount s = n /\ P s) ->
               (Inv s' /\ messageCount s' = n /\ P s')).
  { eapply deleteOldestMessages_rel
      with (R := fun a b => (Inv a /\ messageCount a = n /\ P a) ->
                            (Inv b /\ messageCount b = n /\ P b))
           (I := fun id => id < n) (count := count) (tr := tr).
    - intros a Ha. exact Ha.
    - intros a b c Hab Hbc Ha. auto.
    - intros a ev (Ha & Hn & Hp). split; [apply Inv_emit, Ha|].
      split; [exact Hn|]. eapply P_store; [|exact Hp]. reflexivity.
    - intros a id b Hid _ Hm (Ha & Hn & Hp). split; [|split].
      + eapply Inv_mark; eauto. lia.
      + destruct (tombstoneOnly_mark _ _ _ Hm) as [Hc _]. lia.
      + eapply store_ind_mark; eauto. lia.
    - apply Inv_tail_lt, HI.
    - exact H. }
  apply HR. auto.
Qed.

Lemma store_ind_makeRoom s s1 : Inv s -> P s -> makeRoom s = Ok s1 -> P s1.
Proof.
  unfold makeRoom. intros HI HP H.
  destruct (maxActiveMessages s <=? totalActiveMessages s); ok_inv; auto.
  destruct a as [tr s']. eapply store_ind_evict; eauto.
Qed.

Lemma store_ind_step e op s s' : Inv s -> P s -> step e op s = Ok s' -> P s'.
Proof.
  intros HI HP.
  destruct (isProfileOp op) eqn:Hop;
    [intros H; eapply P_store; [eapply profileOp_store; eauto | exact HP]|].
  destruct op; try discriminate Hop; cbn [step]; intros H.
  - apply postMessage_inv in H. destruct H as (_ & s1 & Hroom & Hcan & ->).
    apply P_appended.
    + eapply Inv_makeRoom; eauto.
    + eapply store_ind_makeRoom; eauto.
    + apply Hcan.
    + discriminate.
  - apply replyToMessage_inv in H.
    destruct H as (Hq & _ & s1 & Hroom & Hcan & ->).
    apply P_appended.
    + eapply Inv_makeRoom; eauto.
    + eapply store_ind_makeRoom; eauto.
    + apply Hcan.
    + intros q [= <-].
      destruct (tombstoneOnly_makeRoom _ _ Hroom) as [Hc _]. lia.
  - unfold markMessageAsDeleted in H. ok_inv. b2p.
    eapply P_store; [|eapply store_ind_mark; eauto]. reflexivity.
  - apply updateParameters_inv in H.
    destruct H as [_ [(_ & tr & H) | (_ & ->)]].
    + eapply store_ind_evict; [| |exact H].
      * eapply Inv_store; [apply configured_store | exact HI].
      * eapply P_store; [apply configured_store | exact HP].
    + eapply P_store; [apply configured_store | exact HP].
Qed.

Lemma reachable_store_ind s : reachable s -> P s.
Proof.
  intros H. assert (HIP : Inv s /\ P s); [|apply HIP].
  induction H as [e|s e op s' _ [HI HP] Hstep].
  - split; [apply Inv_init | apply P_init].
  - split; [eapply Inv_step; eauto | eapply store_ind_step; eauto].
Qed.
End StoreInduction.

Lemma lastPeriod_appended e reply content s :
  1 <= messageCount s ->
  lastPeriod (appendMessage e reply content s) = messageCount s / PERIOD_SIZE.
Proof.
  intros H. unfold lastPeriod. cbn. f_equal. lia.
Qed.

Lemma period_step n : 1 <= n ->
  n / PERIOD_SIZE = (n - 1) / PERIOD_SIZE \/
  n / PERIOD_SIZE = (n - 1) / PERIOD_SIZE + 1.
Proof.
  unfold PERIOD_SIZE. intros H.
  assert (A1 : n = 100 * (n / 100) + n mod 100)
    by (apply N.div_mod; discriminate).
  assert (A2 : n mod 100 < 100) by (apply N.mod_lt; discriminate).
  assert (B1 : n - 1 = 100 * ((n - 1) / 100) + (n - 1) mod 100)
    by (apply N.div_mod; discriminate).
  assert (B2 : (n - 1) mod 100 < 100) by (apply N.mod_lt; discriminate).
  revert A1 A2 B1 B2.
  generalize (n / 100) (n mod 100) ((n - 1) / 100) ((n - 1) mod 100).
  intros q r q' r' A1 A2 B1 B2. lia.
Qed.

Lemma StoreInv_init e : StoreInv (constructor e).
Proof.
  constructor.
  - reflexivity.
  - intros p. cbn. unfold upd, lastPeriod. cbn. destruct p; reflexivity.
  - cbn. intros id H1 H2. lia.
  - cbn. intros id H. apply upd_other. lia.
Qed.

Lemma StoreInv_store s s' : storeOf s' = storeOf s -> StoreInv s -> StoreInv s'.
Proof.
  destruct s, s'. unfold storeOf. cbn.
  intros [= -> -> -> -> -> -> -> -> -> -> -> -> ->] [H1 H2 H3 H4].
  constructor; assumption.
Qed.

Lemma markedState_periods messageId s :
  periods (markedState messageId s) = periods s.
Proof.
  unfold markedState. cbv zeta.
  destruct (periodExists s (messageId / PERIOD_SIZE));
    destruct (negb (Message.replyToMessageId (messages s messageId) =? 0));
    reflexivity.
Qed.

Lemma StoreInv_marked s id :
  Inv s -> StoreInv s -> id < messageCount s ->
  Message.isDeleted (messages s id) = false -> StoreInv (markedState id s).
Proof.
  intros HI [H1 H2 H3 H4] Hid Hl.
  destruct (markedState_store id s (inv_period_ex _ HI _ Hid))
    as (Em & Ec & _ & _ & Epe & _).
  assert (Hlp : lastPeriod (markedState id s) = lastPeriod s)
    by (unfold lastPeriod; rewrite Ec; reflexivity).
  constructor.
  - rewrite markedState_periods, Hlp. exact H1.
  - intros p. rewrite Epe, Hlp. apply H2.
  - intros x Hx1 Hx2. rewrite Ec in Hx2. rewrite markedState_messages.
    destruct (N.eqb_spec x id) as [->|_]; cbn; apply H3; auto.
  - intros x Hx. rewrite Ec in Hx. rewrite markedState_messages.
    destruct (N.eqb_spec x id) as [->|_]; [lia | apply H4, Hx].
Qed.

Lemma StoreInv_appended s e reply content :
  Inv s -> StoreInv s -> messageCount s + 1 <= MAX_UINT256 ->
  (forall q, reply = Some q -> q < messageCount s) ->
  StoreInv (appendMessage e reply content s).
Proof.
  intros HI [H1 H2 H3 H4] _ Hq. assert (Hpos := inv_count_pos _ HI).
  assert (Hlp := lastPeriod_appended e reply content s Hpos).
  constructor.
  - rewrite Hlp. cbn. rewrite H2, H1. fold (lastPeriod s).
    destruct (period_step _ Hpos) as [E|E]; fold (lastPeriod s) in E; rewrite E.
    + rewrite N.leb_refl. reflexivity.
    + replace (lastPeriod s + 1 <=? lastPeriod s) with false
        by (symmetry; apply N.leb_gt; lia).
      symmetry. apply iota_succ.
  - intros p. rewrite Hlp. cbn. rewrite H2.
    destruct (period_step _ Hpos) as [E|E]; fold (lastPeriod s) in E; rewrite E.
    + rewrite N.leb_refl. apply H2.
    + replace (lastPeriod s + 1 <=? lastPeriod s) with false
        by (symmetry; apply N.leb_gt; lia).
      destruct (N.eq_dec p (lastPeriod s + 1)) as [->|Hne].
      * rewrite upd_same, N.leb_refl. reflexivity.
      * rewrite upd_other by exact Hne. rewrite H2.
        destruct (N.leb_spec p (lastPeriod s));
          destruct (N.leb_spec p (lastPeriod s + 1)); try reflexivity; lia.
  - intros x Hx1 Hx2. cbn in Hx2 |- *.
    destruct (N.eq_dec x (messageCount s)) as [->|Hne].
    + rewrite upd_same. cbn. destruct reply as [q|]; cbn; [apply Hq; reflexivity | lia].
    + rewrite upd_other by exact Hne. apply H3; lia.
  - intros x Hx. cbn in Hx |- *. rewrite upd_other by lia. apply H4. lia.
Qed.

Lemma reachable_StoreInv s : reachable s -> StoreInv s.
Proof.
  apply reachable_store_ind.
  - apply StoreInv_init.
  - apply StoreInv_store.
  - apply StoreInv_marked.
  - apply StoreInv_appended.
Qed.

(** ** The index queries *)

Lemma filter_both {A : Type} (f g : A -> bool) (l : list A) :
  filter f (filter g l) = filter (fun x => g x && f x) l.
Proof.
  induction l as [|x l IH]; cbn; [reflexivity|].
  destruct (g x); cbn; [destruct (f x)|]; rewrite IH; reflexivity.
Qed.

Lemma Inv_countLive_max s l :
  Inv s -> NoDup l -> incl l (chronologicalMessageIds s) ->
  countLive s l <= MAX_UINT256.
Proof.
  intros HI Hnd Hincl. assert (H := countLive_le s l).
  assert (H' := NoDup_incl_length Hnd Hincl).
  rewrite (inv_chron _ HI), iota_length in H'.
  assert (Hm := inv_count_max _ HI). lia.
Qed.

Lemma Inv_tail_incl s (f : N -> bool) :
  Inv s ->
  incl (filter f (skipn 1 (chronologicalMessageIds s)))
       (chronologicalMessageIds s).
Proof.
  intros HI x Hx. apply filter_In in Hx. destruct Hx as [Hx _].
  rewrite (inv_chron _ HI) in *. apply iota_tail_In in Hx. apply iota_In. lia.
Qed.

Lemma replies_query_ok s q :
  Inv s -> q <> 0 ->
  (if activeReplyCount s q =? 0
   then Ok (repeat Message.zero (N.to_nat (activeReplyCount s q)))
   else activeLoop (messageReplies s q) (activeReplyCount s q) 0
          (repeat Message.zero (N.to_nat (activeReplyCount s q))) s)
  = Ok (liveRecords s (messageReplies s q)).
Proof.
  intros HI Hq. apply activeLoop_exact.
  - apply (inv_reply_cnt _ HI q Hq).
  - rewrite (inv_reply_cnt _ HI q Hq), (inv_reply_idx _ HI q Hq).
    apply Inv_countLive_max; [exact HI | | apply Inv_tail_incl, HI].
    apply filter_NoDup, Inv_tail_NoDup, HI.
Qed.

(** X1. In a reachable state [getRepliesForMessage q], for a parent [q]
    other than the dummy, fails exactly when [q] is not an id of the store,
    and otherwise returns the non-deleted records whose parent is [q], all
    of them, once each, in creation order and without blank entries. *)
Theorem getRepliesForMessage_returns_live_replies s q :
  reachable s -> q <> 0 ->
  getRepliesForMessage q s =
    if q <? messageCount s
    then Ok (map (messages s)
               (filter (fun id => repliesTo s q id && live s id) (userIds s)))
    else Fail (Revert "Message does not exist").
Proof.
  intros Hr Hq. assert (HI := reachable_Inv _ Hr). unfold getRepliesForMessage.
  destruct (q <? messageCount s); [|reflexivity]. cbn [require bind]. cbv zeta.
  rewrite (replies_query_ok _ _ HI Hq). unfold liveRecords, userIds.
  rewrite (inv_reply_idx _ HI q Hq), (inv_chron _ HI), filter_both.
  reflexivity.
Qed.

(** X2. In a reachable state [getMessagesBySender a] never fails and returns
    the non-deleted records sent by [a], posts and replies alike, all of
    them, once each, in creation order and without blank entries. *)
Theorem getMessagesBySender_returns_live_records s a :
  reachable s ->
  getMessagesBySender a s =
    Ok (map (messages s)
          (filter (fun id => sentBy s a id && live s id) (userIds s))).
Proof.
  intros Hr. assert (HI := reachable_Inv _ Hr). unfold getMessagesBySender.
  cbv zeta. rewrite activeLoop_exact.
  - unfold liveRecords, userIds.
    rewrite (inv_sender_idx _ HI a), (inv_chron _ HI), filter_both.
    reflexivity.
  - apply (inv_sender_cnt _ HI a).
  - rewrite (inv_sender_cnt _ HI a), (inv_sender_idx _ HI a).
    apply Inv_countLive_max; [exact HI | | apply Inv_tail_incl, HI].
    apply filter_NoDup, Inv_tail_NoDup, HI.
Qed.

Lemma period_query_ok s p :
  Inv s ->
  (if activeMessageCountByPeriod s p =? 0
   then Ok (repeat Message.zero (N.to_nat (activeMessageCountByPeriod s p)))
   else activeLoop (messageIdsByPeriod s p) (activeMessageCountByPeriod s p) 0
          (repeat Message.zero (N.to_nat (activeMessageCountByPeriod s p))) s)
  = Ok (liveRecords s (messageIdsByPeriod s p)).
Proof.
  intros HI. apply activeLoop_exact.
  - apply (inv_period_cnt _ HI p).
  - rewrite (inv_period_cnt _ HI p), (inv_period_idx _ HI p).
    apply Inv_countLive_max; [exact HI | apply filter_NoDup, Inv_chron_NoDup, HI|].
    intros x Hx. apply filter_In in Hx. tauto.
Qed.

(** X3. In a reachable state [getMessagesByPeriod p] fails exactly for the
    periods after the one of the newest id, and otherwise returns the
    non-deleted records whose id lies in the period ([id / 100 = p]), all of
    them, in creation order and without blank entries; a period whose
    records are all deleted yields the empty array, not a failure. *)
Theorem getMessagesByPeriod_returns_live_records s p :
  reachable s ->
  getMessagesByPeriod p s =
    if p <=? lastPeriod s
    then Ok (map (messages s)
               (filter (fun id => inPeriod p id && live s id)
                       (iota (messageCount s))))
    else Fail (Revert "Period does not exist").
Proof.
  intros Hr. assert (HI := reachable_Inv _ Hr).
  assert (HS := reachable_StoreInv _ Hr). unfold getMessagesByPeriod.
  rewrite (si_periodExists _ HS).
  destruct (p <=? lastPeriod s); [|reflexivity]. cbn [require bind]. cbv zeta.
  rewrite (period_query_ok _ _ HI). unfold liveRecords.
  rewrite (inv_period_idx _ HI p), (inv_chron _ HI), filter_both.
  reflexivity.
Qed.

(** X4. In a reachable state [getAvailablePeriods] lists the periods
    [0, 1, ..., (messageCount - 1) / 100], each once and in increasing order,
    and these are exactly the periods for which [getMessagesByPeriod]
    succeeds. *)
Theorem getAvailablePeriods_are_the_queryable_periods s :
  reachable s ->
  getAvailablePeriods s = iota (lastPeriod s + 1) /\
  forall p, In p (getAvailablePeriods s) <->
            exists ms, getMessagesByPeriod p s = Ok ms.
Proof.
  intros Hr. assert (HS := reachable_StoreInv _ Hr).
  unfold getAvailablePeriods. split; [apply HS|].
  intros p. rewrite (si_periods _ HS), iota_In.
  unfold getMessagesByPeriod. rewrite (si_periodExists _ HS).
  destruct (N.leb_spec p (lastPeriod s)); cbn [require bind]; split.
  - intros _. cbv zeta. rewrite period_query_ok; eauto using reachable_Inv.
  - intros _. lia.
  - intros H'. lia.
  - intros [ms Hms]. discriminate.
Qed.

(** ** The feed queries *)

Lemma min_ite (a b : N) : (if a <? b then a else b) = N.min a b.
Proof. destruct (N.ltb_spec a b); lia. Qed.

Lemma padded_enough k found :
  (k <= List.length found)%nat -> padded k found = firstn k found.
Proof.
  intros H. unfold padded. replace (k - List.length found)%nat with O by lia.
  cbn. apply app_nil_r.
Qed.

Lemma feed_length_le s :
  Inv s -> N.of_nat (List.length (feed s)) <= totalActiveMessages s.
Proof.
  intros HI. rewrite (inv_total _ HI). unfold feed, countLive.
  rewrite length_map.
  assert (H : forall l,
    (List.length (filter (fun id => isPublicActive (messages s id)) l)
     <= List.length (filter (live s) l))%nat).
  { induction l as [|x l IH]; cbn [filter]; [cbn; lia|].
    assert (Hx : isPublicActive (messages s x) = true -> live s x = true).
    { unfold isPublicActive, live. intros Hx.
      apply Bool.andb_true_iff in Hx. tauto. }
    destruct (isPublicActive (messages s x)).
    - rewrite Hx by reflexivity. cbn [List.length]. lia.
    - destruct (live s x); cbn [List.length]; lia. }
  specialize (H (rev (chronologicalMessageIds s))).
  assert (E : List.length (filter (live s) (rev (chronologicalMessageIds s)))
              = List.length (filter (live s) (chronologicalMessageIds s))).
  { clear. induction (chronologicalMessageIds s) as [|x l IH]; [reflexivity|].
    cbn [rev]. rewrite filter_app, length_app. cbn [filter].
    destruct (live s x); cbn [List.length]; lia. }
  lia.
Qed.

Lemma Inv_total_max s : Inv s -> totalActiveMessages s <= MAX_UINT256.
Proof.
  intros HI. assert (H := Inv_total_le _ HI).
  assert (H' := inv_count_max _ HI). lia.
Qed.

Lemma getLatestMessages_padded s count :
  Inv s -> (count <=? maxReturnCount s) = true ->
  getLatestMessages count s =
    Ok (padded (N.to_nat (N.min count (totalActiveMessages s))) (feed s)).
Proof.
  intros HI Hc. unfold getLatestMessages. rewrite Hc. cbn [require bind].
  cbv zeta. rewrite min_ite.
  set (rc := N.min count (totalActiveMessages s)).
  destruct (N.eqb_spec rc 0) as [E|E].
  - rewrite E. reflexivity.
  - change 0 with (N.of_nat (List.length (@nil Message.t))).
    change (repeat Message.zero (N.to_nat rc))
      with ([] ++ repeat Message.zero (N.to_nat rc)).
    rewrite (latestLoop_shape s _ rc [] (N.to_nat rc)).
    + reflexivity.
    + cbn. lia.
    + assert (H := Inv_total_max _ HI). unfold rc. lia.
Qed.

(** X5. In a reachable state [getLatestMessages count] fails exactly when
    [count] exceeds [maxReturnCount]; otherwise its result has
    [min count totalActiveMessages] entries: the non-deleted posts (records
    with parent 0), newest first, cut to that length, followed by blank
    records when there are fewer such posts than that. *)
Theorem getLatestMessages_newest_posts_then_blanks s count :
  reachable s ->
  getLatestMessages count s =
    if count <=? maxReturnCount s
    then Ok (padded (N.to_nat (N.min count (totalActiveMessages s))) (feed s))
    else Fail (Revert "Too many messages requested").
Proof.
  intros Hr. destruct (count <=? maxReturnCount s) eqn:Hc.
  - apply getLatestMessages_padded; [apply reachable_Inv, Hr | exact Hc].
  - unfold getLatestMessages. rewrite Hc. reflexivity.
Qed.

(** X6. In a reachable state, when at least [count] non-deleted posts exist
    and [count] is within [maxReturnCount], [getLatestMessages count]
    returns exactly the [count] newest of them, newest first, whatever
    replies the store holds. *)
Theorem getLatestMessages_exact_when_enough_posts s count :
  reachable s ->
  count <= maxReturnCount s ->
  count <= N.of_nat (List.length (feed s)) ->
  getLatestMessages count s = Ok (firstn (N.to_nat count) (feed s)).
Proof.
  intros Hr Hc Hn. assert (HI := reachable_Inv _ Hr).
  rewrite getLatestMessages_padded by (try apply N.leb_le; assumption).
  assert (H := feed_length_le _ HI).
  replace (N.min count (totalActiveMessages s)) with count by lia.
  rewrite padded_enough by lia. reflexivity.
Qed.

(** The two phases of the pagination loop: while fewer than [startIndex]
    live posts have been seen nothing is stored; from then on every live
    post fills the next slot. *)
Lemma pageLoop_fill s start ids :
  forall filled k,
    start + N.of_nat (List.length filled + k) <= MAX_UINT256 ->
    pageLoop ids start (N.of_nat (List.length filled + k))
      (start + N.of_nat (List.length filled)) (N.of_nat (List.length filled))
      (filled ++ repeat Message.zero k) s
    = Ok (filled ++
          padded k (map (messages s)
                        (filter (fun id => isPublicActive (messages s id)) ids))).
Proof.
  induction ids as [|id rest IH]; intros filled k Hmax; cbn [pageLoop].
  - cbn. rewrite padded_nil. reflexivity.
  - destruct k as [|k].
    + rewrite Nat.add_0_r, N.ltb_irrefl. reflexivity.
    + replace (N.of_nat (List.length filled) <?
               N.of_nat (List.length filled + S k)) with true
        by (symmetry; apply N.ltb_lt; lia).
      cbn [filter]. cbv zeta.
      destruct (isPublicActive (messages s id)); cbn [map].
      * replace (start <=? start + N.of_nat (List.length filled)) with true
          by (symmetry; apply N.leb_le; lia).
        cbn [repeat]. rewrite store_next. cbn [bind].
        rewrite (checked_add_fits (N.of_nat (List.length filled)) 1) by lia.
        cbn [bind].
        rewrite (checked_add_fits (start + N.of_nat (List.length filled)) 1)
          by lia.
        cbn [bind]. rewrite checked_add_fits by lia. cbn [bind].
        rewrite padded_cons.
        destruct k as [|k].
        -- replace (start + N.of_nat (List.length filled + 1) <=?
                    start + N.of_nat (List.length filled) + 1) with true
             by (symmetry; apply N.leb_le; lia).
           cbn [repeat]. rewrite padded_zero, app_nil_r. reflexivity.
        -- replace (start + N.of_nat (List.length filled + S (S k)) <=?
                    start + N.of_nat (List.length filled) + 1) with false
             by (symmetry; apply N.leb_gt; lia).
           replace (N.of_nat (List.length filled + S (S k)))
             with (N.of_nat (List.length (filled ++ [messages s id]) + S k))
             by (rewrite length_app; cbn [List.length]; lia).
           replace (start + N.of_nat (List.length filled) + 1)
             with (start + N.of_nat (List.length (filled ++ [messages s id])))
             by (rewrite length_app; cbn [List.length]; lia).
           replace (N.of_nat (List.length filled) + 1)
             with (N.of_nat (List.length (filled ++ [messages s id])))
             by (rewrite length_app; cbn [List.length]; lia).
           rewrite (IH (filled ++ [messages s id]) (S k))
             by (rewrite length_app; cbn [List.length]; lia).
           rewrite <- app_assoc. reflexivity.
      * cbn [bind]. rewrite checked_add_fits by lia. cbn [bind].
        replace (start + N.of_nat (List.length filled + S k) <=?
                 start + N.of_nat (List.length filled)) with false
          by (symmetry; apply N.leb_gt; lia).
        apply IH. exact Hmax.
Qed.

Lemma pageLoop_skip s start k ids :
  forall seen,
    (seen <= N.to_nat start)%nat -> (0 < k)%nat ->
    start + N.of_nat k <= MAX_UINT256 ->
    pageLoop ids start (N.of_nat k) (N.of_nat seen) 0
      (repeat Message.zero k) s
    = Ok (padded k
            (skipn (N.to_nat start - seen)
               (map (messages s)
                  (filter (fun id => isPublicActive (messages s id)) ids)))).
Proof.
  induction ids as [|id rest IH]; intros seen Hseen Hk Hmax.
  - cbn. rewrite skipn_nil, padded_nil. reflexivity.
  - destruct (Nat.eq_dec seen (N.to_nat start)) as [E|E].
    + replace (N.of_nat seen) with (start + N.of_nat (List.length (@nil Message.t)))
        by (cbn [List.length]; lia).
      change 0 with (N.of_nat (List.length (@nil Message.t))).
      change (repeat Message.zero k) with ([] ++ repeat Message.zero k).
      change (N.of_nat k) with (N.of_nat (List.length (@nil Message.t) + k)).
      rewrite pageLoop_fill by (cbn [List.length]; lia).
      rewrite E, Nat.sub_diag. reflexivity.
    + cbn [pageLoop].
      replace (0 <? N.of_nat k) with true by (symmetry; apply N.ltb_lt; lia).
      cbn [filter]. cbv zeta.
      destruct (isPublicActive (messages s id)); cbn [map].
      * replace (start <=? N.of_nat seen) with false
          by (symmetry; apply N.leb_gt; lia).
        cbn [bind]. rewrite checked_add_fits by lia. cbn [bind].
        rewrite checked_add_fits by lia. cbn [bind].
        replace (start + N.of_nat k <=? N.of_nat seen + 1) with false
          by (symmetry; apply N.leb_gt; lia).
        replace (N.of_nat seen + 1) with (N.of_nat (S seen)) by lia.
        rewrite IH by lia.
        replace (N.to_nat start - seen)%nat with (S (N.to_nat start - S seen))
          by lia.
        reflexivity.
      * cbn [bind]. rewrite checked_add_fits by lia. cbn [bind].
        replace (start + N.of_nat k <=? N.of_nat seen) with false
          by (symmetry; apply N.leb_gt; lia).
        apply IH; assumption.
Qed.

Lemma getMessagesWithPagination_padded s page pageSize :
  Inv s -> 0 < pageSize -> pageSize <= maxReturnCount s ->
  page * pageSize < totalActiveMessages s ->
  page * pageSize + pageSize <= MAX_UINT256 ->
  getMessagesWithPagination page pageSize s =
    Ok (padded
          (N.to_nat (N.min pageSize (totalActiveMessages s - page * pageSize)))
          (skipn (N.to_nat (page * pageSize)) (feed s))).
Proof.
  intros HI Hp Hm Hs Hmax. unfold getMessagesWithPagination.
  replace (0 <? pageSize) with true by (symmetry; apply N.ltb_lt; lia).
  replace (pageSize <=? maxReturnCount s) with true
    by (symmetry; apply N.leb_le; lia).
  cbn [require bind].
  assert (E : checked_mul page pageSize = Ok (page * pageSize)).
  { unfold checked_mul.
    replace (page * pageSize <=? MAX_UINT256) with true
      by (symmetry; apply N.leb_le; lia). reflexivity. }
  rewrite E. cbn [bind].
  replace (totalActiveMessages s <=? page * pageSize) with false
    by (symmetry; apply N.leb_gt; lia).
  rewrite checked_add_fits by lia. cbn [bind].
  set (start := page * pageSize) in *.
  set (rs := N.min pageSize (totalActiveMessages s - start)).
  assert (Hrs : (if totalActiveMessages s <? start + pageSize
                 then checked_sub (totalActiveMessages s) start
                 else Ok pageSize) = Ok rs).
  { unfold rs. destruct (N.ltb_spec (totalActiveMessages s) (start + pageSize)).
    - rewrite checked_sub_fits by lia. f_equal. lia.
    - f_equal. lia. }
  rewrite Hrs. cbn [bind].
  rewrite <- (N2Nat.id rs) at 1.
  change 0 with (N.of_nat 0) at 1.
  rewrite (pageLoop_skip s start (N.to_nat rs) _ 0%nat) by (unfold rs; lia).
  rewrite Nat.sub_0_r. reflexivity.
Qed.

(** X7. In a reachable state [getMessagesWithPagination page pageSize]
    rejects a page size of 0 or above [maxReturnCount], panics when
    [page * pageSize] (or, for a page that starts inside the store,
    [page * pageSize + pageSize]) overflows, returns the empty array for a
    page that starts at or after [totalActiveMessages], and otherwise returns
    [min pageSize (totalActiveMessages - page * pageSize)] entries: the
    non-deleted posts, newest first, from position [page * pageSize] on,
    followed by blank records when too few posts are left. *)
Theorem getMessagesWithPagination_page_then_blanks s page pageSize :
  reachable s ->
  getMessagesWithPagination page pageSize s =
    if pageSize =? 0
    then Fail (Revert "Page size must be greater than 0")
    else if maxReturnCount s <? pageSize
    then Fail (Revert "Page size too large")
    else if MAX_UINT256 <? page * pageSize
    then Fail (Panic ARITH)
    else if totalActiveMessages s <=? page * pageSize
    then Ok []
    else if MAX_UINT256 <? page * pageSize + pageSize
    then Fail (Panic ARITH)
    else Ok (padded
               (N.to_nat
                  (N.min pageSize (totalActiveMessages s - page * pageSize)))
               (skipn (N.to_nat (page * pageSize)) (feed s))).
Proof.
  intros Hr. assert (HI := reachable_Inv _ Hr).
  destruct (N.eqb_spec pageSize 0) as [E0|E0].
  { subst pageSize. reflexivity. }
  destruct (N.ltb_spec (maxReturnCount s) pageSize) as [E1|E1].
  { unfold getMessagesWithPagination.
    replace (0 <? pageSize) with true by (symmetry; apply N.ltb_lt; lia).
    replace (pageSize <=? maxReturnCount s) with false
      by (symmetry; apply N.leb_gt; lia). reflexivity. }
  destruct (N.ltb_spec MAX_UINT256 (page * pageSize)) as [E2|E2].
  { unfold getMessagesWithPagination.
    replace (0 <? pageSize) with true by (symmetry; apply N.ltb_lt; lia).
    replace (pageSize <=? maxReturnCount s) with true
      by (symmetry; apply N.leb_le; lia).
    cbn [require bind]. unfold checked_mul.
    replace (page * pageSize <=? MAX_UINT256) with false
      by (symmetry; apply N.leb_gt; lia). reflexivity. }
  destruct (N.leb_spec (totalActiveMessages s) (page * pageSize)) as [E3|E3].
  { unfold getMessagesWithPagination.
    replace (0 <? pageSize) with true by (symmetry; apply N.ltb_lt; lia).
    replace (pageSize <=? maxReturnCount s) with true
      by (symmetry; apply N.leb_le; lia).
    cbn [require bind]. unfold checked_mul.
    replace (page * pageSize <=? MAX_UINT256) with true
      by (symmetry; apply N.leb_le; lia). cbn [bind].
    replace (totalActiveMessages s <=? page * pageSize) with true
      by (symmetry; apply N.leb_le; lia). reflexivity. }
  destruct (N.ltb_spec MAX_UINT256 (page * pageSize + pageSize)) as [E4|E4].
  { unfold getMessagesWithPagination.
    replace (0 <? pageSize) with true by (symmetry; apply N.ltb_lt; lia).
    replace (pageSize <=? maxReturnCount s) with true
      by (symmetry; apply N.leb_le; lia).
    cbn [require bind]. unfold checked_mul.
    replace (page * pageSize <=? MAX_UINT256) with true
      by (symmetry; apply N.leb_le; lia). cbn [bind].
    replace (totalActiveMessages s <=? page * pageSize) with false
      by (symmetry; apply N.leb_gt; lia).
    unfold checked_add.
    replace (page * pageSize + pageSize <=? MAX_UINT256) with false
      by (symmetry; apply N.leb_gt; lia). reflexivity. }
  apply getMessagesWithPagination_padded; try assumption; lia.
Qed.

(** X8. In a reachable state a page that lies wholly within the non-deleted
    posts (at least [page * pageSize + pageSize] of them exist) is returned
    exactly: [pageSize] posts, newest first, starting after the
    [page * pageSize] newest, whatever replies the store holds. *)
Theorem getMessagesWithPagination_exact_inside_feed s page pageSize :
  reachable s ->
  0 < pageSize -> pageSize <= maxReturnCount s ->
  page * pageSize + pageSize <= N.of_nat (List.length (feed s)) ->
  getMessagesWithPagination page pageSize s =
    Ok (firstn (N.to_nat pageSize)
          (skipn (N.to_nat (page * pageSize)) (feed s))).
Proof.
  intros Hr Hp Hm Hin. assert (HI := reachable_Inv _ Hr).
  assert (Hf := feed_length_le _ HI). assert (Ht := Inv_total_max _ HI).
  rewrite getMessagesWithPagination_padded by (try assumption; lia).
  replace (N.min pageSize (totalActiveMessages s - page * pageSize))
    with pageSize by lia.
  rewrite padded_enough; [reflexivity|]. rewrite length_skipn. lia.
Qed.

(** ** Configuration and ownership *)

Lemma markedState_config messageId s :
  configOf (markedState messageId s) = configOf s.
Proof.
  unfold markedState. cbv zeta. split_ifs; reflexivity.
Qed.

Lemma mark_config messageId s s' :
  _markMessageAsDeleted messageId s = Ok s' -> configOf s' = configOf s.
Proof.
  intros H. destruct (Message.isDeleted (messages s messageId)) eqn:E.
  - rewrite (mark_deleted_noop _ _ E) in H. injection H as <-. reflexivity.
  - destruct (mark_live_inv _ _ _ E H) as [_ ->]. apply markedState_config.
Qed.

Lemma evict_config count s tr s' :
  deleteOldestMessages count s = Ok (tr, s') -> configOf s' = configOf s.
Proof.
  intros H.
  eapply deleteOldestMessages_rel
    with (R := fun a b => configOf b = configOf a)
         (I := fun _ => True) (count := count) (tr := tr).
  - auto.
  - intros a b c A B. congruence.
  - intros a ev. reflexivity.
  - intros a id b _ _ Hm. eapply mark_config; eauto.
  - apply Forall_True.
  - exact H.
Qed.

Lemma makeRoom_config s s1 : makeRoom s = Ok s1 -> configOf s1 = configOf s.
Proof.
  unfold makeRoom. intros H.
  destruct (maxActiveMessages s <=? totalActiveMessages s).
  - bind_inv H r E. destruct r as [tr s']. ok_inv. cbn.
    eapply evict_config; eauto.
  - ok_inv. reflexivity.
Qed.

Lemma step_config e op s s' :
  match op with
  | UpdateParameters _ _ _ _ | TransferOwnership _ => False
  | _ => True
  end ->
  step e op s = Ok s' -> configOf s' = configOf s.
Proof.
  destruct op; cbn [step]; intros Hop H; try contradiction.
  - unfold updateProfile in H. ok_inv. cbv zeta. split_ifs; reflexivity.
  - unfold updateAvatar in H. ok_inv. reflexivity.
  - unfold deactivateProfile in H. ok_inv. cbv zeta. split_ifs; reflexivity.
  - apply postMessage_inv in H. destruct H as (_ & s1 & Hroom & _ & ->).
    apply makeRoom_config in Hroom. exact Hroom.
  - apply replyToMessage_inv in H.
    destruct H as (_ & _ & s1 & Hroom & _ & ->).
    apply makeRoom_config in Hroom. exact Hroom.
  - unfold markMessageAsDeleted in H. bind_inv H u1 E1. bind_inv H u2 E2.
    bind_inv H u3 E3. bind_inv H s1 Hm. injection H as <-.
    apply mark_config in Hm. exact Hm.
Qed.

(** X11. A successful transaction whose sender is not the owner leaves the
    owner and the four parameters as they were, whatever the operation. *)
Theorem only_owner_changes_configuration e op s s' :
  step e op s = Ok s' ->
  msg_sender e <> owner s ->
  getOwner s' = getOwner s /\ getParameters s' = getParameters s.
Proof.
  intros H Hne.
  assert (E : configOf s' = configOf s).
  { destruct op; try (eapply step_config; [|exact H]; exact I); cbn [step] in H.
    - apply updateParameters_inv in H. destruct H as [Ho _]. contradiction.
    - unfold transferOwnership in H. bind_inv H u E.
      apply require_ok in E. apply N.eqb_eq in E. contradiction. }
  split; [exact (f_equal fst E) | exact (f_equal snd E)].
Qed.

(** X12. Transfers of ownership never install the zero address: along any
    run of successful transactions an owner other than address 0 is
    followed by owners other than address 0. *)
Theorem owner_never_becomes_zero s s' :
  steps s s' -> getOwner s <> 0 -> getOwner s' <> 0.
Proof.
  induction 1 as [s|s e op s1 s2 Hstep _ IH]; intros Ho; [exact Ho|].
  apply IH.
  destruct op;
    try (assert (E : configOf s1 = configOf s)
           by (eapply step_config; [|exact Hstep]; exact I);
         apply (f_equal fst) in E; cbn [fst configOf] in E; rewrite E;
         exact Ho);
    cbn [step] in Hstep.
  - apply updateParameters_inv in Hstep.
    destruct Hstep as [_ [(_ & tr & H) | (_ & ->)]]; [|exact Ho].
    apply evict_config in H. apply (f_equal fst) in H.
    cbn [fst configOf] in H. rewrite H. exact Ho.
  - unfold transferOwnership in Hstep. bind_inv Hstep u1 E1.
    bind_inv Hstep u2 E2. injection Hstep as <-.
    apply require_ok in E2. apply Bool.negb_true_iff, N.eqb_neq in E2.
    exact E2.
Qed.

(** X13. A transfer of ownership by the owner to a different, non-zero
    address succeeds, changes nothing but the owner, and moves the owner's
    rights: afterwards [updateParameters] and [transferOwnership] revert for
    the former owner. *)
Theorem transferOwnership_hands_over e newOwner s :
  msg_sender e = owner s -> newOwner <> 0 -> newOwner <> msg_sender e ->
  exists s',
    transferOwnership e newOwner s = Ok s' /\
    getOwner s' = newOwner /\
    getParameters s' = getParameters s /\
    storeOf s' = storeOf s /\
    emitted s' = emitted s /\
    (forall e' a b c d, msg_sender e' = msg_sender e ->
       updateParameters e' a b c d s' =
       Fail (Revert "Only owner can call this function")) /\
    (forall e' a, msg_sender e' = msg_sender e ->
       transferOwnership e' a s' =
       Fail (Revert "Only owner can call this function")).
Proof.
  intros Ho Hz Hne. exists (set_owner newOwner s).
  assert (Hf : forall e', msg_sender e' = msg_sender e ->
                 (msg_sender e' =? owner (set_owner newOwner s)) = false).
  { intros e' ->. apply N.eqb_neq. cbn. congruence. }
  repeat split.
  - unfold transferOwnership.
    replace (msg_sender e =? owner s) with true
      by (symmetry; apply N.eqb_eq; exact Ho).
    replace (newOwner =? 0) with false by (symmetry; apply N.eqb_neq; exact Hz).
    reflexivity.
  - intros e' a b c d He. unfold updateParameters. rewrite (Hf e' He).
    reflexivity.
  - intros e' a He. unfold transferOwnership. rewrite (Hf e' He). reflexivity.
Qed.

(** ** How many records an eviction takes *)

Lemma evictable_marked_other s messageId x :
  x <> messageId -> evictable (markedState messageId s) x = evictable s x.
Proof.
  intros Hx. unfold evictable. rewrite markedState_messages.
  replace (x =? messageId) with false by (symmetry; apply N.eqb_neq; exact Hx).
  reflexivity.
Qed.

Lemma filter_evictable_marked s messageId ids :
  ~ In messageId ids ->
  filter (evictable (markedState messageId s)) ids = filter (evictable s) ids.
Proof.
  intros Hn. apply filter_ext_in. intros x Hx. apply evictable_marked_other.
  intros ->. contradiction.
Qed.

Lemma markedState_total messageId s :
  totalActiveMessages (markedState messageId s) = totalActiveMessages s - 1.
Proof. unfold markedState. cbv zeta. split_ifs; reflexivity. Qed.

Lemma markedState_count messageId s :
  messageCount (markedState messageId s) = messageCount s.
Proof. unfold markedState. cbv zeta. split_ifs; reflexivity. Qed.

Lemma deleteLoop_exact ids :
  NoDup ids ->
  forall d m tr s d' tr' s',
    Inv s -> Forall (fun id => id < messageCount s) ids ->
    deleteLoop ids d m tr s = Ok (d', tr', s') ->
    evictedIds tr' =
      evictedIds tr ++ firstn (N.to_nat (m - d)) (filter (evictable s) ids) /\
    d' = d + N.of_nat (List.length
                         (firstn (N.to_nat (m - d)) (filter (evictable s) ids))) /\
    totalActiveMessages s' +
      N.of_nat (List.length
                  (firstn (N.to_nat (m - d)) (filter (evictable s) ids)))
    = totalActiveMessages s.
Proof.
  induction 1 as [|id rest Hnin Hnd IH]; intros d m tr s d' tr' s' HI Hlt H;
    cbn [deleteLoop] in H.
  - injection H as <- <- <-. cbn [filter]. rewrite firstn_nil, app_nil_r.
    cbn [List.length]. repeat split; lia.
  - destruct (N.ltb_spec d m) as [Hd|Hd].
    2:{ injection H as <- <- <-.
        replace (m - d) with 0 by lia. cbn [N.to_nat firstn List.length].
        rewrite app_nil_r. repeat split; lia. }
    inversion Hlt as [|? ? Hid Hrest]; subst.
    cbn [filter]. destruct (evictable s id) eqn:Hev.
    + destruct (evictable_inv _ _ Hev) as [Hlive _].
      assert (Hcan := Inv_canMark _ _ HI Hid Hlive).
      rewrite (mark_live_ok _ _ Hlive Hcan) in H. cbn [bind] in H.
      bind_inv H r Er. bind_inv Er d1 Hd1.
      apply checked_add_ok in Hd1. destruct Hd1 as [-> _].
      injection Er as <-. cbv beta iota in H.
      replace (N.to_nat (m - d)) with (S (N.to_nat (m - (d + 1)))) by lia.
      cbn [firstn List.length].
      destruct Hcan as (_ & _ & _ & Htot).
      assert (Ht := markedState_total id s).
      destruct (N.leb_spec m (d + 1)) as [Hm|Hm].
      * injection H as <- <- <-.
        replace (m - (d + 1)) with 0 by lia. cbn [N.to_nat firstn List.length].
        unfold evictedIds. rewrite map_app. cbn [map ev_id].
        repeat split; lia.
      * apply IH in H.
        -- rewrite (filter_evictable_marked _ _ _ Hnin) in H.
           destruct H as (H1 & H2 & H3). rewrite H1.
           unfold evictedIds. rewrite map_app, <- app_assoc.
           cbn [map ev_id app]. repeat split; lia.
        -- apply Inv_marked; assumption.
        -- rewrite markedState_count. exact Hrest.
    + cbn [bind] in H.
      replace (m <=? d) with false in H by (symmetry; apply N.leb_gt; lia).
      apply IH in H; assumption.
Qed.

Lemma deleteOldestMessages_exact count s tr s' :
  Inv s -> deleteOldestMessages count s = Ok (tr, s') ->
  evictedIds tr =
    firstn (N.to_nat (N.min count (totalActiveMessages s))) (evictableIds s) /\
  totalActiveMessages s' + N.of_nat (List.length tr) = totalActiveMessages s.
Proof.
  intros HI H. unfold deleteOldestMessages in H.
  destruct (N.eqb_spec count 0) as [Hc|Hc]; cbn [orb] in H.
  { injection H as <- <-. subst count. rewrite N.min_0_l.
    cbn [N.to_nat firstn List.length]. split; [reflexivity | lia]. }
  destruct (N.eqb_spec (totalActiveMessages s) 0) as [Ht|Ht].
  { injection H as <- <-. rewrite Ht, N.min_0_r.
    cbn [N.to_nat firstn List.length]. split; [reflexivity | lia]. }
  rewrite min_ite in H. bind_inv H r Eloop. destruct r as [[d tr0] s0].
  apply deleteLoop_exact in Eloop;
    [| apply Inv_tail_NoDup, HI | exact HI | apply Inv_tail_lt, HI].
  rewrite N.sub_0_r in Eloop. cbn [evictedIds map app] in Eloop.
  destruct Eloop as (H1 & _ & H3).
  assert (Hlen : List.length tr0 =
                 List.length
                   (firstn (N.to_nat (N.min count (totalActiveMessages s)))
                      (filter (evictable s)
                         (skipn 1 (chronologicalMessageIds s))))).
  { rewrite <- H1. unfold evictedIds. rewrite length_map. reflexivity. }
  unfold evictableIds, userIds. rewrite <- (inv_chron _ HI).
  destruct (0 <? d); injection H as <- <-; cbn [totalActiveMessages emit];
    (split; [exact H1 | rewrite Hlen; exact H3]).
Qed.

Lemma existsb_eqb_In (x : N) (l : list N) :
  existsb (N.eqb x) l = true <-> In x l.
Proof.
  rewrite existsb_exists. split.
  - intros (y & Hy & E). apply N.eqb_eq in E. subst. exact Hy.
  - intros H. exists x. split; [exact H | apply N.eqb_refl].
Qed.

Lemma existsb_eqb_notin (x : N) (l : list N) :
  ~ In x l -> existsb (N.eqb x) l = false.
Proof.
  intros H. destruct (existsb (N.eqb x) l) eqn:E; [|reflexivity].
  apply existsb_eqb_In in E. contradiction.
Qed.

Lemma firstn_In {A : Type} (k : nat) (l : list A) (x : A) :
  In x (firstn k l) -> In x l.
Proof.
  revert l. induction k as [|k IH]; intros [|a l] H; cbn in *; try tauto.
  destruct H as [H|H]; [left; exact H | right; apply IH, H].
Qed.

(** The records after the loop: the ids taken carry the tombstone, every
    other record is as before. *)
Lemma deleteLoop_records ids :
  NoDup ids ->
  forall d m tr s d' tr' s',
    Inv s -> Forall (fun id => id < messageCount s) ids ->
    deleteLoop ids d m tr s = Ok (d', tr', s') ->
    forall x,
      messages s' x =
      if existsb (N.eqb x)
           (firstn (N.to_nat (m - d)) (filter (evictable s) ids))
      then Message.markDeleted (messages s x) else messages s x.
Proof.
  induction 1 as [|id rest Hnin Hnd IH]; intros d m tr s d' tr' s' HI Hlt H x;
    cbn [deleteLoop] in H.
  - injection H as <- <- <-. cbn [filter]. rewrite firstn_nil. reflexivity.
  - destruct (N.ltb_spec d m) as [Hd|Hd].
    2:{ injection H as <- <- <-.
        replace (m - d) with 0 by lia. reflexivity. }
    inversion Hlt as [|? ? Hid Hrest]; subst.
    cbn [filter]. destruct (evictable s id) eqn:Hev.
    + destruct (evictable_inv _ _ Hev) as [Hlive _].
      assert (Hcan := Inv_canMark _ _ HI Hid Hlive).
      rewrite (mark_live_ok _ _ Hlive Hcan) in H. cbn [bind] in H.
      bind_inv H r Er. bind_inv Er d1 Hd1.
      apply checked_add_ok in Hd1. destruct Hd1 as [-> _].
      injection Er as <-. cbv beta iota in H.
      replace (N.to_nat (m - d)) with (S (N.to_nat (m - (d + 1)))) by lia.
      cbn [firstn existsb].
      destruct (N.leb_spec m (d + 1)) as [Hm|Hm].
      * injection H as <- <- <-.
        replace (m - (d + 1)) with 0 by lia. cbn [N.to_nat firstn existsb].
        rewrite Bool.orb_false_r, markedState_messages.
        destruct (N.eqb_spec x id) as [->|Hx]; reflexivity.
      * apply IH with (x := x) in H;
          [| apply Inv_marked; assumption
           | rewrite markedState_count; exact Hrest].
        rewrite (filter_evictable_marked _ _ _ Hnin) in H.
        rewrite H, markedState_messages.
        destruct (N.eqb_spec x id) as [->|Hx]; cbn [orb]; [|reflexivity].
        rewrite existsb_eqb_notin; [reflexivity|].
        intros Hin. apply firstn_In in Hin. apply filter_In in Hin.
        destruct Hin as [Hin _]. contradiction.
    + cbn [bind] in H.
      replace (m <=? d) with false in H by (symmetry; apply N.leb_gt; lia).
      apply IH with (x := x) in H; assumption.
Qed.

Lemma deleteOldestMessages_records count s tr s' :
  Inv s -> deleteOldestMessages count s = Ok (tr, s') ->
  forall x,
    messages s' x =
    if existsb (N.eqb x) (oldestPosts (N.min count (totalActiveMessages s)) s)
    then Message.markDeleted (messages s x) else messages s x.
Proof.
  intros HI H x. unfold deleteOldestMessages in H. unfold oldestPosts.
  destruct (N.eqb_spec count 0) as [Hc|Hc]; cbn [orb] in H.
  { injection H as <- <-. subst count. rewrite N.min_0_l. reflexivity. }
  destruct (N.eqb_spec (totalActiveMessages s) 0) as [Ht|Ht].
  { injection H as <- <-. rewrite Ht, N.min_0_r. reflexivity. }
  rewrite min_ite in H. bind_inv H r Eloop. destruct r as [[d tr0] s0].
  apply deleteLoop_records with (x := x) in Eloop;
    [| apply Inv_tail_NoDup, HI | exact HI | apply Inv_tail_lt, HI].
  rewrite N.sub_0_r in Eloop.
  unfold evictableIds, userIds. rewrite <- (inv_chron _ HI).
  destruct (0 <? d); injection H as <- <-; exact Eloop.
Qed.

(** X9. [deleteOldestMessages count], called in a state [s] that holds the
    message store of a reachable state (the reachable state itself for the
    create operations, the state with the new parameters written for
    [updateParameters]), returns; with [k] the smaller of [count] and
    [totalActiveMessages], the records it soft-deletes are the [k] oldest
    non-deleted posts, or all non-deleted posts when there are fewer: in the
    resulting state these records carry the tombstone and every other record
    is as before, and [totalActiveMessages] is lower by their number. *)
Theorem deleteOldestMessages_takes_oldest_posts count s0 s :
  reachable s0 ->
  storeOf s = storeOf s0 ->
  exists tr s',
    deleteOldestMessages count s = Ok (tr, s') /\
    evictedIds tr = oldestPosts (N.min count (totalActiveMessages s)) s /\
    (forall x,
       messages s' x =
       if existsb (N.eqb x)
            (oldestPosts (N.min count (totalActiveMessages s)) s)
       then Message.markDeleted (messages s x) else messages s x) /\
    totalActiveMessages s' +
      N.of_nat (List.length
                  (oldestPosts (N.min count (totalActiveMessages s)) s))
    = totalActiveMessages s.
Proof.
  intros Hr Hstore.
  assert (HI := Inv_store _ _ Hstore (reachable_Inv _ Hr)).
  destruct (deleteOldestMessages_total count s HI) as (tr & s' & H).
  exists tr, s'. split; [exact H|].
  destruct (deleteOldestMessages_exact count s tr s' HI H) as [H1 H2].
  split; [exact H1|]. split; [exact (deleteOldestMessages_records _ _ _ _ HI H)|].
  unfold oldestPosts. rewrite <- H1. unfold evictedIds. rewrite length_map.
  exact H2.
Qed.

Lemma Inv_total_userIds s :
  Inv s -> totalActiveMessages s = countLive s (userIds s).
Proof.
  intros HI. rewrite (inv_total _ HI), (inv_chron _ HI).
  rewrite (iota_head _ (inv_count_pos _ HI)) at 1. unfold countLive, userIds.
  cbn [filter]. unfold live at 1. rewrite (inv_dummy _ HI). reflexivity.
Qed.

Lemma filter_length_sub {A : Type} (f g : A -> bool) (l : list A) :
  (forall x, f x = true -> g x = true) ->
  (List.length (filter f l) <= List.length (filter g l))%nat.
Proof.
  intros Hfg. induction l as [|x l IH]; cbn [filter]; [lia|].
  destruct (f x) eqn:E.
  - rewrite (Hfg _ E). cbn [List.length]. lia.
  - destruct (g x); cbn [List.length]; lia.
Qed.

Lemma evictableIds_le s :
  Inv s -> N.of_nat (List.length (evictableIds s)) <= totalActiveMessages s.
Proof.
  intros HI. rewrite (Inv_total_userIds _ HI). unfold countLive, evictableIds.
  assert (H := filter_length_sub (evictable s) (live s) (userIds s)).
  assert (Hs : forall x, evictable s x = true -> live s x = true).
  { intros x Hx. unfold evictable in Hx. apply Bool.andb_true_iff in Hx.
    unfold live. tauto. }
  specialize (H Hs). lia.
Qed.

Lemma updateParameters_owner e a b c d s :
  msg_sender e = owner s ->
  updateParameters e a b c d s =
    if d <? totalActiveMessages s
    then n <- checked_sub (totalActiveMessages s) d ;;
         r <- deleteOldestMessages n (configured a b c d s) ;;
         Ok (snd r)
    else Ok (configured a b c d s).
Proof.
  intros Ho. unfold updateParameters.
  replace (msg_sender e =? owner s) with true
    by (symmetry; apply N.eqb_eq; exact Ho).
  reflexivity.
Qed.

(** X10. In a reachable state [updateParameters], called by the owner,
    succeeds whatever the four values are; afterwards [getParameters]
    returns them and the owner is unchanged.  When the new capacity [d] is
    below [totalActiveMessages], the [totalActiveMessages - d] oldest
    non-deleted posts (all non-deleted posts when there are fewer) are
    soft-deleted: they carry the tombstone afterwards and every other
    record, replies included, is as before, so that the new total is the
    larger of the new capacity and the number of non-deleted replies.
    Otherwise no record changes and the total stays. *)
Theorem updateParameters_sets_and_trims e a b c d s :
  reachable s -> msg_sender e = owner s ->
  exists s',
    updateParameters e a b c d s = Ok s' /\
    getParameters s' = (a, b, c, d) /\
    getOwner s' = getOwner s /\
    (forall x,
       messages s' x =
       if existsb (N.eqb x) (oldestPosts (totalActiveMessages s - d) s)
       then Message.markDeleted (messages s x) else messages s x) /\
    getMessageCount s' = getMessageCount s /\
    totalActiveMessages s' =
      if d <? totalActiveMessages s
      then N.max d (totalActiveMessages s
                    - N.of_nat (List.length (evictableIds s)))
      else totalActiveMessages s.
Proof.
  intros Hr Ho. assert (HI := reachable_Inv _ Hr).
  rewrite (updateParameters_owner e a b c d s Ho).
  destruct (N.ltb_spec d (totalActiveMessages s)) as [Hd|Hd].
  - rewrite checked_sub_fits by lia. cbn [bind].
    assert (HI' : Inv (configured a b c d s))
      by (apply (Inv_store s); [apply configured_store | exact HI]).
    destruct (deleteOldestMessages_total (totalActiveMessages s - d) _ HI')
      as (tr & s' & H).
    rewrite H. cbn [bind snd]. exists s'. split; [reflexivity|].
    assert (Hc := evict_config _ _ _ _ H).
    destruct (deleteOldestMessages_exact _ _ _ _ HI' H) as [H1 H2].
    assert (Hrec := deleteOldestMessages_records _ _ _ _ HI' H).
    destruct (tombstoneOnly_evict _ _ _ _ H) as (Hcount & _).
    assert (Hlen := f_equal (@List.length _) H1).
    unfold evictedIds in Hlen. rewrite length_map, length_firstn in Hlen.
    change (evictableIds (configured a b c d s)) with (evictableIds s) in Hlen.
    change (totalActiveMessages (configured a b c d s))
      with (totalActiveMessages s) in Hlen, H2, Hrec.
    change (oldestPosts
              (N.min (totalActiveMessages s - d) (totalActiveMessages s))
              (configured a b c d s))
      with (oldestPosts
              (N.min (totalActiveMessages s - d) (totalActiveMessages s)) s)
      in Hrec.
    change (messages (configured a b c d s)) with (messages s) in Hrec.
    replace (N.min (totalActiveMessages s - d) (totalActiveMessages s))
      with (totalActiveMessages s - d) in Hrec by lia.
    assert (Hev := evictableIds_le _ HI).
    split; [exact (f_equal snd Hc)|]. split; [exact (f_equal fst Hc)|].
    split; [exact Hrec|]. split; [exact Hcount|]. lia.
  - exists (configured a b c d s).
    replace (totalActiveMessages s - d) with 0 by lia.
    repeat split.
Qed.

(** ** Deleting a message *)

(** X14. In a reachable state the author of a non-deleted message, or the
    owner, can delete it: [markMessageAsDeleted] succeeds, the record keeps
    its fields and gains the tombstone, [totalActiveMessages] goes down by
    one, no id is freed, and a second deletion of the same message reverts
    with "Message already deleted". *)
Theorem markMessageAsDeleted_once e messageId s :
  reachable s ->
  messageId < messageCount s ->
  Message.sender (messages s messageId) = msg_sender e \/
    msg_sender e = owner s ->
  Message.isDeleted (messages s messageId) = false ->
  exists s',
    markMessageAsDeleted e messageId s = Ok s' /\
    getMessage messageId s' = Ok (Message.markDeleted (messages s messageId)) /\
    totalActiveMessages s' + 1 = totalActiveMessages s /\
    getMessageCount s' = getMessageCount s /\
    markMessageAsDeleted e messageId s' = Fail (Revert "Message already deleted").
Proof.
  intros Hr Hid Hauth Hlive. assert (HI := reachable_Inv _ Hr).
  assert (Hcan := Inv_canMark _ _ HI Hid Hlive).
  assert (Ha : forall s0,
            messages s0 messageId = messages s messageId \/
            messages s0 messageId = Message.markDeleted (messages s messageId) ->
            owner s0 = owner s ->
            ((Message.sender (messages s0 messageId) =? msg_sender e) ||
             (msg_sender e =? owner s0))%bool = true).
  { intros s0 Hm Ho. rewrite Ho. apply Bool.orb_true_iff.
    destruct Hauth as [Hs|Hs]; [left | right]; apply N.eqb_eq; [|exact Hs].
    destruct Hm as [-> | ->]; [exact Hs|]. cbn. exact Hs. }
  exists (emit (MessageDeleted messageId (msg_sender e))
            (markedState messageId s)).
  assert (Hmsg : messages (markedState messageId s) messageId
                 = Message.markDeleted (messages s messageId)).
  { rewrite markedState_messages, N.eqb_refl. reflexivity. }
  assert (Hcfg := markedState_config messageId s).
  repeat split.
  - unfold markMessageAsDeleted.
    replace (messageId <? messageCount s) with true
      by (symmetry; apply N.ltb_lt; exact Hid).
    rewrite (Ha s (or_introl eq_refl) eq_refl), Hlive. cbn [require bind negb].
    rewrite (mark_live_ok _ _ Hlive Hcan). reflexivity.
  - unfold getMessage. cbn [messageCount emit messages].
    change (messageCount (emit (MessageDeleted messageId (msg_sender e))
                            (markedState messageId s)))
      with (messageCount (markedState messageId s)).
    rewrite markedState_count.
    replace (messageId <? messageCount s) with true
      by (symmetry; apply N.ltb_lt; exact Hid).
    cbn [require bind].
    change (messages (emit (MessageDeleted messageId (msg_sender e))
                        (markedState messageId s)))
      with (messages (markedState messageId s)).
    rewrite Hmsg. reflexivity.
  - change (totalActiveMessages
              (emit (MessageDeleted messageId (msg_sender e))
                 (markedState messageId s)))
      with (totalActiveMessages (markedState messageId s)).
    rewrite markedState_total. destruct Hcan as (_ & _ & _ & Ht). lia.
  - unfold getMessageCount.
    change (messageCount (emit (MessageDeleted messageId (msg_sender e))
                            (markedState messageId s)))
      with (messageCount (markedState messageId s)).
    apply markedState_count.
  - unfold markMessageAsDeleted.
    change (messageCount (emit (MessageDeleted messageId (msg_sender e))
                            (markedState messageId s)))
      with (messageCount (markedState messageId s)).
    change (messages (emit (MessageDeleted messageId (msg_sender e))
                        (markedState messageId s)))
      with (messages (markedState messageId s)).
    change (owner (emit (MessageDeleted messageId (msg_sender e))
                     (markedState messageId s)))
      with (owner (markedState messageId s)).
    rewrite markedState_count.
    replace (messageId <? messageCount s) with true
      by (symmetry; apply N.ltb_lt; exact Hid).
    cbn [require bind]. rewrite Hmsg.
    replace (owner (markedState messageId s)) with (owner s)
      by (symmetry; exact (f_equal fst Hcfg)).
    replace ((Message.sender (Message.markDeleted (messages s messageId))
              =? msg_sender e) || (msg_sender e =? owner s))%bool with true.
    + reflexivity.
    + symmetry. apply Bool.orb_true_iff.
      destruct Hauth as [Hs|Hs]; [left | right]; apply N.eqb_eq; exact Hs.
Qed.

Lemma reachable_dummy s :
  reachable s ->
  Message.sender (messages s 0) = 0 /\
  Message.replyToMessageId (messages s 0) = 0.
Proof.
  induction 1 as [e|s e op s' Hr IH Hstep]; [split; reflexivity|].
  destruct (recordsStable_step _ _ _ _ Hstep) as [_ Hst].
  assert (H0 : 0 < messageCount s).
  { assert (H := inv_count_pos _ (reachable_Inv _ Hr)). lia. }
  destruct (Hst 0 H0) as [(Hs & _ & _ & _ & Hp) _]. rewrite Hs, Hp. exact IH.
Qed.

(** X15. The dummy message 0 cannot be deleted: in a reachable state
    [markMessageAsDeleted 0] fails for every caller, with "Message already
    deleted" for the owner and for address 0 and with "Not authorized to
    delete this message" for everybody else. *)
Theorem dummy_message_cannot_be_deleted e s :
  reachable s ->
  markMessageAsDeleted e 0 s =
    if (msg_sender e =? 0) || (msg_sender e =? owner s)
    then Fail (Revert "Message already deleted")
    else Fail (Revert "Not authorized to delete this message").
Proof.
  intros Hr. assert (HI := reachable_Inv _ Hr).
  unfold markMessageAsDeleted.
  replace (0 <? messageCount s) with true
    by (symmetry; apply N.ltb_lt; assert (H := inv_count_pos _ HI); lia).
  cbn [require bind].
  destruct (reachable_dummy _ Hr) as [Hs _].
  rewrite Hs, (N.eqb_sym 0 (msg_sender e)), (inv_dummy _ HI).
  destruct ((msg_sender e =? 0) || (msg_sender e =? owner s))%bool; reflexivity.
Qed.

(** ** Replies and their originals *)

(** X16. In a reachable state every existing record [r] with a non-zero
    parent id [q] is a reply to an older, existing message: [q < r],
    [getOriginalMessage r] returns the record [getMessage q] returns, and
    [r] is listed in the reply index of [q]. *)
Theorem getOriginalMessage_returns_listed_parent s r :
  reachable s ->
  r < messageCount s ->
  Message.replyToMessageId (messages s r) <> 0 ->
  exists q,
    Message.replyToMessageId (messages s r) = q /\
    q < r /\
    getOriginalMessage r s = Ok (messages s q) /\
    getMessage q s = Ok (messages s q) /\
    In r (messageReplies s q).
Proof.
  intros Hr Hlt Hq. assert (HI := reachable_Inv _ Hr).
  assert (HS := reachable_StoreInv _ Hr).
  assert (Hr0 : 0 < r).
  { destruct (N.eq_dec r 0) as [->|]; [|lia].
    destruct (reachable_dummy _ Hr) as [_ H0]. contradiction. }
  assert (Hpar := si_parent _ HS r Hr0 Hlt).
  exists (Message.replyToMessageId (messages s r)).
  split; [reflexivity|]. split; [exact Hpar|]. split; [|split].
  - unfold getOriginalMessage.
    replace (r <? messageCount s) with true
      by (symmetry; apply N.ltb_lt; exact Hlt).
    cbn [require bind]. cbv zeta.
    replace (0 <? Message.replyToMessageId (messages s r)) with true
      by (symmetry; apply N.ltb_lt; lia).
    reflexivity.
  - unfold getMessage.
    replace (Message.replyToMessageId (messages s r) <? messageCount s)
      with true by (symmetry; apply N.ltb_lt; lia).
    reflexivity.
  - rewrite (inv_reply_idx _ HI _ Hq), (inv_chron _ HI).
    apply filter_In. split; [apply iota_tail_In; lia|].
    unfold repliesTo. apply N.eqb_refl.
Qed.

(** ** The cooldown *)

Lemma create_clock e reply body s s' :
  step e (createOp reply body) s = Ok s' ->
  lastMessageTime s' (msg_sender e) = block_timestamp e /\
  messageCooldown s' = messageCooldown s.
Proof.
  intros H.
  assert (Hs : exists s1, makeRoom s = Ok s1 /\
                          s' = appendMessage e reply body s1).
  { destruct reply as [q|]; cbn [createOp step] in H.
    - apply replyToMessage_inv in H.
      destruct H as (_ & _ & s1 & Hroom & _ & ->). eauto.
    - apply postMessage_inv in H. destruct H as (_ & s1 & Hroom & _ & ->).
      eauto. }
  destruct Hs as (s1 & Hroom & ->). cbn [appendMessage lastMessageTime
    messageCooldown]. rewrite upd_same. split; [reflexivity|].
  apply makeRoom_config in Hroom. unfold configOf, getParameters in Hroom.
  congruence.
Qed.

(** X17. Posts and replies share one cooldown clock per sender: after a
    successful post or reply at time [t], no post and no reply of the same
    sender succeeds at a time from [t] up to, but not including,
    [t + messageCooldown]. *)
Theorem cooldown_blocks_next_create e reply body s s' e' reply' body' :
  step e (createOp reply body) s = Ok s' ->
  msg_sender e' = msg_sender e ->
  block_timestamp e <= block_timestamp e' ->
  block_timestamp e' < block_timestamp e + messageCooldown s' ->
  exists f, step e' (createOp reply' body') s' = Fail f.
Proof.
  intros H Hs Hle Hlt. destruct (create_clock _ _ _ _ _ H) as [Hclock _].
  destruct (step e' (createOp reply' body') s') as [s''|f] eqn:E; [|eauto].
  exfalso.
  assert (Hc : createChecks e' body' s' = Ok tt).
  { destruct reply' as [q|]; cbn [createOp step] in E.
    - apply replyToMessage_inv in E. tauto.
    - apply postMessage_inv in E. tauto. }
  apply createChecks_inv in Hc. destruct Hc as (_ & _ & _ & Hcool & _).
  rewrite Hs, Hclock in Hcool. apply N.leb_le in Hcool. lia.
Qed.

(** ** A new message and the queries *)

Lemma create_factored e reply body s s' :
  step e (createOp reply body) s = Ok s' ->
  exists s1,
    makeRoom s = Ok s1 /\ s' = appendMessage e reply body s1 /\
    messageCount s1 = messageCount s /\
    newMessage e (parentOf reply) body s1 = newMessage e (parentOf reply) body s.
Proof.
  intros H.
  assert (Hs : exists s1, makeRoom s = Ok s1 /\
                          s' = appendMessage e reply body s1).
  { destruct reply as [q|]; cbn [createOp step] in H.
    - apply replyToMessage_inv in H.
      destruct H as (_ & _ & s1 & Hroom & _ & ->). eauto.
    - apply postMessage_inv in H. destruct H as (_ & s1 & Hroom & _ & ->).
      eauto. }
  destruct Hs as (s1 & Hroom & ->). exists s1.
  split; [exact Hroom|]. split; [reflexivity|].
  destruct (tombstoneOnly_makeRoom _ _ Hroom) as (Hc & _).
  destruct (makeRoom_profiles _ _ Hroom) as [Hp _].
  split; [exact Hc|]. unfold newMessage. unfold profilesOf in Hp.
  replace (addressToProfile s1) with (addressToProfile s) by congruence.
  reflexivity.
Qed.

(** X18. In a reachable state a successful [postMessage] gives the new
    record the id [messageCount], which then grows by one; [getMessage]
    returns the record under that id, with the sender, the body, the block
    time, the sender's current nickname, parent 0 and no tombstone, and the
    record is the first entry of the feed: [getLatestMessages 1] returns
    exactly it. *)
Theorem postMessage_is_newest_of_feed e body s s' :
  reachable s ->
  postMessage e body s = Ok s' ->
  getMessageCount s' = getMessageCount s + 1 /\
  getMessage (messageCount s) s' = Ok (newMessage e 0 body s) /\
  getLatestMessages 1 s' =
    if 1 <=? maxReturnCount s then Ok [newMessage e 0 body s]
    else Fail (Revert "Too many messages requested").
Proof.
  intros Hr H.
  assert (Hstep : step e (createOp None body) s = Ok s') by exact H.
  assert (HI' : Inv s') by (eapply reachable_Inv, reachable_step; eauto).
  destruct (create_factored _ _ _ _ _ Hstep) as (s1 & Hroom & -> & Hc & Hn).
  cbn [parentOf] in Hn.
  assert (Hcfg := makeRoom_config _ _ Hroom).
  assert (Hmax : maxReturnCount s1 = maxReturnCount s).
  { unfold configOf, getParameters in Hcfg. congruence. }
  assert (Hmsg : messages (appendMessage e None body s1) (messageCount s)
                 = newMessage e 0 body s).
  { cbn [appendMessage messages parentOf]. rewrite <- Hc, upd_same. exact Hn. }
  split; [|split].
  - unfold getMessageCount. cbn [appendMessage messageCount]. lia.
  - unfold getMessage. cbn [appendMessage messageCount]. rewrite Hc.
    replace (messageCount s <? messageCount s + 1) with true
      by (symmetry; apply N.ltb_lt; lia).
    cbn [require bind]. rewrite <- Hmsg. reflexivity.
  - rewrite <- Hmax.
    change (maxReturnCount s1)
      with (maxReturnCount (appendMessage e None body s1)).
    destruct (1 <=? maxReturnCount (appendMessage e None body s1)) eqn:Hle.
    + rewrite (getLatestMessages_padded _ _ HI' Hle).
      cbn [appendMessage totalActiveMessages].
      replace (N.min 1 (totalActiveMessages s1 + 1)) with 1 by lia.
      unfold feed. cbn [appendMessage chronologicalMessageIds].
      rewrite rev_snoc. cbn [filter]. rewrite Hc.
      assert (Hpa : isPublicActive
                      (messages (appendMessage e None body s1) (messageCount s))
                    = true) by (rewrite Hmsg; reflexivity).
      rewrite Hpa. cbn [map]. rewrite Hmsg. unfold padded.
      change (N.to_nat 1) with 1%nat. cbn [firstn List.length Nat.sub repeat].
      reflexivity.
    + unfold getLatestMessages. rewrite Hle. reflexivity.
Qed.

(** X19. In a reachable state a successful [replyToMessage] to a parent
    [q] other than the dummy gives the new record the id [messageCount];
    [getMessage] returns it with parent [q] and no tombstone,
    [getOriginalMessage] of the new id returns what [getMessage q] returns,
    and the record is the last entry [getRepliesForMessage q] returns. *)
Theorem replyToMessage_is_last_reply e q body s s' :
  reachable s ->
  q <> 0 ->
  replyToMessage e q body s = Ok s' ->
  getMessageCount s' = getMessageCount s + 1 /\
  getMessage (messageCount s) s' = Ok (newMessage e q body s) /\
  getOriginalMessage (messageCount s) s' = getMessage q s' /\
  exists older,
    getRepliesForMessage q s' = Ok (older ++ [newMessage e q body s]).
Proof.
  intros Hr Hq H.
  assert (Hstep : step e (createOp (Some q) body) s = Ok s') by exact H.
  assert (HI' : Inv s') by (eapply reachable_Inv, reachable_step; eauto).
  assert (Hlt : q < messageCount s) by (apply replyToMessage_inv in H; tauto).
  destruct (create_factored _ _ _ _ _ Hstep) as (s1 & Hroom & -> & Hc & Hn).
  cbn [parentOf] in Hn.
  assert (Hmsg : messages (appendMessage e (Some q) body s1) (messageCount s)
                 = newMessage e q body s).
  { cbn [appendMessage messages parentOf]. rewrite <- Hc, upd_same. exact Hn. }
  assert (Hcnt : messageCount (appendMessage e (Some q) body s1)
                 = messageCount s + 1).
  { cbn [appendMessage messageCount]. lia. }
  assert (Hget : getMessage (messageCount s) (appendMessage e (Some q) body s1)
                 = Ok (newMessage e q body s)).
  { unfold getMessage. rewrite Hcnt.
    replace (messageCount s <? messageCount s + 1) with true
      by (symmetry; apply N.ltb_lt; lia).
    cbn [require bind]. rewrite Hmsg. reflexivity. }
  split; [|split; [|split]].
  - unfold getMessageCount. rewrite Hcnt. reflexivity.
  - exact Hget.
  - unfold getOriginalMessage, getMessage. rewrite Hcnt.
    replace (messageCount s <? messageCount s + 1) with true
      by (symmetry; apply N.ltb_lt; lia).
    replace (q <? messageCount s + 1) with true
      by (symmetry; apply N.ltb_lt; lia).
    cbn [require bind]. cbv zeta. rewrite Hmsg.
    cbn [newMessage Message.replyToMessageId].
    replace (0 <? q) with true by (symmetry; apply N.ltb_lt; lia).
    reflexivity.
  - unfold getRepliesForMessage. rewrite Hcnt.
    replace (q <? messageCount s + 1) with true
      by (symmetry; apply N.ltb_lt; lia).
    cbn [require bind]. cbv zeta. rewrite (replies_query_ok _ _ HI' Hq).
    unfold liveRecords.
    assert (Hidx : messageReplies (appendMessage e (Some q) body s1) q
                   = messageReplies s1 q ++ [messageCount s]).
    { cbn [appendMessage messageReplies]. rewrite upd_same, Hc. reflexivity. }
    rewrite Hidx, filter_app, map_app. cbn [filter].
    assert (Hl : live (appendMessage e (Some q) body s1) (messageCount s)
                 = true) by (unfold live; rewrite Hmsg; reflexivity).
    rewrite Hl. cbn [map]. rewrite Hmsg. eauto.
Qed.

(** ** The profile directory *)

(** Every directory entry points to an active profile that bears the
    handle. *)
Lemma reachable_directory s :
  reachable s ->
  forall h a, a <> 0 -> nicknameToAddress s h = a ->
    h <> "" /\
    UserProfile.nickname (addressToProfile s a) = h /\
    UserProfile.isActive (addressToProfile s a) = true.
Proof.
  induction 1 as [e|s e op s' Hr IH Hstep]; intros h a Ha Hh.
  { cbn in Hh. congruence. }
  destruct op;
    try (match type of Hstep with
         | step _ ?op _ = _ =>
             destruct (step_profiles e op s s' I Hstep) as [Hp Hn]
         end;
         rewrite Hp; rewrite Hn in Hh; apply IH; assumption);
    cbn [step] in Hstep.
  - apply updateProfile_inv in Hstep. cbv zeta in Hstep.
    destruct Hstep as (Hv & _ & Hp & Hn). rewrite Hp. rewrite Hn in Hh.
    destruct (String.eqb_spec h nickname) as [->|Hne].
    + rewrite upd_same in Hh. subst a. rewrite upd_same. cbn.
      split; [apply validNickname_nonempty; exact Hv | split; reflexivity].
    + rewrite upd_other in Hh by congruence.
      set (old := UserProfile.nickname (addressToProfile s (msg_sender e))) in *.
      assert (Hold : nicknameToAddress s h = a /\
                     ~ (h = old /\ nicknameToAddress s old = msg_sender e)).
      { destruct ((0 <? strlen old) && (nicknameToAddress s old =? msg_sender e))
          eqn:Hc.
        - destruct (String.eqb_spec h old) as [->|Hno].
          + rewrite upd_same in Hh. congruence.
          + rewrite upd_other in Hh by congruence. split; [exact Hh|]. tauto.
        - split; [exact Hh|]. intros [-> Hx].
          apply Bool.andb_false_iff in Hc. destruct Hc as [Hc|Hc].
          + destruct (IH old a Ha Hh) as (Hne' & _).
            apply strlen_pos in Hne'. congruence.
          + apply N.eqb_neq in Hc. contradiction. }
      destruct Hold as [Hh' Hnot]. destruct (IH h a Ha Hh') as (H1 & H2 & H3).
      assert (Hax : a <> msg_sender e).
      { intros ->. apply Hnot. split; [symmetry; exact H2|].
        unfold old. rewrite H2. exact Hh'. }
      rewrite upd_other by congruence. auto.
  - apply updateAvatar_inv in Hstep. destruct Hstep as [Hp Hn].
    rewrite Hn in Hh. destruct (IH h a Ha Hh) as (H1 & H2 & H3).
    rewrite Hp. split; [exact H1|].
    destruct (N.eq_dec a (msg_sender e)) as [->|Hne].
    + rewrite upd_same. cbn. auto.
    + rewrite upd_other by congruence. auto.
  - apply deactivateProfile_inv in Hstep. cbv zeta in Hstep.
    destruct Hstep as (_ & Hp & Hn). rewrite Hn in Hh. unfold released in Hh.
    set (cur := UserProfile.nickname (addressToProfile s (msg_sender e))) in *.
    assert (Hold : nicknameToAddress s h = a /\
                   ~ (h = cur /\ nicknameToAddress s cur = msg_sender e)).
    { destruct (N.eqb_spec (nicknameToAddress s cur) (msg_sender e)) as [Hc|Hc].
      - destruct (String.eqb_spec h cur) as [->|Hno].
        + rewrite upd_same in Hh. congruence.
        + rewrite upd_other in Hh by congruence. split; [exact Hh|]. tauto.
      - split; [exact Hh|]. tauto. }
    destruct Hold as [Hh' Hnot]. destruct (IH h a Ha Hh') as (H1 & H2 & H3).
    assert (Hax : a <> msg_sender e).
    { intros ->. apply Hnot. split; [symmetry; exact H2|].
      unfold cur. rewrite H2. exact Hh'. }
    rewrite Hp, upd_other by congruence. auto.
Qed.

(** X20. In a reachable state the nickname directory and the profiles
    agree: for an address [a] other than 0, [getAddressByNickname h]
    returns [a] exactly when [getUserProfile a] shows an active profile
    with nickname [h]. *)
Theorem directory_matches_profiles s h a :
  reachable s -> a <> 0 ->
  getAddressByNickname h s = a <->
  exists av, getUserProfile a s = (h, av, true).
Proof.
  intros Hr Ha. unfold getAddressByNickname, getUserProfile. cbv zeta. split.
  - intros Hh. destruct (reachable_directory _ Hr h a Ha Hh) as (_ & H2 & H3).
    exists (UserProfile.avatarCode (addressToProfile s a)).
    rewrite H2, H3. reflexivity.
  - intros [av Hp]. injection Hp as H1 _ H3.
    rewrite <- H1. apply (pi_directory _ (reachable_ProfInv _ Hr) a Ha H3).
Qed.

Lemma directory_of_sender s x h :
  reachable s -> nicknameToAddress s h = x -> x <> 0 ->
  h = UserProfile.nickname (addressToProfile s x) /\ h <> "".
Proof.
  intros Hr Hh Hx. destruct (reachable_directory _ Hr h x Hx Hh) as (H1 & H2 & _).
  split; [symmetry; exact H2 | exact H1].
Qed.

(** X21. In a reachable state [updateProfile] with a well-formed nickname
    (1 to 32 letters, digits or underscores) that is free or already the
    sender's own succeeds; afterwards [getUserProfile] of the sender shows
    the nickname, the avatar and an active profile, [getAddressByNickname]
    of the nickname returns the sender, every other nickname that pointed to
    the sender points to address 0, and all other directory entries and
    profiles are as before. *)
Theorem updateProfile_moves_the_handle e nick av s :
  reachable s ->
  validNickname nick = true ->
  getAddressByNickname nick s = 0 \/
    getAddressByNickname nick s = msg_sender e ->
  exists s',
    updateProfile e nick av s = Ok s' /\
    getUserProfile (msg_sender e) s' = (nick, av, true) /\
    getAddressByNickname nick s' = msg_sender e /\
    (forall h, h <> nick ->
       getAddressByNickname h s' =
       if getAddressByNickname h s =? msg_sender e then 0
       else getAddressByNickname h s) /\
    (forall a, a <> msg_sender e -> getUserProfile a s' = getUserProfile a s).
Proof.
  intros Hr Hv Hfree. unfold getAddressByNickname in *.
  destruct (updateProfile_ok e nick av s Hv Hfree) as [s' H].
  exists s'. split; [exact H|].
  apply updateProfile_inv in H. cbv zeta in H.
  destruct H as (_ & _ & Hp & Hn).
  set (x := msg_sender e) in *.
  set (old := UserProfile.nickname (addressToProfile s x)) in *.
  split; [|split; [|split]].
  - unfold getUserProfile. rewrite Hp, upd_same. reflexivity.
  - rewrite Hn, upd_same. reflexivity.
  - intros h Hh. rewrite Hn, upd_other by congruence.
    destruct (N.eqb_spec (nicknameToAddress s h) x) as [Hx|Hx].
    + destruct (N.eq_dec x 0) as [Hz|Hz].
      * destruct ((0 <? strlen old) && (nicknameToAddress s old =? x));
          [|congruence].
        destruct (String.eqb_spec h old) as [->|Hno];
          [apply upd_same | rewrite upd_other by congruence; congruence].
      * destruct (directory_of_sender _ _ _ Hr Hx Hz) as [Ho Hne].
        fold old in Ho. subst h.
        replace (0 <? strlen old) with true
          by (symmetry; apply strlen_pos; exact Hne).
        replace (nicknameToAddress s old =? x) with true
          by (symmetry; apply N.eqb_eq; exact Hx).
        cbn [andb]. apply upd_same.
    + destruct ((0 <? strlen old) && (nicknameToAddress s old =? x)) eqn:Hc;
        [|reflexivity].
      apply Bool.andb_true_iff in Hc. destruct Hc as [_ Hc].
      apply N.eqb_eq in Hc.
      rewrite upd_other; [reflexivity|]. intros <-. contradiction.
  - intros a Hax. unfold getUserProfile. rewrite Hp, upd_other by congruence.
    reflexivity.
Qed.

(** X22. In a reachable state [deactivateProfile] of a sender who has a
    nickname succeeds; the profile keeps its nickname and avatar and becomes
    inactive, every directory entry that pointed to the sender points to
    address 0 and all others are as before, and no post or reply of the
    sender succeeds in the resulting state. *)
Theorem deactivateProfile_releases_and_silences e s :
  reachable s ->
  UserProfile.nickname (addressToProfile s (msg_sender e)) <> "" ->
  exists s',
    deactivateProfile e s = Ok s' /\
    getUserProfile (msg_sender e) s' =
      (UserProfile.nickname (addressToProfile s (msg_sender e)),
       UserProfile.avatarCode (addressToProfile s (msg_sender e)), false) /\
    (forall h,
       getAddressByNickname h s' =
       if getAddressByNickname h s =? msg_sender e then 0
       else getAddressByNickname h s) /\
    (forall e' reply body, msg_sender e' = msg_sender e ->
       exists f, step e' (createOp reply body) s' = Fail f).
Proof.
  intros Hr Hnick. unfold getAddressByNickname.
  destruct (deactivateProfile e s) as [s'|f] eqn:H.
  2:{ unfold deactivateProfile in H.
      replace (0 <? strlen (UserProfile.nickname
                              (addressToProfile s (msg_sender e))))
        with true in H by (symmetry; apply strlen_pos; exact Hnick).
      cbn [require bind] in H. discriminate H. }
  exists s'. split; [reflexivity|].
  apply deactivateProfile_inv in H. cbv zeta in H. destruct H as (_ & Hp & Hn).
  set (x := msg_sender e) in *.
  set (cur := UserProfile.nickname (addressToProfile s x)) in *.
  split; [|split].
  - unfold getUserProfile. rewrite Hp, upd_same. reflexivity.
  - intros h. rewrite Hn. unfold released.
    destruct (N.eqb_spec (nicknameToAddress s h) x) as [Hx|Hx].
    + destruct (N.eq_dec x 0) as [Hz|Hz].
      * destruct (nicknameToAddress s cur =? x); [|congruence].
        destruct (String.eqb_spec h cur) as [->|Hno];
          [apply upd_same | rewrite upd_other by congruence; congruence].
      * destruct (directory_of_sender _ _ _ Hr Hx Hz) as [Ho _].
        fold cur in Ho. subst h.
        replace (nicknameToAddress s cur =? x) with true
          by (symmetry; apply N.eqb_eq; exact Hx).
        apply upd_same.
    + destruct (N.eqb_spec (nicknameToAddress s cur) x) as [Hc|Hc];
        [|reflexivity].
      rewrite upd_other; [reflexivity|]. intros <-. contradiction.
  - intros e' reply body He.
    destruct (step e' (createOp reply body) s') as [s''|f] eqn:E; [|eauto].
    exfalso.
    assert (Hc : createChecks e' body s' = Ok tt).
    { destruct reply as [q|]; cbn [createOp step] in E.
      - apply replyToMessage_inv in E. tauto.
      - apply postMessage_inv in E. tauto. }
    apply createChecks_inv in Hc. destruct Hc as (_ & _ & _ & _ & _ & Hact).
    rewrite He, Hp in Hact. fold x in Hact. rewrite upd_same in Hact.
    discriminate Hact.
Qed.

(** X24. [updateAvatar] of a sender who has a nickname succeeds and changes
    the avatar only: the nickname and the activity flag of the profile, the
    nickname directory and all other profiles are as before, so a
    deactivated profile stays deactivated. *)
Theorem updateAvatar_changes_avatar_only e av s :
  UserProfile.nickname (addressToProfile s (msg_sender e)) <> "" ->
  exists s',
    updateAvatar e av s = Ok s' /\
    getUserProfile (msg_sender e) s' =
      (UserProfile.nickname (addressToProfile s (msg_sender e)), av,
       UserProfile.isActive (addressToProfile s (msg_sender e))) /\
    (forall h, getAddressByNickname h s' = getAddressByNickname h s) /\
    (forall a, a <> msg_sender e -> getUserProfile a s' = getUserProfile a s).
Proof.
  intros Hnick.
  destruct (updateAvatar e av s) as [s'|f] eqn:H.
  2:{ unfold updateAvatar in H. cbv zeta in H.
      replace (0 <? strlen (UserProfile.nickname
                              (addressToProfile s (msg_sender e))))
        with true in H by (symmetry; apply strlen_pos; exact Hnick).
      cbn [require bind] in H. discriminate H. }
  exists s'. split; [reflexivity|].
  apply updateAvatar_inv in H. destruct H as [Hp Hn].
  unfold getUserProfile, getAddressByNickname. rewrite Hp, Hn.
  split; [rewrite upd_same; reflexivity|]. split; [reflexivity|].
  intros a Ha. rewrite upd_other by congruence. reflexivity.
Qed.

(** ** Ids *)

(** X25. Ids are handed out densely and never reused: a successful post
    or reply raises [getMessageCount] by exactly one, and no other
    transaction changes it, deletions and evictions included. *)
Theorem only_creates_allocate_ids e op s s' :
  step e op s = Ok s' ->
  getMessageCount s' = getMessageCount s + (if isCreate op then 1 else 0).
Proof.
  intros H. unfold getMessageCount.
  destruct (isProfileOp op) eqn:Hop.
  { assert (E := profileOp_store _ _ _ _ Hop H). unfold storeOf in E.
    assert (Hc : messageCount s' = messageCount s) by congruence.
    destruct op; try discriminate Hop; cbn [isCreate]; lia. }
  destruct op; try discriminate Hop; cbn [isCreate].
  - change (PostMessage content) with (createOp None content) in H.
    destruct (create_factored _ _ _ _ _ H) as (s1 & _ & -> & Hc & _).
    cbn [appendMessage messageCount]. lia.
  - change (ReplyToMessage replyToMessageId content)
      with (createOp (Some replyToMessageId) content) in H.
    destruct (create_factored _ _ _ _ _ H) as (s1 & _ & -> & Hc & _).
    cbn [appendMessage messageCount]. lia.
  - cbn [step] in H. unfold markMessageAsDeleted in H. bind_inv H u1 E1.
    bind_inv H u2 E2. bind_inv H u3 E3. bind_inv H s1 Hm. injection H as <-.
    destruct (tombstoneOnly_mark _ _ _ Hm) as (Hc & _).
    change (messageCount (emit (MessageDeleted messageId (msg_sender e)) s1))
      with (messageCount s1). lia.
  - cbn [step] in H. apply updateParameters_inv in H.
    destruct H as [_ [(_ & tr & H) | (_ & ->)]].
    + destruct (tombstoneOnly_evict _ _ _ _ H) as (Hc & _).
      change (messageCount (configured newMaxMessageLength newMessageCooldown
                              newMaxReturnCount newMaxActiveMessages s))
        with (messageCount s) in Hc. lia.
    + change (messageCount (configured newMaxMessageLength newMessageCooldown
                              newMaxReturnCount newMaxActiveMessages s))
        with (messageCount s). lia.
Qed.

(** ** Creating a message *)

(** X26. In a reachable state with an id left, a post or reply that meets
    the checks of the source (existing parent, body of 1 to
    [maxMessageLength] bytes, cooldown elapsed, active profile) succeeds: no
    counter overflows and the eviction never fails.  The active total grows
    by one, except that it stays the same when the store was full and a
    non-deleted post could be evicted. *)
Theorem create_succeeds_when_checks_pass e reply body s :
  reachable s ->
  messageCount s < MAX_UINT256 ->
  parentOf reply < messageCount s ->
  0 < strlen body ->
  strlen body <= maxMessageLength s ->
  lastMessageTime s (msg_sender e) <= block_timestamp e ->
  messageCooldown s <= block_timestamp e - lastMessageTime s (msg_sender e) ->
  UserProfile.isActive (addressToProfile s (msg_sender e)) = true ->
  exists s',
    step e (createOp reply body) s = Ok s' /\
    getTotalActiveMessages s' =
      if (maxActiveMessages s <=? totalActiveMessages s) && hasEvictable s
      then totalActiveMessages s else totalActiveMessages s + 1.
Proof.
  intros Hr Hmax Hpar Hbody Hlen Htime Hcool Hact.
  assert (HI := reachable_Inv _ Hr). assert (HP := reachable_ProfInv _ Hr).
  assert (Hchecks : createChecks e body s = Ok tt).
  { apply createChecks_ok; auto.
    - apply N.ltb_lt, Hbody.
    - apply N.leb_le, Hlen.
    - apply (pi_named _ HP), Hact. }
  destruct (makeRoom_total _ HI) as [s1 Hroom].
  assert (HI1 := Inv_makeRoom _ _ HI Hroom).
  destruct (tombstoneOnly_makeRoom _ _ Hroom) as (Hc1 & _).
  assert (Hfit : messageCount s1 + 1 <= MAX_UINT256) by lia.
  assert (Hcan := Inv_canAppend s1 e reply body HI1 Hfit).
  assert (Hstep : step e (createOp reply body) s
                  = Ok (appendMessage e reply body s1)).
  { destruct reply as [q|]; cbn [createOp step parentOf] in *.
    - apply replyToMessage_ok; assumption.
    - apply postMessage_ok; assumption. }
  exists (appendMessage e reply body s1). split; [exact Hstep|].
  assert (Hop : isCreate (createOp reply body) = true)
    by (destruct reply; reflexivity).
  apply (create_total _ _ _ _ HI Hop Hstep).
Qed.

(** ** Events *)

Lemma mark_emitted messageId s s' :
  _markMessageAsDeleted messageId s = Ok s' -> emitted s' = emitted s.
Proof.
  intros H. destruct (Message.isDeleted (messages s messageId)) eqn:E.
  - rewrite (mark_deleted_noop _ _ E) in H. injection H as <-. reflexivity.
  - destruct (mark_live_inv _ _ _ E H) as [_ ->].
    unfold markedState. cbv zeta. split_ifs; reflexivity.
Qed.

Lemma deleteLoop_emitted ids d m tr s d' tr' s' :
  deleteLoop ids d m tr s = Ok (d', tr', s') -> emitted s' = emitted s.
Proof.
  intros H.
  eapply (deleteLoop_rel (fun a b => emitted b = emitted a) (fun _ => True)).
  - reflexivity.
  - intros a b c A B. congruence.
  - intros a id b _ _ Hm. eapply mark_emitted; eauto.
  - apply Forall_True.
  - exact H.
Qed.

Lemma deleteOldestMessages_events count s tr s' :
  Inv s -> deleteOldestMessages count s = Ok (tr, s') ->
  emitted s' =
    emitted s ++
    (if 0 <? N.of_nat (List.length tr)
     then [OldMessagesDeleted (N.of_nat (List.length tr))] else []).
Proof.
  intros HI H. unfold deleteOldestMessages in H.
  destruct ((count =? 0) || (totalActiveMessages s =? 0))%bool.
  { injection H as <- <-. cbn. rewrite app_nil_r. reflexivity. }
  rewrite min_ite in H. bind_inv H r Eloop. destruct r as [[d tr0] s0].
  assert (He := deleteLoop_emitted _ _ _ _ _ _ _ _ Eloop).
  apply deleteLoop_exact in Eloop;
    [| apply Inv_tail_NoDup, HI | exact HI | apply Inv_tail_lt, HI].
  cbn [evictedIds map app] in Eloop. destruct Eloop as (H1 & H2 & _).
  assert (Hd : d = N.of_nat (List.length tr0)).
  { rewrite H2, <- H1. unfold evictedIds. rewrite length_map. lia. }
  destruct (0 <? d) eqn:Hpos; injection H as <- <-; rewrite <- Hd, Hpos.
  - change (emitted (emit (OldMessagesDeleted d) s0))
      with (emitted s0 ++ [OldMessagesDeleted d]).
    rewrite He. reflexivity.
  - rewrite He, app_nil_r. reflexivity.
Qed.

(** X27. In a reachable state a successful post or reply appends to the
    event log one [OldMessagesDeleted(1)] event when the store was full and
    a non-deleted post could be evicted, and then one [MessageSent] or
    [ReplyMessageSent] event that carries the new id, the sender and the
    block time; the evicted record itself is announced by no
    [MessageDeleted] event. *)
Theorem create_events e reply body s s' :
  reachable s ->
  step e (createOp reply body) s = Ok s' ->
  emitted s' =
    emitted s ++
    (if (maxActiveMessages s <=? totalActiveMessages s) && hasEvictable s
     then [OldMessagesDeleted 1] else []) ++
    [match reply with
     | Some q =>
         ReplyMessageSent (messageCount s) (msg_sender e) q (block_timestamp e)
     | None =>
         MessageSent (messageCount s) (msg_sender e) body (block_timestamp e)
     end].
Proof.
  intros Hr H. assert (HI := reachable_Inv _ Hr).
  destruct (create_factored _ _ _ _ _ H) as (s1 & Hroom & -> & Hc & _).
  cbn [appendMessage emitted]. rewrite Hc, app_assoc. f_equal.
  unfold makeRoom in Hroom.
  destruct (maxActiveMessages s <=? totalActiveMessages s); cbn [andb].
  2:{ injection Hroom as <-. rewrite app_nil_r. reflexivity. }
  bind_inv Hroom r E. destruct r as [tr s0]. injection Hroom as <-.
  cbn [snd]. rewrite (deleteOldestMessages_events _ _ _ _ HI E).
  destruct (evict_one_total _ _ _ HI E) as [_ Ht].
  destruct (deleteOldestMessages_exact _ _ _ _ HI E) as [_ Hn].
  destruct (hasEvictable s).
  - replace (N.of_nat (List.length tr)) with 1 by lia. reflexivity.
  - replace (N.of_nat (List.length tr)) with 0 by lia. reflexivity.
Qed.

(** ** Instances on the scenarios *)

Lemma getRepliesForMessage_returns_live_replies_witness :
  reachable thread /\ 1 <> 0 /\
  getRepliesForMessage 1 thread =
    if 1 <? messageCount thread
    then Ok (map (messages thread)
               (filter (fun id => repliesTo thread 1 id && live thread id)
                       (userIds thread)))
    else Fail (Revert "Message does not exist").
Proof.
  assert (Hr : reachable thread) by apply reachable_after.
  assert (Hq : 1 <> 0) by discriminate.
  split; [exact Hr|]. split; [exact Hq|].
  exact (getRepliesForMessage_returns_live_replies thread 1 Hr Hq).
Defined.

Lemma getMessagesBySender_returns_live_records_witness :
  reachable board /\
  getMessagesBySender 20 board =
    Ok (map (messages board)
          (filter (fun id => sentBy board 20 id && live board id)
                  (userIds board))).
Proof.
  assert (Hr : reachable board) by apply reachable_after.
  split; [exact Hr|].
  exact (getMessagesBySender_returns_live_records board 20 Hr).
Defined.

Lemma getMessagesByPeriod_returns_live_records_witness :
  reachable board /\
  getMessagesByPeriod 0 board =
    if 0 <=? lastPeriod board
    then Ok (map (messages board)
               (filter (fun id => inPeriod 0 id && live board id)
                       (iota (messageCount board))))
    else Fail (Revert "Period does not exist").
Proof.
  assert (Hr : reachable board) by apply reachable_after.
  split; [exact Hr|].
  exact (getMessagesByPeriod_returns_live_records board 0 Hr).
Defined.

Lemma getAvailablePeriods_are_the_queryable_periods_witness :
  reachable board /\
  getAvailablePeriods board = iota (lastPeriod board + 1) /\
  forall p, In p (getAvailablePeriods board) <->
            exists ms, getMessagesByPeriod p board = Ok ms.
Proof.
  assert (Hr : reachable board) by apply reachable_after.
  split; [exact Hr|].
  exact (getAvailablePeriods_are_the_queryable_periods board Hr).
Defined.

Lemma getLatestMessages_newest_posts_then_blanks_witness :
  reachable thread /\
  getLatestMessages 2 thread =
    if 2 <=? maxReturnCount thread
    then Ok (padded (N.to_nat (N.min 2 (totalActiveMessages thread)))
               (feed thread))
    else Fail (Revert "Too many messages requested").
Proof.
  assert (Hr : reachable thread) by apply reachable_after.
  split; [exact Hr|].
  exact (getLatestMessages_newest_posts_then_blanks thread 2 Hr).
Defined.

Lemma getLatestMessages_exact_when_enough_posts_witness :
  reachable board /\
  2 <= maxReturnCount board /\
  2 <= N.of_nat (List.length (feed board)) /\
  getLatestMessages 2 board = Ok (firstn (N.to_nat 2) (feed board)).
Proof.
  assert (Hr : reachable board) by apply reachable_after.
  assert (Hc : 2 <= maxReturnCount board) by (vm_compute; discriminate).
  assert (Hn : 2 <= N.of_nat (List.length (feed board)))
    by (vm_compute; discriminate).
  split; [exact Hr|]. split; [exact Hc|]. split; [exact Hn|].
  exact (getLatestMessages_exact_when_enough_posts board 2 Hr Hc Hn).
Defined.

Lemma getMessagesWithPagination_page_then_blanks_witness :
  reachable board /\
  getMessagesWithPagination 1 2 board =
    if 2 =? 0
    then Fail (Revert "Page size must be greater than 0")
    else if maxReturnCount board <? 2
    then Fail (Revert "Page size too large")
    else if MAX_UINT256 <? 1 * 2
    then Fail (Panic ARITH)
    else if totalActiveMessages board <=? 1 * 2
    then Ok []
    else if MAX_UINT256 <? 1 * 2 + 2
    then Fail (Panic ARITH)
    else Ok (padded
               (N.to_nat (N.min 2 (totalActiveMessages board - 1 * 2)))
               (skipn (N.to_nat (1 * 2)) (feed board))).
Proof.
  assert (Hr : reachable board) by apply reachable_after.
  split; [exact Hr|].
  exact (getMessagesWithPagination_page_then_blanks board 1 2 Hr).
Defined.

Lemma getMessagesWithPagination_exact_inside_feed_witness :
  reachable board /\
  0 < 1 /\ 1 <= maxReturnCount board /\
  2 * 1 + 1 <= N.of_nat (List.length (feed board)) /\
  getMessagesWithPagination 2 1 board =
    Ok (firstn (N.to_nat 1) (skipn (N.to_nat (2 * 1)) (feed board))).
Proof.
  assert (Hr : reachable board) by apply reachable_after.
  assert (Hp : 0 < 1) by reflexivity.
  assert (Hm : 1 <= maxReturnCount board) by (vm_compute; discriminate).
  assert (Hin : 2 * 1 + 1 <= N.of_nat (List.length (feed board)))
    by (vm_compute; discriminate).
  split; [exact Hr|]. split; [exact Hp|]. split; [exact Hm|].
  split; [exact Hin|].
  exact (getMessagesWithPagination_exact_inside_feed board 2 1 Hr Hp Hm Hin).
Defined.

Lemma deleteOldestMessages_takes_oldest_posts_witness :
  reachable board /\
  storeOf boardConfigured = storeOf board /\
  exists tr s',
    deleteOldestMessages 3 boardConfigured = Ok (tr, s') /\
    evictedIds tr =
      oldestPosts (N.min 3 (totalActiveMessages boardConfigured))
        boardConfigured /\
    (forall x,
       messages s' x =
       if existsb (N.eqb x)
            (oldestPosts (N.min 3 (totalActiveMessages boardConfigured))
               boardConfigured)
       then Message.markDeleted (messages boardConfigured x)
       else messages boardConfigured x) /\
    totalActiveMessages s' +
      N.of_nat (List.length
                  (oldestPosts (N.min 3 (totalActiveMessages boardConfigured))
                     boardConfigured))
    = totalActiveMessages boardConfigured.
Proof.
  assert (Hr : reachable board) by apply reachable_after.
  assert (Hst : storeOf boardConfigured = storeOf board)
    by (vm_compute; reflexivity).
  split; [exact Hr|]. split; [exact Hst|].
  exact (deleteOldestMessages_takes_oldest_posts 3 board boardConfigured
           Hr Hst).
Defined.

Lemma updateParameters_sets_and_trims_witness :
  reachable board /\
  msg_sender deployer = owner board /\
  oldestPosts (totalActiveMessages board - 1) board = [1; 3; 4] /\
  exists s',
    updateParameters deployer 768 60 50 1 board = Ok s' /\
    getParameters s' = (768, 60, 50, 1) /\
    getOwner s' = getOwner board /\
    (forall x,
       messages s' x =
       if existsb (N.eqb x) (oldestPosts (totalActiveMessages board - 1) board)
       then Message.markDeleted (messages board x) else messages board x) /\
    getMessageCount s' = getMessageCount board /\
    totalActiveMessages s' =
      if 1 <? totalActiveMessages board
      then N.max 1 (totalActiveMessages board
                    - N.of_nat (List.length (evictableIds board)))
      else totalActiveMessages board.
Proof.
  assert (Hr : reachable board) by apply reachable_after.
  assert (Ho : msg_sender deployer = owner board) by reflexivity.
  split; [exact Hr|]. split; [exact Ho|]. split; [vm_compute; reflexivity|].
  exact (updateParameters_sets_and_trims deployer 768 60 50 1 board Hr Ho).
Defined.

Lemma only_owner_changes_configuration_witness :
  step (alice 2100) (PostMessage "hello") joined = Ok firstPost /\
  msg_sender (alice 2100) <> owner joined /\
  getOwner firstPost = getOwner joined /\
  getParameters firstPost = getParameters joined.
Proof.
  assert (Hs : step (alice 2100) (PostMessage "hello") joined = Ok firstPost)
    by (vm_compute; reflexivity).
  assert (Hne : msg_sender (alice 2100) <> owner joined)
    by (vm_compute; discriminate).
  split; [exact Hs|]. split; [exact Hne|].
  exact (only_owner_changes_configuration (alice 2100) (PostMessage "hello")
           joined firstPost Hs Hne).
Defined.

Lemma owner_never_becomes_zero_witness :
  steps joined firstPost /\ getOwner joined <> 0 /\ getOwner firstPost <> 0.
Proof.
  assert (Hs : steps joined firstPost).
  { eapply steps_step; [|apply steps_refl].
    instantiate (1 := PostMessage "hello"). instantiate (1 := alice 2100).
    vm_compute. reflexivity. }
  assert (Ho : getOwner joined <> 0) by (vm_compute; discriminate).
  split; [exact Hs|]. split; [exact Ho|].
  exact (owner_never_becomes_zero joined firstPost Hs Ho).
Defined.

Lemma transferOwnership_hands_over_witness :
  msg_sender deployer = owner joined /\ 10 <> 0 /\ 10 <> msg_sender deployer /\
  exists s',
    transferOwnership deployer 10 joined = Ok s' /\
    getOwner s' = 10 /\
    getParameters s' = getParameters joined /\
    storeOf s' = storeOf joined /\
    emitted s' = emitted joined /\
    (forall e' a b c d, msg_sender e' = msg_sender deployer ->
       updateParameters e' a b c d s' =
       Fail (Revert "Only owner can call this function")) /\
    (forall e' a, msg_sender e' = msg_sender deployer ->
       transferOwnership e' a s' =
       Fail (Revert "Only owner can call this function")).
Proof.
  assert (Ho : msg_sender deployer = owner joined) by reflexivity.
  assert (Hz : 10 <> 0) by discriminate.
  assert (Hne : 10 <> msg_sender deployer) by (vm_compute; discriminate).
  split; [exact Ho|]. split; [exact Hz|]. split; [exact Hne|].
  exact (transferOwnership_hands_over deployer 10 joined Ho Hz Hne).
Defined.

Lemma markMessageAsDeleted_once_witness :
  reachable thread /\
  1 < messageCount thread /\
  (Message.sender (messages thread 1) = msg_sender (alice 2200) \/
   msg_sender (alice 2200) = owner thread) /\
  Message.isDeleted (messages thread 1) = false /\
  exists s',
    markMessageAsDeleted (alice 2200) 1 thread = Ok s' /\
    getMessage 1 s' = Ok (Message.markDeleted (messages thread 1)) /\
    totalActiveMessages s' + 1 = totalActiveMessages thread /\
    getMessageCount s' = getMessageCount thread /\
    markMessageAsDeleted (alice 2200) 1 s'
    = Fail (Revert "Message already deleted").
Proof.
  assert (Hr : reachable thread) by apply reachable_after.
  assert (Hid : 1 < messageCount thread) by (vm_compute; reflexivity).
  assert (Ha : Message.sender (messages thread 1) = msg_sender (alice 2200) \/
               msg_sender (alice 2200) = owner thread)
    by (left; vm_compute; reflexivity).
  assert (Hl : Message.isDeleted (messages thread 1) = false)
    by (vm_compute; reflexivity).
  split; [exact Hr|]. split; [exact Hid|]. split; [exact Ha|].
  split; [exact Hl|].
  exact (markMessageAsDeleted_once (alice 2200) 1 thread Hr Hid Ha Hl).
Defined.

Lemma dummy_message_cannot_be_deleted_witness :
  reachable thread /\
  markMessageAsDeleted deployer 0 thread =
    if (msg_sender deployer =? 0) || (msg_sender deployer =? owner thread)
    then Fail (Revert "Message already deleted")
    else Fail (Revert "Not authorized to delete this message").
Proof.
  assert (Hr : reachable thread) by apply reachable_after.
  split; [exact Hr|].
  exact (dummy_message_cannot_be_deleted deployer thread Hr).
Defined.

Lemma getOriginalMessage_returns_listed_parent_witness :
  reachable thread /\
  2 < messageCount thread /\
  Message.replyToMessageId (messages thread 2) <> 0 /\
  exists q,
    Message.replyToMessageId (messages thread 2) = q /\
    q < 2 /\
    getOriginalMessage 2 thread = Ok (messages thread q) /\
    getMessage q thread = Ok (messages thread q) /\
    In 2 (messageReplies thread q).
Proof.
  assert (Hr : reachable thread) by apply reachable_after.
  assert (Hlt : 2 < messageCount thread) by (vm_compute; reflexivity).
  assert (Hq : Message.replyToMessageId (messages thread 2) <> 0)
    by (vm_compute; discriminate).
  split; [exact Hr|]. split; [exact Hlt|]. split; [exact Hq|].
  exact (getOriginalMessage_returns_listed_parent thread 2 Hr Hlt Hq).
Defined.

Lemma cooldown_blocks_next_create_witness :
  step (alice 2100) (createOp None "hello") joined = Ok firstPost /\
  msg_sender (alice 2110) = msg_sender (alice 2100) /\
  block_timestamp (alice 2100) <= block_timestamp (alice 2110) /\
  block_timestamp (alice 2110)
    < block_timestamp (alice 2100) + messageCooldown firstPost /\
  exists f, step (alice 2110) (createOp (Some 1) "more") firstPost = Fail f.
Proof.
  assert (Hs : step (alice 2100) (createOp None "hello") joined = Ok firstPost)
    by (vm_compute; reflexivity).
  assert (Hx : msg_sender (alice 2110) = msg_sender (alice 2100))
    by reflexivity.
  assert (Hle : block_timestamp (alice 2100) <= block_timestamp (alice 2110))
    by (vm_compute; discriminate).
  assert (Hlt : block_timestamp (alice 2110)
                < block_timestamp (alice 2100) + messageCooldown firstPost)
    by (vm_compute; reflexivity).
  split; [exact Hs|]. split; [exact Hx|]. split; [exact Hle|].
  split; [exact Hlt|].
  exact (cooldown_blocks_next_create (alice 2100) None "hello" joined firstPost
           (alice 2110) (Some 1) "more" Hs Hx Hle Hlt).
Defined.

Lemma postMessage_is_newest_of_feed_witness :
  reachable joined /\
  postMessage (alice 2100) "hello" joined = Ok firstPost /\
  getMessageCount firstPost = getMessageCount joined + 1 /\
  getMessage (messageCount joined) firstPost
  = Ok (newMessage (alice 2100) 0 "hello" joined) /\
  getLatestMessages 1 firstPost =
    if 1 <=? maxReturnCount joined
    then Ok [newMessage (alice 2100) 0 "hello" joined]
    else Fail (Revert "Too many messages requested").
Proof.
  assert (Hr : reachable joined) by apply reachable_after.
  assert (Hs : postMessage (alice 2100) "hello" joined = Ok firstPost)
    by (vm_compute; reflexivity).
  split; [exact Hr|]. split; [exact Hs|].
  exact (postMessage_is_newest_of_feed (alice 2100) "hello" joined firstPost
           Hr Hs).
Defined.

Lemma replyToMessage_is_last_reply_witness :
  reachable thread /\
  1 <> 0 /\
  replyToMessage (alice 2200) 1 "again" thread = Ok threadReplied /\
  getMessageCount threadReplied = getMessageCount thread + 1 /\
  getMessage (messageCount thread) threadReplied
  = Ok (newMessage (alice 2200) 1 "again" thread) /\
  getOriginalMessage (messageCount thread) threadReplied
  = getMessage 1 threadReplied /\
  exists older,
    getRepliesForMessage 1 threadReplied
    = Ok (older ++ [newMessage (alice 2200) 1 "again" thread]).
Proof.
  assert (Hr : reachable thread) by apply reachable_after.
  assert (Hq : 1 <> 0) by discriminate.
  assert (Hs : replyToMessage (alice 2200) 1 "again" thread = Ok threadReplied)
    by (vm_compute; reflexivity).
  split; [exact Hr|]. split; [exact Hq|]. split; [exact Hs|].
  exact (replyToMessage_is_last_reply (alice 2200) 1 "again" thread
           threadReplied Hr Hq Hs).
Defined.

Lemma directory_matches_profiles_witness :
  reachable joined /\ 10 <> 0 /\
  (getAddressByNickname "alice" joined = 10 <->
   exists av, getUserProfile 10 joined = ("alice", av, true)).
Proof.
  assert (Hr : reachable joined) by apply reachable_after.
  assert (Ha : 10 <> 0) by discriminate.
  split; [exact Hr|]. split; [exact Ha|].
  exact (directory_matches_profiles joined "alice" 10 Hr Ha).
Defined.

Lemma updateProfile_moves_the_handle_witness :
  reachable joined /\
  validNickname "al_2" = true /\
  (getAddressByNickname "al_2" joined = 0 \/
   getAddressByNickname "al_2" joined = msg_sender (alice 2100)) /\
  exists s',
    updateProfile (alice 2100) "al_2" "a2" joined = Ok s' /\
    getUserProfile (msg_sender (alice 2100)) s' = ("al_2", "a2", true) /\
    getAddressByNickname "al_2" s' = msg_sender (alice 2100) /\
    (forall h, h <> "al_2" ->
       getAddressByNickname h s' =
       if getAddressByNickname h joined =? msg_sender (alice 2100) then 0
       else getAddressByNickname h joined) /\
    (forall a, a <> msg_sender (alice 2100) ->
       getUserProfile a s' = getUserProfile a joined).
Proof.
  assert (Hr : reachable joined) by apply reachable_after.
  assert (Hv : validNickname "al_2" = true) by (vm_compute; reflexivity).
  assert (Hf : getAddressByNickname "al_2" joined = 0 \/
               getAddressByNickname "al_2" joined = msg_sender (alice 2100))
    by (left; vm_compute; reflexivity).
  split; [exact Hr|]. split; [exact Hv|]. split; [exact Hf|].
  exact (updateProfile_moves_the_handle (alice 2100) "al_2" "a2" joined
           Hr Hv Hf).
Defined.

Lemma deactivateProfile_releases_and_silences_witness :
  reachable joined /\
  UserProfile.nickname (addressToProfile joined (msg_sender (alice 2100)))
    <> "" /\
  exists s',
    deactivateProfile (alice 2100) joined = Ok s' /\
    getUserProfile (msg_sender (alice 2100)) s' =
      (UserProfile.nickname
         (addressToProfile joined (msg_sender (alice 2100))),
       UserProfile.avatarCode
         (addressToProfile joined (msg_sender (alice 2100))), false) /\
    (forall h,
       getAddressByNickname h s' =
       if getAddressByNickname h joined =? msg_sender (alice 2100) then 0
       else getAddressByNickname h joined) /\
    (forall e' reply body, msg_sender e' = msg_sender (alice 2100) ->
       exists f, step e' (createOp reply body) s' = Fail f).
Proof.
  assert (Hr : reachable joined) by apply reachable_after.
  assert (Hn : UserProfile.nickname
                 (addressToProfile joined (msg_sender (alice 2100))) <> "")
    by (vm_compute; discriminate).
  split; [exact Hr|]. split; [exact Hn|].
  exact (deactivateProfile_releases_and_silences (alice 2100) joined Hr Hn).
Defined.

Lemma updateAvatar_changes_avatar_only_witness :
  UserProfile.nickname (addressToProfile aliceGone (msg_sender (alice 2200)))
    <> "" /\
  exists s',
    updateAvatar (alice 2200) "a3" aliceGone = Ok s' /\
    getUserProfile (msg_sender (alice 2200)) s' =
      (UserProfile.nickname
         (addressToProfile aliceGone (msg_sender (alice 2200))), "a3",
       UserProfile.isActive
         (addressToProfile aliceGone (msg_sender (alice 2200)))) /\
    (forall h, getAddressByNickname h s' = getAddressByNickname h aliceGone) /\
    (forall a, a <> msg_sender (alice 2200) ->
       getUserProfile a s' = getUserProfile a aliceGone).
Proof.
  assert (Hn : UserProfile.nickname
                 (addressToProfile aliceGone (msg_sender (alice 2200))) <> "")
    by (vm_compute; discriminate).
  split; [exact Hn|].
  exact (updateAvatar_changes_avatar_only (alice 2200) "a3" aliceGone Hn).
Defined.

Lemma only_creates_allocate_ids_witness :
  step (alice 2200) (MarkMessageAsDeleted 1) thread = Ok threadDeleted /\
  getMessageCount threadDeleted =
    getMessageCount thread +
    (if isCreate (MarkMessageAsDeleted 1) then 1 else 0).
Proof.
  assert (Hs : step (alice 2200) (MarkMessageAsDeleted 1) thread
               = Ok threadDeleted) by (vm_compute; reflexivity).
  split; [exact Hs|].
  exact (only_creates_allocate_ids (alice 2200) (MarkMessageAsDeleted 1)
           thread threadDeleted Hs).
Defined.

Lemma create_succeeds_when_checks_pass_witness :
  reachable thread /\
  messageCount thread < MAX_UINT256 /\
  parentOf (Some 1) < messageCount thread /\
  0 < strlen "again" /\
  strlen "again" <= maxMessageLength thread /\
  lastMessageTime thread (msg_sender (alice 2200))
    <= block_timestamp (alice 2200) /\
  messageCooldown thread
    <= block_timestamp (alice 2200)
       - lastMessageTime thread (msg_sender (alice 2200)) /\
  UserProfile.isActive (addressToProfile thread (msg_sender (alice 2200)))
    = true /\
  exists s',
    step (alice 2200) (createOp (Some 1) "again") thread = Ok s' /\
    getTotalActiveMessages s' =
      if (maxActiveMessages thread <=? totalActiveMessages thread)
         && hasEvictable thread
      then totalActiveMessages thread else totalActiveMessages thread + 1.
Proof.
  assert (Hr : reachable thread) by apply reachable_after.
  assert (H1 : messageCount thread < MAX_UINT256) by (vm_compute; reflexivity).
  assert (H2 : parentOf (Some 1) < messageCount thread)
    by (vm_compute; reflexivity).
  assert (H3 : 0 < strlen "again") by (vm_compute; reflexivity).
  assert (H4 : strlen "again" <= maxMessageLength thread)
    by (vm_compute; discriminate).
  assert (H5 : lastMessageTime thread (msg_sender (alice 2200))
               <= block_timestamp (alice 2200)) by (vm_compute; discriminate).
  assert (H6 : messageCooldown thread
               <= block_timestamp (alice 2200)
                  - lastMessageTime thread (msg_sender (alice 2200)))
    by (vm_compute; discriminate).
  assert (H7 : UserProfile.isActive
                 (addressToProfile thread (msg_sender (alice 2200))) = true)
    by (vm_compute; reflexivity).
  split; [exact Hr|]. split; [exact H1|]. split; [exact H2|].
  split; [exact H3|]. split; [exact H4|]. split; [exact H5|].
  split; [exact H6|]. split; [exact H7|].
  exact (create_succeeds_when_checks_pass (alice 2200) (Some 1) "again" thread
           Hr H1 H2 H3 H4 H5 H6 H7).
Defined.

Lemma create_events_witness :
  reachable full /\
  step (alice 2200) (createOp None "b") full = Ok fullThenPost /\
  emitted fullThenPost =
    emitted full ++
    (if (maxActiveMessages full <=? totalActiveMessages full)
        && hasEvictable full
     then [OldMessagesDeleted 1] else []) ++
    [MessageSent (messageCount full) (msg_sender (alice 2200)) "b"
       (block_timestamp (alice 2200))].
Proof.
  assert (Hr : reachable full) by apply reachable_after.
  assert (Hs : step (alice 2200) (createOp None "b") full = Ok fullThenPost)
    by (vm_compute; reflexivity).
  split; [exact Hr|]. split; [exact Hs|].
  exact (create_events (alice 2200) None "b" full fullThenPost Hr Hs).
Defined.

Lemma reachable_counters_consistent_witness :
  reachable board /\
  (forall p, activeMessageCountByPeriod board p =
             countLive board (messageIdsByPeriod board p)) /\
  (forall a, activeSenderMessageCount board a =
             countLive board (senderToMessageIds board a)) /\
  (forall q, q <> 0 ->
     activeReplyCount board q = countLive board (messageReplies board q)) /\
  totalActiveMessages board = countLive board (iota (messageCount board)).
Proof.
  assert (Hr : reachable board) by apply reachable_after.
  split; [exact Hr|].
  exact (reachable_counters_consistent board Hr).
Defined.
